(** * Dashboard Analisis Kuesioner: the scoring and aggregation pipeline of app.py

    A shallow embedding of the Streamlit script [app.py].  The script loads a
    spreadsheet of Likert answers into a pandas frame, derives a numeric frame,
    restricts both to the selected questions and computes the aggregates each
    of the five views draws.

    Modelling decisions.
    - A raw cell is what openpyxl hands to pandas: a text ([Str]) or a number
      ([Num]); a blank cell is the number NaN, as pandas stores it.  Boolean
      and date cells are not modelled.
    - Numbers are IEEE binary64, as in numpy: Rocq's primitive [float], whose
      operations are the machine's.  Counts are numpy int64, modelled in [Z]
      (a count never exceeds the number of cells, so no wrap-around occurs).
    - A frame is the list of its named columns, in column order; a column is
      the list of its cells in row order.  [read_excel] makes column names
      distinct.
    - The pandas text-to-number parser used by [pd.to_numeric] and Python's
      [.2f] formatting belong to the libraries; they are Section variables.
    - What numpy and pandas leave open (the order in which a sum adds its
      terms, the order a sort gives to ties, when the union of two indexes
      can be sorted) or change between versions (pandas 3 raises where pandas
      1 and 2 return NaN) is a field of the record [pandas].  A property that
      depends on such a field states what it assumes of it.
    - Streamlit calls are recorded as a trace of events; [st.stop()] ends the
      run.  Titles, captions and markdown are static and not recorded.
      [@st.cache_data] only memoises [muat_data] and is transparent. *)

From Stdlib Require Import String List ZArith QArith Qabs Qpower Lia Lqa Bool Floats.
From Stdlib Require Import Permutation.
Import ListNotations.
Local Close Scope Q_scope.
Local Open Scope string_scope.
Local Open Scope list_scope.

(** ** Frames, series and cells *)

Inductive cell : Type :=
| Str (s : string)
| Num (x : float).

(** A blank spreadsheet cell. *)
Definition blank : cell := Num nan.

Definition Series (A : Type) : Type := list (string * A).
Definition DataFrame (A : Type) : Type := list (string * list A).

Definition columns {A} (df : DataFrame A) : list string := map fst df.

(** [len(df)]: the length of the index. *)
Definition nrows {A} (df : DataFrame A) : nat :=
  match df with
  | [] => 0
  | (_, col) :: _ => length col
  end.

(** [df.empty]: some axis has length 0. *)
Definition empty {A} (df : DataFrame A) : bool :=
  (length df =? 0)%nat || (nrows df =? 0)%nat.

(** Every column has one cell per row. *)
Definition rectangular {A} (df : DataFrame A) : Prop :=
  Forall (fun c => length (snd c) = nrows df) df.

(** All the cells of a frame, column after column. *)
Definition cells {A} (df : DataFrame A) : list A := concat (map snd df).

(** [df.values]: the rows of the frame; [flatten()] lays them end to end. *)
Definition iloc {A} (d : A) (df : DataFrame A) (i : nat) : list A :=
  map (fun c => nth i (snd c) d) df.

Definition values {A} (d : A) (df : DataFrame A) : list (list A) :=
  map (iloc d df) (seq 0 (nrows df)).

Definition flatten {A} (rows : list (list A)) : list A := concat rows.

(** [df.apply(f, axis=0)] and column-wise reductions such as [df.mean()]. *)
Definition apply_columns {A B} (f : list A -> B) (df : DataFrame A) : Series B :=
  map (fun c => (fst c, f (snd c))) df.

(** Element-wise map over a frame. *)
Definition applymap {A B} (f : A -> B) (df : DataFrame A) : DataFrame B :=
  map (fun c => (fst c, map f (snd c))) df.

(** A Python dict with string keys, in insertion order. *)
Fixpoint dict_get {A} (d : list (string * A)) (k : string) : option A :=
  match d with
  | [] => None
  | (k', v) :: d' => if String.eqb k' k then Some v else dict_get d' k
  end.

(** [df[keys]]: the columns named by [keys], in the order of [keys];
    [None] is pandas' KeyError. *)
Fixpoint getitem {A} (df : DataFrame A) (keys : list string) : option (DataFrame A) :=
  match keys with
  | [] => Some []
  | k :: keys' =>
      match dict_get df k, getitem df keys' with
      | Some col, Some rest => Some ((k, col) :: rest)
      | _, _ => None
      end
  end.

(** [df.drop(columns=[name])], guarded by [name in df.columns]. *)
Definition drop_column {A} (name : string) (df : DataFrame A) : DataFrame A :=
  filter (fun c => negb (String.eqb (fst c) name)) df.

(** ** Scale codec *)

Definition SKOR_MAP : list (string * float) :=
  [("SS", 6%float); ("S", 5%float); ("CS", 4%float);
   ("CTS", 3%float); ("TS", 2%float); ("STS", 1%float)].

Definition URUTAN_SKALA : list string := ["SS"; "S"; "CS"; "CTS"; "TS"; "STS"].

(** [cell == code]: a number never equals a text. *)
Definition cell_eqb (c : cell) (code : string) : bool :=
  match c with
  | Str s => String.eqb s code
  | Num _ => false
  end.

(** [v in URUTAN_SKALA]. *)
Definition in_skala (c : cell) : bool := existsb (cell_eqb c) URUTAN_SKALA.

(** ** Streamlit traces *)

Inductive menu_item : Type :=
| DashboardUtama
| AnalisisPerPertanyaan
| PeringkatSkor
| AnalisisSentimen
| TabelDataLengkap.

(** What a run of the script ends with: it ran to its last line, or
    [st.stop()] ended it, or an exception escaped. *)
Inductive outcome (A : Type) : Type :=
| Returned (a : A)
| Stopped
| Raised (e : string).
Arguments Returned {A} a.
Arguments Stopped {A}.
Arguments Raised {A} e.

Inductive figure : Type :=
| FigCounts (dist : Series Z)
| FigCountsPerQ (q_counts : Series (Series Z))
| FigScores (scores : Series float)
| FigPercent (rows : list (string * string * float))
| FigTotals (totals : Series Z).

Inductive ui_event : Type :=
| st_error (msg : string)
| st_warning (msg : string)
| st_metric (label value delta : string)
| st_plotly_chart (fig : figure)
| st_dataframe (df : DataFrame cell)
| st_dataframe_stats (stats : Series (list float)).

(** A script is the trace it emits and how it ends. *)
Definition script (A : Type) : Type := (list ui_event * outcome A)%type.

Definition ret {A} (a : A) : script A := ([], Returned a).
Definition emit (e : ui_event) : script unit := ([e], Returned tt).
Definition st_stop {A} : script A := ([], Stopped).
Definition raise {A} (e : string) : script A := ([], Raised e).

(** A computation that shows nothing: it returns or raises. *)
Definition lift {A} (o : outcome A) : script A := ([], o).

Definition bind {A B} (c : script A) (k : A -> script B) : script B :=
  match c with
  | (t, Returned a) => let (t', o) := k a in (t ++ t', o)
  | (t, Stopped) => (t, Stopped)
  | (t, Raised e) => (t, Raised e)
  end.

Notation "x <- c ;; k" := (bind c (fun x => k))
  (at level 61, c at next level, right associativity).
Notation "c ;;; k" := (bind c (fun _ => k))
  (at level 61, right associativity).

(** ** Numbers *)

(** int64 to float64 (exact below 2^53). *)
Definition float_of_Z (z : Z) : float := of_uint63 (Uint63.of_Z z).
Definition float_of_nat (n : nat) : float := float_of_Z (Z.of_nat n).

Definition notna (x : float) : bool := negb (is_nan x).
Definition dropna (l : list float) : list float := filter notna l.
Definition fillna (d x : float) : float := if is_nan x then d else x.

(** What the libraries decide.
    - [np_sum]: [ndarray.sum()].  numpy adds the elements in an order and
      with an association of its own (pairwise, in unrolled blocks), which
      depend on the length and the layout of the array.
    - [idx_all_na_raises]: [Series.idxmax()] and [Series.idxmin()] of a
      series whose values are all NaN return NaN in pandas 1 and 2 ([false])
      and raise ValueError in pandas 3 ([true]).
    - [apply_value_counts_raises]: [df.apply(pd.Series.value_counts)] builds
      one frame from the counts of every column, indexed by the union of the
      values; it raises TypeError when pandas has to sort that union and
      cannot (a number among texts).
    - [sort_values]: [sort_values(by, ascending=True)] on (label, score)
      rows; the order of rows with equal scores is the sort algorithm's.
    - [stats_df]: lines 313-314, [describe()] transposed, seven of its
      columns, sorted by mean. *)
Record pandas : Type := {
  np_sum : list float -> float;
  idx_all_na_raises : bool;
  apply_value_counts_raises : DataFrame cell -> bool;
  sort_values : Series float -> Series float;
  stats_df : DataFrame float -> Series (list float)
}.

(** [ndarray.mean()]: 0/0 = NaN on an empty array. *)
Definition np_mean (lib : pandas) (l : list float) : float :=
  (np_sum lib l / float_of_nat (length l))%float.

(** [Series.mean()], skipna (pandas' nanmean): the cells, with 0 in the place
    of NaN, are summed and the sum is divided by the number of cells that are
    not NaN; NaN when there is none. *)
Definition nanmean (lib : pandas) (col : list float) : float :=
  match dropna col with
  | [] => nan
  | vals => (np_sum lib (map (fillna 0) col) / float_of_nat (length vals))%float
  end.

(** [DataFrame.mean()]: one mean per column, labelled by the column. *)
Definition mean (lib : pandas) (df : DataFrame float) : Series float :=
  apply_columns (nanmean lib) df.

(** The search loop of [ndarray.argmax()] and [ndarray.argmin()]: the
    position of the first best element.  [worse mp v] tells that the
    candidate [v] replaces the best element so far, [mp]. *)
Fixpoint arg_loop (worse : float -> float -> bool)
    (mp : float) (idx i : nat) (l : list float) : nat :=
  match l with
  | [] => idx
  | v :: l' =>
      if worse mp v then arg_loop worse v i (S i) l'
      else arg_loop worse mp idx (S i) l'
  end.

Definition argmax (l : list float) : nat :=
  match l with
  | [] => 0
  | v :: l' => arg_loop (fun mp v => (mp <? v)%float) v 0 1 l'
  end.

Definition argmin (l : list float) : nat :=
  match l with
  | [] => 0
  | v :: l' => arg_loop (fun mp v => (v <? mp)%float) v 0 1 l'
  end.

(** The reduction of [ndarray.max()] and [ndarray.min()] on an array
    without NaN. *)
Definition best_of (worse : float -> float -> bool) (mp : float) (l : list float) : float :=
  fold_left (fun m x => if worse m x then x else m) l mp.

Definition np_max (l : list float) : float :=
  match l with
  | [] => nan
  | v :: l' => best_of (fun mp v => (mp <? v)%float) v l'
  end.

Definition np_min (l : list float) : float :=
  match l with
  | [] => nan
  | v :: l' => best_of (fun mp v => (v <? mp)%float) v l'
  end.

Definition all_na (l : list float) : bool := forallb is_nan l.

(** pandas' nanargmax / nanargmin: NaN is filled with -inf (resp. +inf)
    before the search, and the result is -1 ([None]) when every value is
    NaN. *)
Definition nanargmax (l : list float) : option nat :=
  if all_na l then None else Some (argmax (map (fillna neg_infinity) l)).

Definition nanargmin (l : list float) : option nat :=
  if all_na l then None else Some (argmin (map (fillna infinity) l)).

(** [Series.idxmax()] / [Series.idxmin()]: the label at the position found.
    An empty series raises ValueError.  When every value is NaN, pandas 1
    and 2 return NaN ([None], what the [pd.notna] guards of the overview
    expect) and pandas 3 raises ValueError. *)
Definition idxmax (lib : pandas) (s : Series float) : outcome (option string) :=
  match s with
  | [] => Raised "ValueError"
  | _ =>
      match nanargmax (map snd s) with
      | Some i => Returned (nth_error (map fst s) i)
      | None => if idx_all_na_raises lib then Raised "ValueError" else Returned None
      end
  end.

Definition idxmin (lib : pandas) (s : Series float) : outcome (option string) :=
  match s with
  | [] => Raised "ValueError"
  | _ =>
      match nanargmin (map snd s) with
      | Some i => Returned (nth_error (map fst s) i)
      | None => if idx_all_na_raises lib then Raised "ValueError" else Returned None
      end
  end.

(** [Series.max()] / [Series.min()], skipna. *)
Definition nanmax (l : list float) : float :=
  if all_na l then nan else np_max (map (fillna neg_infinity) l).

Definition nanmin (l : list float) : float :=
  if all_na l then nan else np_min (map (fillna infinity) l).

(** ** Counting *)

(** [(row == code).sum()]. *)
Definition count_eq (row : list cell) (code : string) : Z :=
  Z.of_nat (length (filter (fun c => cell_eqb c code) row)).

(** Equality of two cell values as hash keys. *)
Definition cell_same (a b : cell) : bool :=
  match a, b with
  | Str s, Str t => String.eqb s t
  | Num x, Num y => (x =? y)%float
  | _, _ => false
  end.

Definition cell_notna (c : cell) : bool :=
  match c with
  | Str _ => true
  | Num x => notna x
  end.

(** [Series.value_counts()]: NaN dropped, one entry per distinct value with
    the number of its occurrences.  pandas then sorts the entries by count;
    every use in the script reindexes the result, which forgets that order, so
    the entries stay in order of first occurrence here. *)
Fixpoint incr (k : cell) (vc : list (cell * Z)) : list (cell * Z) :=
  match vc with
  | [] => [(k, 1%Z)]
  | (k', n) :: vc' =>
      if cell_same k' k then (k', (n + 1)%Z) :: vc' else (k', n) :: incr k vc'
  end.

Definition value_counts (l : list cell) : list (cell * Z) :=
  fold_left (fun vc v => incr v vc) (filter cell_notna l) [].

(** Label lookup in a series of counts keyed by cell values. *)
Fixpoint loc (vc : list (cell * Z)) (label : string) : option Z :=
  match vc with
  | [] => None
  | (k, n) :: vc' => if cell_eqb k label then Some n else loc vc' label
  end.

(** [.reindex(labels)]: the entries at [labels], in that order, NaN ([None])
    for a label that is absent; [.fillna(0)] then turns NaN into 0. *)
Definition reindex (vc : list (cell * Z)) (labels : list string) : Series (option Z) :=
  map (fun label => (label, loc vc label)) labels.

Definition fillna0 (s : Series (option Z)) : Series Z :=
  map (fun e => (fst e, match snd e with Some n => n | None => 0%Z end)) s.

(** ** Aggregation engine *)

(** The nested function of the sentiment view: (Positif, Netral, Negatif). *)
Definition hitung_kategori (row : list cell) : Z * Z * Z :=
  let pos := (count_eq row "SS" + count_eq row "S")%Z in
  let neu := count_eq row "CS" in
  let neg := (count_eq row "CTS" + count_eq row "TS" + count_eq row "STS")%Z in
  (pos, neu, neg).

Record cat_row : Type := {
  Pertanyaan : string;
  Positif : Z;
  Netral : Z;
  Negatif : Z;
  Total : Z;
  Pct_Positif : float;
  Pct_Netral : float;
  Pct_Negatif : float
}.

(** [Series.replace(0, 1)] on one entry. *)
Definition replace_0_1 (n : Z) : Z := if (n =? 0)%Z then 1%Z else n.

(** [(count / total) * 100]: int64 true division, then a float product. *)
Definition persen (count total : Z) : float :=
  ((float_of_Z count / float_of_Z total) * 100)%float.

(** One row of [cat_per_q] once the Total and Pct_ columns are added. *)
Definition cat_row_of (q : string) (k : Z * Z * Z) : cat_row :=
  let '(pos, neu, neg) := k in
  let total := replace_0_1 (pos + neu + neg)%Z in
  {| Pertanyaan := q; Positif := pos; Netral := neu; Negatif := neg;
     Total := total;
     Pct_Positif := persen pos total;
     Pct_Netral := persen neu total;
     Pct_Negatif := persen neg total |}.

Definition cat_per_q (df_display : DataFrame cell) : list cat_row :=
  map (fun e => cat_row_of (fst e) (snd e)) (apply_columns hitung_kategori df_display).

(** [cat_melt]: the Pct_ columns stacked one after the other. *)
Definition cat_melt (rows : list cat_row) : list (string * string * float) :=
  map (fun r => (Pertanyaan r, "Positif", Pct_Positif r)) rows ++
  map (fun r => (Pertanyaan r, "Netral", Pct_Netral r)) rows ++
  map (fun r => (Pertanyaan r, "Negatif", Pct_Negatif r)) rows.

Definition Z_sum (l : list Z) : Z := fold_left Z.add l 0%Z.

Definition df_agregat (rows : list cat_row) : Series Z :=
  [("Positif", Z_sum (map Positif rows));
   ("Netral", Z_sum (map Netral rows));
   ("Negatif", Z_sum (map Negatif rows))].

(** The overview's global distribution. *)
Definition all_vals (df_display : DataFrame cell) : list cell :=
  filter in_skala (flatten (values blank df_display)).

Definition dist_global (df_display : DataFrame cell) : Series Z :=
  fillna0 (reindex (value_counts (all_vals df_display)) URUTAN_SKALA).

(** The per-question distribution of the second view: the counts of every
    column, put into one frame (TypeError when pandas cannot), reindexed to
    the Scale, NaN turned into 0. *)
Definition q_counts (lib : pandas) (df_display : DataFrame cell)
    : outcome (Series (Series Z)) :=
  if apply_value_counts_raises lib df_display then Raised "TypeError"
  else Returned (apply_columns
                   (fun col => fillna0 (reindex (value_counts col) URUTAN_SKALA))
                   df_display).

(** The overview's global mean. *)
Definition rata_rata_global (lib : pandas) (df_num_display : DataFrame float) : float :=
  np_mean lib (dropna (flatten (values nan df_num_display))).

Definition mean_per_q (lib : pandas) (df_num_display : DataFrame float) : Series float :=
  mean lib df_num_display.

Definition best_q (lib : pandas) (df_num_display : DataFrame float)
    : outcome (option string) :=
  idxmax lib (mean_per_q lib df_num_display).
Definition best_score (lib : pandas) (df_num_display : DataFrame float) : float :=
  nanmax (map snd (mean_per_q lib df_num_display)).
Definition worst_q (lib : pandas) (df_num_display : DataFrame float)
    : outcome (option string) :=
  idxmin lib (mean_per_q lib df_num_display).
Definition worst_score (lib : pandas) (df_num_display : DataFrame float) : float :=
  nanmin (map snd (mean_per_q lib df_num_display)).

(** The ranking view's table: the means, sorted by score for display. *)
Definition avg_scores (lib : pandas) (df_num_display : DataFrame float) : Series float :=
  sort_values lib (mean lib df_num_display).

(** ** Loader *)

Inductive read_excel_result : Type :=
| ImportError
| Exception (e : string)
| Sheet (df : DataFrame cell).

(** What the script finds on disk. *)
Record environment : Type := {
  DATA_FILE : string;
  path_exists : bool;
  read_excel : read_excel_result
}.

(** [df.replace(SKOR_MAP)] on one cell: the keys are texts. *)
Definition replace (m : list (string * float)) (c : cell) : cell :=
  match c with
  | Str s =>
      match dict_get m s with
      | Some v => Num v
      | None => c
      end
  | Num _ => c
  end.

Definition pesan_tidak_ditemukan (path : string) : string :=
  "❌ File tidak ditemukan di lokasi: " ++ path.
Definition pesan_openpyxl : string :=
  "❌ Library 'openpyxl' belum terinstall. Silakan jalankan `pip install openpyxl` di terminal.".
Definition pesan_gagal (e : string) : string :=
  "❌ Gagal memuat data. Detail Error: " ++ e.
Definition pesan_kosong : string :=
  "⚠️ Data berhasil dimuat tapi kosong, atau terjadi error saat loading.".

Section App.

(** pandas' parser of a text as a number ([None]: not a number). *)
Variable parse_float : string -> option float.
(** Python's [f"{x:.2f}"]. *)
Variable format_2f : float -> string.
(** Python's [str] of a non-negative int. *)
Variable str_of_nat : nat -> string.
(** numpy and pandas, where the script leaves the choice to them. *)
Variable lib : pandas.

(** [pd.to_numeric(col, errors='coerce')] on one cell. *)
Definition to_numeric (c : cell) : float :=
  match c with
  | Num x => x
  | Str s =>
      match parse_float s with
      | Some x => x
      | None => nan
      end
  end.

(** The numeric frame [muat_data] derives from the raw one. *)
Definition numeric_cell (c : cell) : float := to_numeric (replace SKOR_MAP c).

Definition numerik (df : DataFrame cell) : DataFrame float :=
  applymap to_numeric (applymap (replace SKOR_MAP) df).

Definition muat_data (env : environment) : script (DataFrame cell * DataFrame float) :=
  if negb (path_exists env) then
    emit (st_error (pesan_tidak_ditemukan (DATA_FILE env))) ;;; st_stop
  else
    match read_excel env with
    | Sheet df0 =>
        let df := drop_column "Partisipan" df0 in
        let df_numeric := numerik df in
        ret (df, df_numeric)
    | ImportError =>
        emit (st_error pesan_openpyxl) ;;; ret ([], [])
    | Exception e =>
        emit (st_error (pesan_gagal e)) ;;; ret ([], [])
    end.

(** ** Filter controller *)

(** Lines 110-116: both frames restricted to the selected questions. *)
Definition filter_questions (df : DataFrame cell) (df_numeric : DataFrame float)
    (selected_questions : list string)
    : option (DataFrame cell * DataFrame float) :=
  match selected_questions with
  | [] => Some (df, df_numeric)
  | _ =>
      match getitem df selected_questions, getitem df_numeric selected_questions with
      | Some df_display, Some df_num_display => Some (df_display, df_num_display)
      | _, _ => None
      end
  end.

(** ** Views *)

Definition skor_atau_strip (x : float) : string :=
  if notna x then "Skor: " ++ format_2f x else "-".

Definition label_atau_strip (q : option string) : string :=
  match q with
  | Some name => name
  | None => "-"
  end.

(** Lines 139-151 compute every figure of the overview before the first
    card is drawn, so an exception of [idxmax] or [idxmin] leaves the page
    without any card. *)
Definition dashboard_utama (df : DataFrame cell) (df_display : DataFrame cell)
    (df_num_display : DataFrame float) : script unit :=
  let total_responden := nrows df in
  let rata_rata := rata_rata_global lib df_num_display in
  best <- lift (best_q lib df_num_display) ;;
  worst <- lift (worst_q lib df_num_display) ;;
  emit (st_metric "👥 Total Responden" (str_of_nat total_responden ++ " Orang") "Data Masuk") ;;;
  emit (st_metric "⭐ Rata-rata Skor Global"
          (format_2f rata_rata ++ " / 6.00") "Skala 1-6") ;;;
  emit (st_metric "🏆 Pertanyaan Terbaik"
          (label_atau_strip best)
          (skor_atau_strip (best_score lib df_num_display))) ;;;
  emit (st_metric "⚠️ Perlu Perhatian"
          (label_atau_strip worst)
          (skor_atau_strip (worst_score lib df_num_display))) ;;;
  emit (st_plotly_chart (FigCounts (dist_global df_display))) ;;;
  emit (st_plotly_chart (FigCounts (dist_global df_display))).

Definition analisis_per_pertanyaan (df_display : DataFrame cell) : script unit :=
  counts <- lift (q_counts lib df_display) ;;
  emit (st_plotly_chart (FigCountsPerQ counts)) ;;;
  emit (st_plotly_chart (FigCountsPerQ counts)).

(** The bar chart of the sorted means, then the table of statistics. *)
Definition peringkat_skor (df_num_display : DataFrame float) : script unit :=
  emit (st_plotly_chart (FigScores (avg_scores lib df_num_display))) ;;;
  emit (st_dataframe_stats (stats_df lib df_num_display)).

Definition analisis_sentimen (df_display : DataFrame cell) : script unit :=
  let rows := cat_per_q df_display in
  emit (st_plotly_chart (FigPercent (cat_melt rows))) ;;;
  emit (st_plotly_chart (FigTotals (df_agregat rows))).

(** The download button's CSV text is produced by pandas and not modelled. *)
Definition tabel_data_lengkap (df_display : DataFrame cell) : script unit :=
  emit (st_dataframe df_display).

(** ** The script, top to bottom *)

Definition app (env : environment) (selected_questions : list string)
    (menu : menu_item) : script unit :=
  tables <- muat_data env ;;
  let df := fst tables in
  let df_numeric := snd tables in
  if empty df then
    emit (st_warning pesan_kosong) ;;; st_stop
  else
    match filter_questions df df_numeric selected_questions with
    | None => raise "KeyError"
    | Some (df_display, df_num_display) =>
        match menu with
        | DashboardUtama => dashboard_utama df df_display df_num_display
        | AnalisisPerPertanyaan => analisis_per_pertanyaan df_display
        | PeringkatSkor => peringkat_skor df_num_display
        | AnalisisSentimen => analisis_sentimen df_display
        | TabelDataLengkap => tabel_data_lengkap df_display
        end
    end.

End App.

(** ** Quantities the properties speak of *)

(** [count / total * 100] as an exact rational: the number that [persen]
    evaluates in binary64. *)
Definition persen_exact (count total : Z) : Q :=
  (inject_Z count / inject_Z total * 100)%Q.

(** The rational number that a binary64 number stands for (0 for NaN and
    the infinities, which have none). *)
Definition nilai_Q (x : float) : Q :=
  match Prim2SF x with
  | S754_finite s m e =>
      ((if s then - inject_Z (Zpos m) else inject_Z (Zpos m)) * 2 ^ e)%Q
  | _ => 0%Q
  end.

(** The number of cells that satisfy a test. *)
Definition banyak (p : cell -> bool) (row : list cell) : Z :=
  Z.of_nat (length (filter p row)).

(** The sum of the three buckets of a question. *)
Definition jumlah3 (k : Z * Z * Z) : Z :=
  let '(pos, neu, neg) := k in (pos + neu + neg)%Z.

(** The scenario table: three respondents, two questions. *)
Definition contoh : DataFrame cell :=
  [("Q1", [Str "SS"; Str "S"; Str "TS"]);
   ("Q2", [Str "CS"; Str "CS"; Str "STS"])].

(** The three percentages of a question, added up in binary64. *)
Definition jumlah_persen (r : cat_row) : float :=
  (Pct_Positif r + Pct_Netral r + Pct_Negatif r)%float.

(** ** Further quantities the properties speak of *)

(** The count a series holds at a label, 0 when the label is absent. *)
Definition jumlah (s : Series Z) (label : string) : Z :=
  match dict_get s label with
  | Some n => n
  | None => 0%Z
  end.


(** The shape of a frame: its column names with the length of each column. *)
Definition shape {A} (df : DataFrame A) : list (string * nat) :=
  map (fun c => (fst c, length (snd c))) df.

(** The score of one cell as a whole number (0 off the Scale). *)
Definition nilai (c : cell) : Z :=
  if cell_eqb c "SS" then 6%Z else
  if cell_eqb c "S" then 5%Z else
  if cell_eqb c "CS" then 4%Z else
  if cell_eqb c "CTS" then 3%Z else
  if cell_eqb c "TS" then 2%Z else
  if cell_eqb c "STS" then 1%Z else 0%Z.

(** The sum of the scores of a list of cells, read off its six counts. *)
Definition jumlah_skor (row : list cell) : Z :=
  (6 * count_eq row "SS" + 5 * count_eq row "S" + 4 * count_eq row "CS"
   + 3 * count_eq row "CTS" + 2 * count_eq row "TS" + 1 * count_eq row "STS")%Z.

(** A cell that has a score on the Scale, or no score at all. *)
Definition skala_atau_kosong (parse_float : string -> option float) (c : cell) : Prop :=
  in_skala c = true \/ is_nan (numeric_cell parse_float c) = true.

(** A column given by whole numbers, [None] for a missing cell, with the
    sum and the number of the cells that are there. *)
Definition kolom (ks : list (option Z)) : list float :=
  map (fun k => match k with Some z => float_of_Z z | None => nan end) ks.

Definition jumlah_ada (ks : list (option Z)) : Z :=
  Z_sum (map (fun k => match k with Some z => z | None => 0%Z end) ks).

Definition banyak_ada (ks : list (option Z)) : Z :=
  Z.of_nat (length (filter (fun k => match k with Some _ => true | None => false end) ks)).

(** ** What the properties assume of the libraries *)

(** [added_up l s]: [s] is what binary64 additions give for the elements of
    [l], taken in some order and with some association; the empty sum is 0. *)
Inductive added_up : list float -> float -> Prop :=
| added_nil : added_up [] 0%float
| added_one (x : float) : added_up [x] x
| added_app (l1 l2 : list float) (s1 s2 : float) :
    added_up l1 s1 -> added_up l2 s2 -> added_up (l1 ++ l2) (s1 + s2)%float
| added_perm (l l' : list float) (s : float) :
    Permutation l l' -> added_up l s -> added_up l' s.

(** numpy's sum adds up the elements of the array. *)
Definition sum_ok (lib : pandas) : Prop :=
  forall l, added_up l (np_sum lib l).

(** Ascending with NaN last: of two neighbours the second is NaN, or the
    first is a number that is not above it. *)
Fixpoint ascending (l : list float) : Prop :=
  match l with
  | x :: l' =>
      match l' with
      | y :: _ => (is_nan y = true \/ (x <=? y)%float = true) /\ ascending l'
      | [] => True
      end
  | [] => True
  end.

(** [sort_values] rearranges the rows, by score, NaN last. *)
Definition sort_ok (lib : pandas) : Prop :=
  forall s, Permutation s (sort_values lib s)
            /\ ascending (map snd (sort_values lib s)).

(** A cell that is a text, or blank. *)
Definition teks_atau_kosong (c : cell) : bool :=
  match c with
  | Str _ => true
  | Num x => is_nan x
  end.

(** The counts of the columns go into one frame when there is one column
    only, and when every value counted is a text (texts can be sorted). *)
Definition apply_ok (lib : pandas) : Prop :=
  (forall q col, apply_value_counts_raises lib [(q, col)] = false)
  /\ (forall df, forallb teks_atau_kosong (cells df) = true ->
                 apply_value_counts_raises lib df = false).

(** ** A library to run the script with *)

(** Summation from left to right, from 0. *)
Definition sum_left (l : list float) : float := fold_left PrimFloat.add l 0%float.

(** Insertion sort of (label, score) rows, NaN last. *)
Fixpoint insert_row (r : string * float) (s : Series float) : Series float :=
  match s with
  | [] => [r]
  | r' :: s' =>
      if is_nan (snd r') || (snd r <=? snd r')%float then r :: s
      else r' :: insert_row r s'
  end.

Definition sort_rows (s : Series float) : Series float := fold_right insert_row [] s.

(** One way to meet [apply_ok]: the union is taken to be unsortable when
    two questions or more are shown and the cells hold a number and a text. *)
Definition campuran (df : DataFrame cell) : bool :=
  (2 <=? length df)%nat
  && existsb (fun c => negb (teks_atau_kosong c)) (cells df)
  && existsb (fun c => match c with Str _ => true | Num _ => false end) (cells df).

(** [raises]: pandas 3 ([true]) or pandas 1 and 2 ([false]). *)
Definition pandas_contoh (raises : bool) : pandas :=
  {| np_sum := sum_left;
     idx_all_na_raises := raises;
     apply_value_counts_raises := campuran;
     sort_values := sort_rows;
     stats_df := apply_columns (fun _ => []) |}.

(** ** Proof devices *)

Definition fill0 (o : option Z) : Z :=
  match o with
  | Some n => n
  | None => 0%Z
  end.

(** The values of binary64 that are not NaN, ranked in lexicographic
    triples: [SFcompare] is the order of the ranks. *)
Definition rank (x : spec_float) : Z * Z * Z :=
  match x with
  | S754_nan => (0, 0, 0)
  | S754_zero _ => (0, 0, 0)
  | S754_infinity true => (-2, 0, 0)
  | S754_infinity false => (2, 0, 0)
  | S754_finite true m e => (-1, - e, - Zpos m)
  | S754_finite false m e => (1, e, Zpos m)
  end%Z.

Definition lex_lt (a b : Z * Z * Z) : Prop :=
  let '(a1, a2, a3) := a in
  let '(b1, b2, b3) := b in
  (a1 < b1 \/ (a1 = b1 /\ (a2 < b2 \/ (a2 = b2 /\ a3 < b3))))%Z.

Definition rk (x : float) : Z * Z * Z := rank (Prim2SF x).

Definition rk_opp (x : float) : Z * Z * Z :=
  let '(a, b, c) := rk x in (- a, - b, - c)%Z.

(** * Properties *)

Local Arguments String.eqb : simpl never.

(** ** Counting *)

Lemma filter_full_iff {A} (p : A -> bool) (l : list A) :
  length (filter p l) = length l <-> Forall (fun c => p c = true) l.
Proof.
  induction l as [|a l IH]; simpl.
  - split; auto.
  - destruct (p a) eqn:E; simpl.
    + split; intros H.
      * constructor; [assumption|]. apply IH. lia.
      * inversion H; subst. f_equal. now apply IH.
    + split; intros H.
      * pose proof (filter_length_le p l). lia.
      * inversion H; congruence.
Qed.

Lemma count_eq_cons (c : cell) (row : list cell) (code : string) :
  count_eq (c :: row) code
  = ((if cell_eqb c code then 1 else 0) + count_eq row code)%Z.
Proof.
  unfold count_eq. simpl. destruct (cell_eqb c code); simpl length; lia.
Qed.

Lemma count_eq_nonneg (row : list cell) (code : string) : (0 <= count_eq row code)%Z.
Proof. unfold count_eq. lia. Qed.

Lemma banyak_cons (p : cell -> bool) (c : cell) (row : list cell) :
  banyak p (c :: row) = ((if p c then 1 else 0) + banyak p row)%Z.
Proof.
  unfold banyak. simpl. destruct (p c); simpl length; lia.
Qed.

Ltac eqb_cases s :=
  destruct (String.eqb s "SS") eqn:?E, (String.eqb s "S") eqn:?E,
           (String.eqb s "CS") eqn:?E, (String.eqb s "CTS") eqn:?E,
           (String.eqb s "TS") eqn:?E, (String.eqb s "STS") eqn:?E;
  try (repeat match goal with
              | H : String.eqb _ _ = true |- _ => apply String.eqb_eq in H
              end; congruence).

(** The six per-code counts add up to the number of cells on the Scale. *)
Lemma count_eq_six (row : list cell) :
  (count_eq row "SS" + count_eq row "S" + count_eq row "CS"
   + count_eq row "CTS" + count_eq row "TS" + count_eq row "STS")%Z
  = banyak in_skala row.
Proof.
  induction row as [|c row IH].
  - reflexivity.
  - rewrite !count_eq_cons, banyak_cons, <- IH.
    unfold in_skala, URUTAN_SKALA. cbn [existsb].
    destruct c as [s|x]; cbn [cell_eqb].
    + eqb_cases s; cbn [orb]; lia.
    + cbn [orb]. lia.
Qed.

Lemma cell_eqb_in_skala (c : cell) (code : string) :
  In code URUTAN_SKALA -> cell_eqb c code = true -> in_skala c = true.
Proof.
  intros Hin H. unfold in_skala. apply existsb_exists. eauto.
Qed.

Lemma count_eq_filter (p : cell -> bool) (row : list cell) (code : string) :
  (forall c, cell_eqb c code = true -> p c = true) ->
  count_eq (filter p row) code = count_eq row code.
Proof.
  intros Hp. induction row as [|c row IH]; [reflexivity|].
  simpl. destruct (p c) eqn:E.
  - now rewrite !count_eq_cons, IH.
  - rewrite count_eq_cons, IH.
    destruct (cell_eqb c code) eqn:E'; [|reflexivity].
    apply Hp in E'. congruence.
Qed.

(** ** value_counts and reindex *)

Lemma cell_same_eqb (k' k : cell) (code : string) :
  cell_same k' k = true -> cell_eqb k' code = cell_eqb k code.
Proof.
  destruct k' as [s|x], k as [t|y]; simpl; try discriminate; [|reflexivity].
  intros H. apply String.eqb_eq in H. now subst.
Qed.

Lemma cell_eqb_same (k' k : cell) (code : string) :
  cell_eqb k' code = true -> cell_eqb k code = true -> cell_same k' k = true.
Proof.
  destruct k' as [s|x], k as [t|y]; simpl; try discriminate.
  intros H1 H2. apply String.eqb_eq in H1, H2. subst. apply String.eqb_refl.
Qed.

Lemma loc_incr (k : cell) (vc : list (cell * Z)) (code : string) :
  fill0 (loc (incr k vc) code)
  = (fill0 (loc vc code) + (if cell_eqb k code then 1 else 0))%Z.
Proof.
  induction vc as [|[k' n] vc IH]; simpl.
  - destruct (cell_eqb k code); reflexivity.
  - destruct (cell_same k' k) eqn:Es; simpl.
    + rewrite (cell_same_eqb _ _ code Es).
      destruct (cell_eqb k code); simpl; lia.
    + destruct (cell_eqb k' code) eqn:E'.
      * destruct (cell_eqb k code) eqn:E; simpl; [|lia].
        rewrite (cell_eqb_same _ _ _ E' E) in Es. discriminate.
      * exact IH.
Qed.

Lemma loc_fold_incr (l : list cell) (acc : list (cell * Z)) (code : string) :
  fill0 (loc (fold_left (fun vc v => incr v vc) l acc) code)
  = (fill0 (loc acc code) + count_eq l code)%Z.
Proof.
  revert acc. induction l as [|v l IH]; intros acc; simpl.
  - unfold count_eq. simpl. lia.
  - rewrite IH, loc_incr, count_eq_cons. lia.
Qed.

Lemma loc_value_counts (l : list cell) (code : string) :
  fill0 (loc (value_counts l) code) = count_eq l code.
Proof.
  unfold value_counts. rewrite loc_fold_incr. simpl.
  apply count_eq_filter. intros [s|x]; simpl; [reflexivity|discriminate].
Qed.

Lemma fillna0_reindex (vc : list (cell * Z)) (labels : list string) :
  fillna0 (reindex vc labels) = map (fun label => (label, fill0 (loc vc label))) labels.
Proof.
  unfold fillna0, reindex. rewrite map_map. reflexivity.
Qed.

(** ** Rows and columns hold the same cells *)

Lemma map_nth_seq {A} (d : A) (col : list A) :
  map (fun i => nth i col d) (seq 0 (length col)) = col.
Proof.
  induction col as [|a col IH]; [reflexivity|].
  simpl. f_equal. rewrite <- seq_shift, map_map. exact IH.
Qed.

Lemma filter_concat_cons {A I} (p : A -> bool) (f : I -> A) (g : I -> list A) (ix : list I) :
  length (filter p (concat (map (fun i => f i :: g i) ix)))
  = length (filter p (map f ix)) + length (filter p (concat (map g ix))).
Proof.
  induction ix as [|i ix IH]; [reflexivity|].
  cbn [map concat]. rewrite !filter_app, !length_app, IH.
  cbn [filter]. destruct (p (f i)); cbn [length]; lia.
Qed.

Lemma filter_rows_columns {A} (p : A -> bool) (d : A) (df : DataFrame A) (n : nat) :
  Forall (fun c => length (snd c) = n) df ->
  length (filter p (concat (map (iloc d df) (seq 0 n))))
  = length (filter p (cells df)).
Proof.
  intros H. induction H as [|c df Hc H IH].
  - unfold iloc, cells. simpl.
    induction (seq 0 n) as [|i ix IHs]; [reflexivity|exact IHs].
  - unfold cells. simpl. rewrite filter_app, length_app.
    change (length (filter p (concat (map (fun i => nth i (snd c) d :: iloc d df i) (seq 0 n))))
            = length (filter p (snd c)) + length (filter p (cells df))).
    rewrite filter_concat_cons, IH. f_equal.
    rewrite <- Hc, map_nth_seq. reflexivity.
Qed.

Lemma count_eq_flatten_values (df : DataFrame cell) (code : string) :
  rectangular df ->
  count_eq (flatten (values blank df)) code = count_eq (cells df) code.
Proof.
  intros H. unfold count_eq, flatten, values. f_equal.
  now apply filter_rows_columns.
Qed.

(** ** Global distribution *)

(** C2: on a rectangular frame, [dist_global] lists the six codes in the
    canonical order SS, S, CS, CTS, TS, STS, each with the number of cells
    equal to it (0 included), and the six counts add up to the number of
    cells that hold a Scale code. *)
Theorem dist_global_counts (df_display : DataFrame cell) :
  rectangular df_display ->
  dist_global df_display
  = [("SS", count_eq (cells df_display) "SS");
     ("S", count_eq (cells df_display) "S");
     ("CS", count_eq (cells df_display) "CS");
     ("CTS", count_eq (cells df_display) "CTS");
     ("TS", count_eq (cells df_display) "TS");
     ("STS", count_eq (cells df_display) "STS")]
  /\ Z_sum (map snd (dist_global df_display)) = banyak in_skala (cells df_display).
Proof.
  intros Hrect.
  assert (Hcode : forall code, In code URUTAN_SKALA ->
            fill0 (loc (value_counts (all_vals df_display)) code)
            = count_eq (cells df_display) code).
  { intros code Hin. rewrite loc_value_counts. unfold all_vals.
    rewrite count_eq_filter by (intros c; now apply cell_eqb_in_skala).
    now apply count_eq_flatten_values. }
  assert (Hd : dist_global df_display
               = map (fun code => (code, count_eq (cells df_display) code)) URUTAN_SKALA).
  { unfold dist_global. rewrite fillna0_reindex.
    apply map_ext_in. intros code Hin. now rewrite Hcode. }
  split.
  - exact Hd.
  - rewrite Hd, <- count_eq_six. unfold Z_sum. simpl. lia.
Qed.

Lemma dist_global_counts_contoh :
  rectangular contoh
  /\ (dist_global contoh
      = [("SS", count_eq (cells contoh) "SS");
         ("S", count_eq (cells contoh) "S");
         ("CS", count_eq (cells contoh) "CS");
         ("CTS", count_eq (cells contoh) "CTS");
         ("TS", count_eq (cells contoh) "TS");
         ("STS", count_eq (cells contoh) "STS")]
      /\ Z_sum (map snd (dist_global contoh)) = banyak in_skala (cells contoh)).
Proof.
  split.
  - repeat constructor.
  - apply (dist_global_counts contoh). repeat constructor.
Defined.

(** ** Sentiment buckets *)

Lemma count_eq_or2 (row : list cell) :
  banyak (fun c => cell_eqb c "SS" || cell_eqb c "S") row
  = (count_eq row "SS" + count_eq row "S")%Z.
Proof.
  induction row as [|c row IH]; [reflexivity|].
  rewrite banyak_cons, !count_eq_cons, IH.
  destruct c as [s|x]; cbn [cell_eqb orb]; [|lia].
  eqb_cases s; cbn [orb]; lia.
Qed.

Lemma count_eq_or3 (row : list cell) :
  banyak (fun c => cell_eqb c "CTS" || cell_eqb c "TS" || cell_eqb c "STS") row
  = (count_eq row "CTS" + count_eq row "TS" + count_eq row "STS")%Z.
Proof.
  induction row as [|c row IH]; [reflexivity|].
  rewrite banyak_cons, !count_eq_cons, IH.
  destruct c as [s|x]; cbn [cell_eqb orb]; [|lia].
  eqb_cases s; cbn [orb]; lia.
Qed.

Lemma jumlah3_hitung_kategori (row : list cell) :
  jumlah3 (hitung_kategori row) = banyak in_skala row.
Proof.
  unfold jumlah3, hitung_kategori. rewrite <- count_eq_six. lia.
Qed.

Lemma banyak_le_length (p : cell -> bool) (row : list cell) :
  (0 <= banyak p row <= Z.of_nat (length row))%Z.
Proof.
  unfold banyak. pose proof (filter_length_le p row). lia.
Qed.

Lemma hitung_kategori_filter (row : list cell) :
  hitung_kategori (filter in_skala row) = hitung_kategori row.
Proof.
  unfold hitung_kategori.
  rewrite !count_eq_filter; try reflexivity;
    intros c; apply cell_eqb_in_skala; simpl; tauto.
Qed.

(** C3: [cat_per_q] maps every question column to its three buckets:
    Positif counts the cells equal to SS or S, Netral those equal to CS,
    Negatif those equal to CTS, TS or STS.  The three add up to the number
    of cells on the Scale, so to at most the number of cells of the column,
    with equality exactly when every cell is a Scale code; cells outside
    the Scale change no bucket.  The scenario's Q1 = [SS, S, TS] has the
    buckets (2, 0, 1). *)
Theorem hitung_kategori_buckets (df_display : DataFrame cell) (row : list cell) :
  map (fun r => (Pertanyaan r, (Positif r, Netral r, Negatif r))) (cat_per_q df_display)
  = map (fun c => (fst c, hitung_kategori (snd c))) df_display
  /\ hitung_kategori row
     = (banyak (fun c => cell_eqb c "SS" || cell_eqb c "S") row,
        banyak (fun c => cell_eqb c "CS") row,
        banyak (fun c => cell_eqb c "CTS" || cell_eqb c "TS" || cell_eqb c "STS") row)
  /\ jumlah3 (hitung_kategori row) = banyak in_skala row
  /\ (jumlah3 (hitung_kategori row) <= Z.of_nat (length row))%Z
  /\ (jumlah3 (hitung_kategori row) = Z.of_nat (length row)
      <-> Forall (fun c => in_skala c = true) row)
  /\ hitung_kategori (filter in_skala row) = hitung_kategori row
  /\ hitung_kategori [Str "SS"; Str "S"; Str "TS"] = (2, 0, 1)%Z.
Proof.
  repeat split.
  - unfold cat_per_q, apply_columns. rewrite !map_map.
    apply map_ext. intros [q col]. reflexivity.
  - unfold hitung_kategori. now rewrite count_eq_or2, count_eq_or3.
  - apply jumlah3_hitung_kategori.
  - rewrite jumlah3_hitung_kategori. apply banyak_le_length.
  - rewrite jumlah3_hitung_kategori. unfold banyak. intros H.
    apply filter_full_iff. lia.
  - rewrite jumlah3_hitung_kategori. unfold banyak. intros H.
    apply filter_full_iff in H. lia.
  - apply hitung_kategori_filter.
Qed.

(** ** Rounding in binary64

    The operations of primitive floats are specified on [spec_float]:
    [binary_round_aux] truncates a mantissa to 53 bits and rounds it to
    nearest even.  The lemmas below show that such a rounding never passes
    a binary64 number that bounds the exact value from above, which bounds
    the quotient of two counts by 1 and its product with 100 by 100. *)

Local Open Scope Z_scope.

Lemma iter_pos_nat {A} (f : A -> A) (p : positive) (x : A) :
  SpecFloat.iter_pos f p x = Nat.iter (Pos.to_nat p) f x.
Proof.
  revert x. induction p as [p IH|p IH|]; intros x; cbn [SpecFloat.iter_pos].
  - rewrite !IH, Pos2Nat.inj_xI, <- Nat.iter_add.
    replace (S (2 * Pos.to_nat p))%nat with (S (Pos.to_nat p + Pos.to_nat p)) by lia.
    now rewrite Nat.iter_succ_r.
  - rewrite !IH, Pos2Nat.inj_xO, <- Nat.iter_add.
    f_equal. lia.
  - reflexivity.
Qed.

Lemma shr_1_m (mrs : shr_record) :
  0 <= shr_m mrs -> shr_m (shr_1 mrs) = shr_m mrs / 2 /\ 0 <= shr_m (shr_1 mrs).
Proof.
  destruct mrs as [m r s]. cbn [shr_m]. intros Hm.
  rewrite <- Z.div2_div.
  destruct m as [|p|p]; [| |lia]; try destruct p; cbn; split; (reflexivity || lia).
Qed.

Lemma shr_1_exact (mrs : shr_record) :
  shr_r mrs = false -> shr_s mrs = false -> Z.even (shr_m mrs) = true ->
  shr_r (shr_1 mrs) = false /\ shr_s (shr_1 mrs) = false.
Proof.
  destruct mrs as [m r s]. cbn [shr_m shr_r shr_s]. intros -> -> He.
  destruct m as [|p|p]; try destruct p; cbn in *; try discriminate; auto.
Qed.

Lemma shr_iter_m (k : nat) (mrs : shr_record) :
  0 <= shr_m mrs ->
  shr_m (Nat.iter k shr_1 mrs) = shr_m mrs / 2 ^ Z.of_nat k
  /\ 0 <= shr_m (Nat.iter k shr_1 mrs).
Proof.
  intros Hm. induction k as [|k [IH1 IH2]].
  - cbn. rewrite Z.div_1_r. auto.
  - rewrite Nat.iter_succ. destruct (shr_1_m _ IH2) as [H1 H2]. split; [|exact H2].
    rewrite H1, IH1, Nat2Z.inj_succ, Z.pow_succ_r by lia.
    rewrite Z.div_div by lia. f_equal. lia.
Qed.

Lemma shr_iter_exact (k : nat) (mrs : shr_record) :
  0 <= shr_m mrs ->
  shr_r mrs = false -> shr_s mrs = false -> shr_m mrs mod 2 ^ Z.of_nat k = 0 ->
  shr_r (Nat.iter k shr_1 mrs) = false /\ shr_s (Nat.iter k shr_1 mrs) = false.
Proof.
  intros Hm Hr Hs. induction k as [|k IH]; intros Hk.
  - cbn. auto.
  - rewrite Nat.iter_succ.
    rewrite Nat2Z.inj_succ, Z.pow_succ_r in Hk by lia.
    assert (Hdiv : shr_m mrs mod 2 ^ Z.of_nat k = 0).
    { apply Z.mod_divide; [lia|]. apply Z.mod_divide in Hk; [|lia].
      destruct Hk as [c Hc]. exists (c * 2). lia. }
    destruct (IH Hdiv) as [IHr IHs].
    apply shr_1_exact; auto.
    destruct (shr_iter_m k mrs Hm) as [-> _].
    apply Z.mod_divide in Hk; [|lia]. destruct Hk as [c Hc].
    rewrite Hc. replace (c * (2 * 2 ^ Z.of_nat k)) with ((c * 2) * 2 ^ Z.of_nat k) by lia.
    rewrite Z.div_mul by lia. rewrite Z.even_mul. apply orb_true_r.
Qed.

Lemma digits2_size (p : positive) : digits2_pos p = Pos.size p.
Proof. induction p as [p IH|p IH|]; simpl; congruence. Qed.

Lemma digits_bounds (p : positive) :
  2 ^ (Zpos (digits2_pos p) - 1) <= Zpos p < 2 ^ Zpos (digits2_pos p).
Proof.
  rewrite digits2_size. split.
  - pose proof (Pos.size_le p) as H.
    apply Pos2Z.pos_le_pos in H. rewrite Pos2Z.inj_pow in H.
    replace (Zpos (Pos.size p)) with (Z.succ (Zpos (Pos.size p) - 1)) in H by lia.
    rewrite Z.pow_succ_r in H by lia. lia.
  - pose proof (Pos.size_gt p) as H.
    apply Pos2Z.pos_lt_pos in H. now rewrite Pos2Z.inj_pow in H.
Qed.

Lemma Zdigits2_le (m k : Z) : 0 <= m -> 0 <= k -> m < 2 ^ k -> Zdigits2 m <= k.
Proof.
  intros Hm Hk H. destruct m as [|p|p]; [simpl; lia| |lia].
  simpl. destruct (digits_bounds p) as [Hlo _].
  destruct (Z_le_gt_dec (Zpos (digits2_pos p)) k) as [|Hgt]; [assumption|exfalso].
  assert (2 ^ k <= 2 ^ (Zpos (digits2_pos p) - 1)) by (apply Z.pow_le_mono_r; lia).
  lia.
Qed.

Lemma fexp64 (x : Z) : fexp prec emax x = Z.max (x - 53) (-1074).
Proof. reflexivity. Qed.

Lemma shr_record_of_loc_m (m : Z) (l : location) : shr_m (shr_record_of_loc m l) = m.
Proof. destruct l as [|[]]; reflexivity. Qed.

Lemma loc_exact_of_bits (mrs : shr_record) :
  shr_r mrs = false -> shr_s mrs = false -> loc_of_shr_record mrs = loc_Exact.
Proof. destruct mrs as [m r s]. simpl. intros -> ->. reflexivity. Qed.

(** A right shift by [n] bits truncates the mantissa, and keeps an exact
    location when the bits shifted out are zero. *)
Lemma shr_spec (m e n : Z) (l : location) (mrs' : shr_record) (e' : Z) :
  0 <= m ->
  shr (shr_record_of_loc m l) e n = (mrs', e') ->
  e' = e + Z.max n 0
  /\ shr_m mrs' = m / 2 ^ Z.max n 0
  /\ (l = loc_Exact -> m mod 2 ^ Z.max n 0 = 0 -> loc_of_shr_record mrs' = loc_Exact).
Proof.
  intros Hm H. unfold shr in H.
  destruct n as [|p|p].
  - inversion H; subst. simpl. rewrite shr_record_of_loc_m, Z.div_1_r.
    repeat split; try lia. intros -> _. reflexivity.
  - inversion H; subst. clear H. rewrite iter_pos_nat.
    replace (Z.max (Zpos p) 0) with (Z.of_nat (Pos.to_nat p)) by (rewrite positive_nat_Z; lia).
    assert (H0 : 0 <= shr_m (shr_record_of_loc m l)) by now rewrite shr_record_of_loc_m.
    destruct (shr_iter_m (Pos.to_nat p) _ H0) as [Hq _].
    rewrite shr_record_of_loc_m in Hq.
    repeat split; try assumption; try (rewrite positive_nat_Z; lia).
    intros -> Hmod.
    destruct (shr_iter_exact (Pos.to_nat p) (shr_record_of_loc m loc_Exact)) as [Hr Hs];
      try reflexivity; try assumption.
    now apply loc_exact_of_bits.
  - inversion H; subst. simpl. rewrite shr_record_of_loc_m, Z.div_1_r.
    repeat split; try lia. intros -> _. reflexivity.
Qed.

Lemma shr_fexp_spec (m e : Z) (l : location) (mrs' : shr_record) (e' : Z) :
  0 <= m ->
  shr_fexp prec emax m e l = (mrs', e') ->
  let n := Z.max (Z.max (Zdigits2 m + e - 53) (-1074) - e) 0 in
  e' = e + n
  /\ shr_m mrs' = m / 2 ^ n
  /\ (l = loc_Exact -> m mod 2 ^ n = 0 -> loc_of_shr_record mrs' = loc_Exact).
Proof.
  intros Hm H. unfold shr_fexp in H. rewrite fexp64 in H.
  exact (shr_spec _ _ _ _ _ _ Hm H).
Qed.

Lemma round_nearest_even_bounds (m : Z) (l : location) :
  m <= round_nearest_even m l <= m + 1
  /\ (l = loc_Exact -> round_nearest_even m l = m).
Proof.
  destruct l as [|[]]; simpl; try destruct (Z.even m); repeat split; try lia; discriminate.
Qed.

Lemma pow2_pos (k : Z) : 0 <= k -> 0 < 2 ^ k.
Proof. intros. apply Z.pow_pos_nonneg; lia. Qed.

Lemma div_mul_le (m k : Z) : 0 <= m -> 0 < k -> m / k * k <= m.
Proof.
  intros Hm Hk. pose proof (Z.mul_div_le m k Hk). lia.
Qed.

(** Rounding to nearest never passes a binary64 number that bounds the
    exact value from above. *)
Lemma binary_round_aux_le (mx : positive) (ex : Z) (lx : location) (mB : positive) (eB : Z) :
  ex <= eB -> -1074 <= eB <= 971 -> Zpos mB < 2 ^ 53 ->
  (Zpos mx < Zpos mB * 2 ^ (eB - ex)
   \/ (Zpos mx = Zpos mB * 2 ^ (eB - ex) /\ lx = loc_Exact)) ->
  binary_round_aux prec emax false (Zpos mx) ex lx = S754_zero false
  \/ exists m e,
       binary_round_aux prec emax false (Zpos mx) ex lx = S754_finite false m e
       /\ (e < eB \/ (e = eB /\ Zpos m <= Zpos mB)).
Proof.
  intros Hex HeB HmB H.
  unfold binary_round_aux.
  destruct (shr_fexp prec emax (Zpos mx) ex lx) as [mrs' e'] eqn:H1.
  destruct (shr_fexp_spec _ _ _ _ _ (Pos2Z.is_nonneg mx) H1) as (He' & Hm' & Hloc').
  cbn [Zdigits2] in He', Hm', Hloc'.
  destruct (digits_bounds mx) as [Hdlo Hdhi].
  set (d := Zpos (digits2_pos mx)) in *.
  set (n := Z.max (Z.max (d + ex - 53) (-1074) - ex) 0) in *.
  assert (Hn : 0 <= n) by (unfold n; lia).
  assert (Hd : d + ex - 53 <= eB).
  { assert (Hlt : 2 ^ (d - 1) < 2 ^ (53 + eB - ex)).
    { replace (53 + eB - ex) with (53 + (eB - ex)) by lia.
      rewrite Z.pow_add_r by lia.
      pose proof (pow2_pos (eB - ex) ltac:(lia)). nia. }
    apply Z.pow_lt_mono_r_iff in Hlt; lia. }
  assert (He'B : e' <= eB) by (unfold n in *; lia).
  set (MB := Zpos mB * 2 ^ (eB - e')).
  assert (HPM : Zpos mB * 2 ^ (eB - ex) = MB * 2 ^ n).
  { unfold MB. replace (eB - ex) with ((eB - e') + n) by lia.
    rewrite Z.pow_add_r by lia. lia. }
  pose proof (pow2_pos n Hn) as Hpn.
  pose proof (pow2_pos (eB - e') ltac:(lia)) as HpB.
  assert (Hinv : shr_m mrs' < MB
                 \/ (shr_m mrs' = MB /\ loc_of_shr_record mrs' = loc_Exact)).
  { rewrite Hm'. destruct H as [Hlt|[Heq Hl]].
    - left. apply Z.div_lt_upper_bound; lia.
    - right. rewrite Heq, HPM. split.
      + now apply Z.div_mul; lia.
      + apply Hloc'; [assumption|]. rewrite Heq, HPM. apply Z.mod_mul. lia. }
  assert (Hm'0 : 0 <= shr_m mrs').
  { rewrite Hm'. apply Z.div_pos; lia. }
  destruct (round_nearest_even_bounds (shr_m mrs') (loc_of_shr_record mrs')) as [Hr Hrex].
  set (m1 := round_nearest_even (shr_m mrs') (loc_of_shr_record mrs')) in *.
  assert (Hm1 : 0 <= m1 <= MB).
  { destruct Hinv as [Hlt|[Heq Hl]]; [lia|]. rewrite (Hrex Hl). lia. }
  destruct (shr_fexp prec emax m1 e' loc_Exact) as [mrs'' e''] eqn:H2.
  destruct (shr_fexp_spec _ _ _ _ _ (proj1 Hm1) H2) as (He'' & Hm'' & _).
  set (n2 := Z.max (Z.max (Zdigits2 m1 + e' - 53) (-1074) - e') 0) in *.
  assert (Hn2 : 0 <= n2) by (unfold n2; lia).
  pose proof (pow2_pos n2 Hn2) as Hpn2.
  assert (Hd1 : Zdigits2 m1 <= 53 + (eB - e')).
  { apply Zdigits2_le; try lia.
    rewrite Z.pow_add_r by lia. unfold MB in Hm1. nia. }
  assert (He''B : e'' <= eB) by (unfold n2 in *; lia).
  assert (Hm''0 : 0 <= shr_m mrs'').
  { rewrite Hm''. apply Z.div_pos; lia. }
  assert (Hval : shr_m mrs'' * 2 ^ n2 <= MB).
  { rewrite Hm''. pose proof (div_mul_le m1 (2 ^ n2) (proj1 Hm1) Hpn2). lia. }
  destruct (shr_m mrs'') as [|m|m] eqn:Em; [now left| |lia].
  right. exists m, e''.
  replace (e'' <=? emax - prec) with true
    by (symmetry; apply Z.leb_le; change (emax - prec) with 971; lia).
  split; [reflexivity|].
  destruct (Z.eq_dec e'' eB) as [Heq|Hne]; [right|left; lia].
  split; [assumption|].
  assert (n2 = eB - e') by lia.
  unfold MB in Hval. subst n2. rewrite H0 in Hval. nia.
Qed.

Lemma SFleb_finite_le (m mB : positive) (e eB : Z) :
  e < eB \/ (e = eB /\ Zpos m <= Zpos mB) ->
  SFleb (S754_finite false m e) (S754_finite false mB eB) = true.
Proof.
  intros H. unfold SFleb, SFcompare.
  destruct (Z.compare_spec e eB) as [E|E|E]; try reflexivity; try lia.
  change (Pos.compare_cont Eq m mB) with (Pos.compare m mB).
  destruct (Pos.compare_spec m mB) as [M|M|M]; try reflexivity. lia.
Qed.

Lemma binary_round_aux_canonical (m : positive) (e : Z) :
  Zpos (digits2_pos m) = 53 -> -1074 <= e <= 971 ->
  binary_round_aux prec emax false (Zpos m) e loc_Exact = S754_finite false m e.
Proof.
  intros Hd He. unfold binary_round_aux.
  destruct (shr_fexp prec emax (Zpos m) e loc_Exact) as [mrs' e'] eqn:H1.
  destruct (shr_fexp_spec _ _ _ _ _ (Pos2Z.is_nonneg m) H1) as (He' & Hm' & Hloc').
  cbn [Zdigits2] in He', Hm', Hloc'. rewrite Hd in *.
  replace (Z.max (Z.max (53 + e - 53) (-1074) - e) 0) with 0 in * by lia.
  rewrite Z.pow_0_r in *. rewrite Z.div_1_r in Hm'. rewrite Z.add_0_r in He'. subst e'.
  rewrite (Hloc' eq_refl (Z.mod_1_r _)), Hm'.
  cbn [round_nearest_even].
  destruct (shr_fexp prec emax (Zpos m) e loc_Exact) as [mrs'' e''] eqn:H2.
  inversion H1; subst. rewrite Hm'.
  replace (e <=? emax - prec) with true
    by (symmetry; apply Z.leb_le; change (emax - prec) with 971; lia).
  reflexivity.
Qed.

Lemma iter_xO_spec (k p : positive) :
  Zpos (Pos.iter xO p k) = Zpos p * 2 ^ Zpos k
  /\ Zpos (digits2_pos (Pos.iter xO p k)) = Zpos (digits2_pos p) + Zpos k.
Proof.
  induction k as [|k [IH1 IH2]] using Pos.peano_ind.
  - simpl. split; lia.
  - rewrite Pos.iter_succ. cbn [digits2_pos]. rewrite Pos2Z.inj_xO, IH1.
    rewrite !Pos2Z.inj_succ, Z.pow_succ_r by lia. lia.
Qed.

(** An integer below 2^53 converts exactly: a 53-bit mantissa and the
    exponent that scales it back. *)
Lemma float_of_Z_exact (z : Z) :
  0 < z < 2 ^ 53 ->
  exists m e,
    Prim2SF (of_uint63 (Uint63.of_Z z)) = S754_finite false m e
    /\ Zpos (digits2_pos m) = 53
    /\ -52 <= e <= 0
    /\ Zpos m = z * 2 ^ (- e).
Proof.
  intros Hz. rewrite of_uint63_spec, Uint63.of_Z_spec.
  rewrite Z.mod_small by (change Uint63.wB with (2 ^ 63); lia).
  destruct z as [|p|p]; try lia.
  unfold binary_normalize, binary_round, shl_align.
  rewrite fexp64. destruct (digits_bounds p) as [Hlo Hhi].
  assert (Hd : 1 <= Zpos (digits2_pos p) <= 53).
  { split; [lia|]. change (Zpos (digits2_pos p)) with (Zdigits2 (Zpos p)).
    apply Zdigits2_le; lia. }
  set (d := Zpos (digits2_pos p)) in *.
  replace (Z.max (d + 0 - 53) (-1074) - 0) with (d - 53) by lia.
  destruct (d - 53) as [|k|k] eqn:Ek; try lia.
  - exists p, 0. rewrite binary_round_aux_canonical by (fold d; lia).
    repeat split; lia.
  - destruct (iter_xO_spec k p) as [Hv Hdig]. fold d in Hdig.
    exists (Pos.iter xO p k), (Zneg k).
    rewrite binary_round_aux_canonical by lia.
    repeat split; try lia.
    + f_equal. lia.
    + exact Hv.
Qed.

Lemma new_location_0 (nb : Z) : new_location nb 0 = loc_Exact.
Proof.
  unfold new_location, new_location_even, new_location_odd.
  destruct (Z.even nb); reflexivity.
Qed.

(** The quotient of two 53-bit numbers is at most 1 when the dividend is
    not the larger one. *)
Lemma SFdiv_le_one (m1 m2 : positive) (e1 e2 : Z) :
  Zpos (digits2_pos m1) = 53 -> Zpos (digits2_pos m2) = 53 ->
  -52 <= e1 -> e1 <= e2 -> e2 <= 0 ->
  Zpos m1 <= Zpos m2 * 2 ^ (e2 - e1) ->
  SFdiv prec emax (S754_finite false m1 e1) (S754_finite false m2 e2) = S754_zero false
  \/ exists m e,
       SFdiv prec emax (S754_finite false m1 e1) (S754_finite false m2 e2)
       = S754_finite false m e
       /\ (e < -52 \/ (e = -52 /\ Zpos m <= 2 ^ 52)).
Proof.
  intros Hd1 Hd2 He1 He12 He2 Hle.
  unfold SFdiv, SFdiv_core_binary. cbn [Zdigits2]. rewrite Hd1, Hd2, fexp64.
  replace (Z.min (Z.max (53 + e1 - (53 + e2) - 53) (-1074)) (e1 - e2))
    with (e1 - e2 - 53) by lia.
  replace (e1 - e2 - (e1 - e2 - 53)) with 53 by lia.
  cbv iota. rewrite Z.shiftl_mul_pow2 by lia.
  pose proof (Z_div_mod (Zpos m1 * 2 ^ 53) (Zpos m2) ltac:(lia)) as Hdm.
  destruct (Z.div_eucl (Zpos m1 * 2 ^ 53) (Zpos m2)) as [q r].
  destruct Hdm as [Hq Hr]. cbn [xorb].
  destruct (digits_bounds m1) as [Hlo1 _]. destruct (digits_bounds m2) as [_ Hhi2].
  rewrite Hd1 in Hlo1. rewrite Hd2 in Hhi2.
  pose proof (pow2_pos (e2 - e1) ltac:(lia)) as Hp.
  assert (Hq1 : 1 <= q) by nia.
  destruct q as [|q|q]; try lia.
  change (2 ^ 52) with (Zpos 4503599627370496).
  apply binary_round_aux_le; try lia.
  replace (-52 - (e1 - e2 - 53)) with (1 + (e2 - e1)) by lia.
  rewrite Z.pow_add_r by lia.
  assert (Hqle : Zpos q <= 4503599627370496 * (2 ^ 1 * 2 ^ (e2 - e1))) by nia.
  destruct (Z.eq_dec (Zpos q) (4503599627370496 * (2 ^ 1 * 2 ^ (e2 - e1)))) as [Heq|Hne];
    [right|left; lia].
  split; [exact Heq|].
  assert (r = 0) by nia. subst r. apply new_location_0.
Qed.

Lemma valid_mantissa_lt (m : positive) (e : Z) :
  valid_binary (S754_finite false m e) = true -> Zpos m < 2 ^ 53.
Proof.
  cbn [SpecFloat.valid_binary]. unfold bounded, canonical_mantissa. rewrite fexp64.
  intros H. apply andb_true_iff in H. destruct H as [H _]. apply Z.eqb_eq in H.
  destruct (digits_bounds m) as [_ Hhi].
  assert (2 ^ Zpos (digits2_pos m) <= 2 ^ 53) by (apply Z.pow_le_mono_r; lia).
  lia.
Qed.

(** A binary64 number that is at most 1, times 100, is at most 100. *)
Lemma SFmul_100_le (my : positive) (ey : Z) :
  valid_binary (S754_finite false my ey) = true ->
  ey < -52 \/ (ey = -52 /\ Zpos my <= 2 ^ 52) ->
  SFmul prec emax (S754_finite false my ey) (S754_finite false 7036874417766400 (-46))
  = S754_zero false
  \/ exists m e,
       SFmul prec emax (S754_finite false my ey) (S754_finite false 7036874417766400 (-46))
       = S754_finite false m e
       /\ (e < -46 \/ (e = -46 /\ Zpos m <= Zpos 7036874417766400)).
Proof.
  intros Hv Hy. apply valid_mantissa_lt in Hv.
  unfold SFmul. cbn [xorb].
  apply binary_round_aux_le; try lia.
  replace (-46 - (ey + -46)) with (- ey) by lia.
  assert (Hpow : Zpos my <= 2 ^ (- ey)).
  { destruct Hy as [Hlt|[-> Hm]]; [|exact Hm].
    assert (2 ^ 53 <= 2 ^ (- ey)) by (apply Z.pow_le_mono_r; lia). lia. }
  rewrite Pos2Z.inj_mul.
  destruct (Z.eq_dec (Zpos my) (2 ^ (- ey))) as [Heq|Hne].
  - right. split; [|reflexivity]. rewrite Heq. lia.
  - left. nia.
Qed.

(** Every stored percentage lies between 0 and 100. *)
Lemma persen_bounds (count total : Z) :
  0 <= count <= total -> 0 < total < 2 ^ 53 ->
  (0 <=? persen count total)%float = true
  /\ (persen count total <=? 100)%float = true.
Proof.
  intros Hc Ht. unfold persen, float_of_Z.
  rewrite !leb_spec, mul_spec. unfold SF64mul.
  change (Prim2SF 100) with (S754_finite false 7036874417766400 (-46)).
  change (Prim2SF 0) with (S754_zero false).
  assert (Hy : Prim2SF (of_uint63 (Uint63.of_Z count) / of_uint63 (Uint63.of_Z total))
               = S754_zero false
               \/ exists m e,
                   Prim2SF (of_uint63 (Uint63.of_Z count) / of_uint63 (Uint63.of_Z total))
                   = S754_finite false m e
                   /\ (e < -52 \/ (e = -52 /\ Zpos m <= 2 ^ 52))).
  { rewrite div_spec.
    destruct (float_of_Z_exact total Ht) as (m2 & e2 & -> & Hd2 & He2 & Hm2).
    destruct (Z.eq_dec count 0) as [->|Hnz].
    - left. reflexivity.
    - destruct (float_of_Z_exact count ltac:(lia)) as (m1 & e1 & -> & Hd1 & He1 & Hm1).
      destruct (digits_bounds m1) as [Hlo1 Hhi1]. destruct (digits_bounds m2) as [Hlo2 Hhi2].
      rewrite Hd1 in *. rewrite Hd2 in *.
      assert (He12 : e1 <= e2).
      { destruct (Z_le_gt_dec e1 e2) as [|Hgt]; [assumption|exfalso].
        assert (H1 : 2 ^ (- e2) = 2 ^ (e1 - e2) * 2 ^ (- e1))
          by (rewrite <- Z.pow_add_r by lia; f_equal; lia).
        assert (H2 : 2 ^ 1 <= 2 ^ (e1 - e2)) by (apply Z.pow_le_mono_r; lia).
        pose proof (pow2_pos (- e1) ltac:(lia)).
        change (2 ^ (53 - 1)) with 4503599627370496 in *.
        change (2 ^ 53) with 9007199254740992 in *.
        change (2 ^ 1) with 2 in *. nia. }
      apply SFdiv_le_one; try lia.
      assert (H1 : 2 ^ (- e1) = 2 ^ (e2 - e1) * 2 ^ (- e2))
        by (rewrite <- Z.pow_add_r by lia; f_equal; lia).
      pose proof (pow2_pos (- e2) ltac:(lia)).
      pose proof (pow2_pos (e2 - e1) ltac:(lia)).
      rewrite Hm1, Hm2, H1. nia. }
  pose proof (Prim2SF_valid (of_uint63 (Uint63.of_Z count) / of_uint63 (Uint63.of_Z total))) as Hv.
  destruct Hy as [->|(m & e & Hy & Hb)].
  - split; reflexivity.
  - rewrite Hy in *.
    destruct (SFmul_100_le m e Hv Hb) as [->|(m' & e' & -> & Hb')].
    + split; reflexivity.
    + split; [reflexivity|]. now apply SFleb_finite_le.
Qed.

Local Close Scope Z_scope.

(** ** Sentiment percentages *)

Lemma hitung_kategori_nol (row : list cell) :
  Forall (fun c => in_skala c = false) row -> hitung_kategori row = (0, 0, 0)%Z.
Proof.
  intros H.
  assert (Hz : banyak in_skala row = 0%Z).
  { unfold banyak. induction H as [|c row Hc H IH]; [reflexivity|].
    simpl. now rewrite Hc. }
  rewrite <- count_eq_six in Hz. unfold hitung_kategori.
  pose proof (count_eq_nonneg row "SS"). pose proof (count_eq_nonneg row "S").
  pose proof (count_eq_nonneg row "CS"). pose proof (count_eq_nonneg row "CTS").
  pose proof (count_eq_nonneg row "TS"). pose proof (count_eq_nonneg row "STS").
  replace (count_eq row "SS") with 0%Z by lia.
  replace (count_eq row "S") with 0%Z by lia.
  replace (count_eq row "CS") with 0%Z by lia.
  replace (count_eq row "CTS") with 0%Z by lia.
  replace (count_eq row "TS") with 0%Z by lia.
  replace (count_eq row "STS") with 0%Z by lia.
  reflexivity.
Qed.

(** C4: every row of [cat_per_q] divides its three buckets by their sum,
    a sum of 0 being replaced by 1 first, and multiplies by 100; a question
    without any Scale cell therefore gets Total 1 and the percentages
    (0, 0, 0), and nothing fails; so it is for a column that holds a free
    text, a blank and a number. *)
Theorem cat_per_q_zero_guard (df_display : DataFrame cell) (q : string) (row : list cell) :
  cat_per_q df_display
  = map (fun c => cat_row_of (fst c) (hitung_kategori (snd c))) df_display
  /\ (let r := cat_row_of q (hitung_kategori row) in
      let s := (Positif r + Netral r + Negatif r)%Z in
      Total r = (if (s =? 0)%Z then 1 else s)%Z
      /\ Pct_Positif r = (float_of_Z (Positif r) / float_of_Z (Total r) * 100)%float
      /\ Pct_Netral r = (float_of_Z (Netral r) / float_of_Z (Total r) * 100)%float
      /\ Pct_Negatif r = (float_of_Z (Negatif r) / float_of_Z (Total r) * 100)%float
      /\ (Forall (fun c => in_skala c = false) row ->
          Total r = 1%Z
          /\ Pct_Positif r = 0%float
          /\ Pct_Netral r = 0%float
          /\ Pct_Negatif r = 0%float))
  /\ map (fun r => (Total r, Pct_Positif r, Pct_Netral r, Pct_Negatif r))
       (cat_per_q [("Q1", [Str "bagus"; blank; Num 3])])
     = [(1%Z, 0%float, 0%float, 0%float)].
Proof.
  split; [|split; [|reflexivity]].
  - unfold cat_per_q, apply_columns. rewrite map_map. reflexivity.
  - cbv zeta. split; [|split; [|split; [|split]]].
    + destruct (hitung_kategori row) as [[pos neu] neg]. reflexivity.
    + destruct (hitung_kategori row) as [[pos neu] neg]. reflexivity.
    + destruct (hitung_kategori row) as [[pos neu] neg]. reflexivity.
    + destruct (hitung_kategori row) as [[pos neu] neg]. reflexivity.
    + intros H. rewrite (hitung_kategori_nol row H).
      repeat split; vm_compute; reflexivity.
Qed.

Lemma banyak_in_skala_pos (row : list cell) :
  Exists (fun c => in_skala c = true) row -> (1 <= banyak in_skala row)%Z.
Proof.
  intros H. induction H as [c row Hc|c row H IH].
  - rewrite banyak_cons, Hc. pose proof (banyak_le_length in_skala row). lia.
  - rewrite banyak_cons. destruct (in_skala c); lia.
Qed.

Lemma persen_exact_sum (a b c : Z) :
  (1 <= a + b + c)%Z ->
  (persen_exact a (a + b + c) + persen_exact b (a + b + c)
   + persen_exact c (a + b + c) == 100)%Q.
Proof.
  intros H. unfold persen_exact. rewrite !inject_Z_plus. field.
  rewrite <- !inject_Z_plus. unfold Qeq. simpl. lia.
Qed.

Lemma persen_exact_bounds (a t : Z) :
  (0 <= a <= t)%Z -> (1 <= t)%Z ->
  (0 <= persen_exact a t)%Q /\ (persen_exact a t <= 100)%Q.
Proof.
  intros Ha Ht. unfold persen_exact.
  destruct t as [|p|p]; try lia.
  unfold Qle, Qmult, Qdiv, Qinv, inject_Z. simpl. lia.
Qed.

(** ** Loader *)

(** On a column that holds the number 5 between two codes the loader keeps
    the 5, whatever the text parser: the raw cell is not a Scale code, and
    its numeric cell is not missing. *)
Lemma muat_data_number_kept :
  (forall parse_float,
      numerik parse_float [("Q1", [Str "SS"; Num 5; Str "S"])]
      = [("Q1", [6; 5; 5]%float)])
  /\ in_skala (Num 5) = false
  /\ is_nan 5 = false.
Proof.
  repeat split.
Qed.

(** C1, as the code has it: a successful load returns the raw frame without
    the Partisipan column and, cell by cell, its numeric image: a Scale code
    becomes its score (SS=6, S=5, CS=4, CTS=3, TS=2, STS=1), a number stays
    that number, a blank cell is missing (NaN), and a text that is not a
    code becomes what pandas' parser reads in it, missing (NaN) when it
    reads no number. *)
Theorem muat_data_numeric_cells :
  forall (parse_float : string -> option float) (path : string) (df0 : DataFrame cell),
    let df := drop_column "Partisipan" df0 in
    muat_data parse_float {| DATA_FILE := path; path_exists := true; read_excel := Sheet df0 |}
      = ([], Returned (df, applymap (numeric_cell parse_float) df))
    /\ numeric_cell parse_float (Str "SS") = 6%float
    /\ numeric_cell parse_float (Str "S") = 5%float
    /\ numeric_cell parse_float (Str "CS") = 4%float
    /\ numeric_cell parse_float (Str "CTS") = 3%float
    /\ numeric_cell parse_float (Str "TS") = 2%float
    /\ numeric_cell parse_float (Str "STS") = 1%float
    /\ (forall x, numeric_cell parse_float (Num x) = x)
    /\ numeric_cell parse_float blank = nan
    /\ (forall s, in_skala (Str s) = false ->
          numeric_cell parse_float (Str s)
          = match parse_float s with Some x => x | None => nan end).
Proof.
  intros p path df0 df. repeat split; try reflexivity.
  - unfold muat_data, numerik, applymap. simpl. unfold ret. do 3 f_equal.
    rewrite map_map. apply map_ext. intros [q col]. simpl. now rewrite map_map.
  - intros s Hs. unfold numeric_cell, replace.
    unfold in_skala in Hs. simpl in Hs.
    repeat (apply orb_false_elim in Hs; destruct Hs as [? Hs]).
    simpl in *.
    repeat match goal with
           | H : String.eqb ?a ?b = false |- _ =>
               rewrite String.eqb_sym in H; rewrite H; clear H
           end.
    reflexivity.
Qed.

(** ** Mean score per question *)

Lemma dropna_idem (col : list float) : dropna (dropna col) = dropna col.
Proof.
  unfold dropna. induction col as [|x col IH]; [reflexivity|].
  simpl. destruct (notna x) eqn:E; simpl; [rewrite E; f_equal|]; exact IH.
Qed.

Lemma dropna_all_na (col : list float) :
  Forall (fun x => is_nan x = true) col -> dropna col = [].
Proof.
  intros H. unfold dropna, notna. induction H as [|x col Hx H IH]; [reflexivity|].
  simpl. now rewrite Hx.
Qed.

(** ** Order of binary64 numbers

    The comparisons of primitive floats are specified on [spec_float] by
    [SFcompare]; ranking the values that are not NaN in a lexicographic
    triple turns its case analysis into linear arithmetic. *)

Lemma SFcompare_rank (a b : spec_float) :
  a <> S754_nan -> b <> S754_nan ->
  exists c, SFcompare a b = Some c
            /\ (c = Lt <-> lex_lt (rank a) (rank b))
            /\ (c = Gt <-> lex_lt (rank b) (rank a))
            /\ (c = Eq <-> rank a = rank b).
Proof.
  intros Ha Hb.
  destruct a as [sa|sa| |sa ma ea], b as [sb|sb| |sb mb eb]; try congruence;
    try destruct sa; try destruct sb; cbn [SFcompare rank lex_lt];
    try (eexists; split; [reflexivity|];
         repeat split; intros; try discriminate; try lia; congruence).
  - destruct (Z.compare_spec ea eb) as [E|E|E];
      [destruct (Pos.compare_spec ma mb) as [M|M|M];
       change (Pos.compare_cont Eq ma mb) with (Pos.compare ma mb)|..];
      try (rewrite (proj2 (Pos.compare_eq_iff ma mb) M));
      try (rewrite (proj2 (Pos.compare_lt_iff ma mb) M));
      try (rewrite (proj2 (Pos.compare_gt_iff ma mb) M));
      eexists; (split; [reflexivity|]); cbn [CompOpp];
      repeat split; intros; try discriminate; try lia;
      try (exfalso; match goal with H : (_, _, _) = (_, _, _) |- _ => inversion H; lia end);
      try (f_equal; [f_equal|]; lia).
  - destruct (Z.compare_spec ea eb) as [E|E|E];
      [destruct (Pos.compare_spec ma mb) as [M|M|M];
       change (Pos.compare_cont Eq ma mb) with (Pos.compare ma mb)|..];
      try (rewrite (proj2 (Pos.compare_eq_iff ma mb) M));
      try (rewrite (proj2 (Pos.compare_lt_iff ma mb) M));
      try (rewrite (proj2 (Pos.compare_gt_iff ma mb) M));
      eexists; (split; [reflexivity|]); cbn [CompOpp];
      repeat split; intros; try discriminate; try lia;
      try (exfalso; match goal with H : (_, _, _) = (_, _, _) |- _ => inversion H; lia end);
      try (f_equal; [f_equal|]; lia).
Qed.

Lemma lex_lt_trans (a b c : Z * Z * Z) : lex_lt a b -> lex_lt b c -> lex_lt a c.
Proof.
  destruct a as [[a1 a2] a3], b as [[b1 b2] b3], c as [[c1 c2] c3].
  unfold lex_lt. lia.
Qed.

Lemma lex_nlt_lt_trans (a b c : Z * Z * Z) : ~ lex_lt b a -> lex_lt b c -> lex_lt a c.
Proof.
  destruct a as [[a1 a2] a3], b as [[b1 b2] b3], c as [[c1 c2] c3].
  unfold lex_lt. lia.
Qed.

Lemma lex_nlt_cases (a b : Z * Z * Z) : ~ lex_lt b a -> lex_lt a b \/ a = b.
Proof.
  destruct a as [[a1 a2] a3], b as [[b1 b2] b3]. unfold lex_lt. intros H.
  destruct (Z.eq_dec a1 b1) as [->|], (Z.eq_dec a2 b2) as [->|], (Z.eq_dec a3 b3) as [->|];
    auto; left; lia.
Qed.

Lemma rk_opp_lt (x y : float) : lex_lt (rk_opp x) (rk_opp y) <-> lex_lt (rk y) (rk x).
Proof.
  unfold rk_opp. destruct (rk x) as [[a1 a2] a3], (rk y) as [[b1 b2] b3].
  unfold lex_lt. lia.
Qed.

Lemma is_nan_false_spec (x : float) : is_nan x = false -> Prim2SF x <> S754_nan.
Proof.
  unfold is_nan. rewrite eqb_spec. intros H E. rewrite E in H. discriminate H.
Qed.

Lemma ltb_rk (x y : float) :
  is_nan x = false -> is_nan y = false ->
  ((x <? y)%float = true <-> lex_lt (rk x) (rk y)).
Proof.
  intros Hx Hy. rewrite ltb_spec. unfold SFltb, rk.
  destruct (SFcompare_rank _ _ (is_nan_false_spec x Hx) (is_nan_false_spec y Hy))
    as (c & -> & HLt & _ & _).
  rewrite <- HLt. destruct c; split; congruence.
Qed.

Lemma leb_rk (x y : float) :
  is_nan x = false -> is_nan y = false ->
  ((x <=? y)%float = true <-> ~ lex_lt (rk y) (rk x)).
Proof.
  intros Hx Hy. rewrite leb_spec. unfold SFleb, rk.
  destruct (SFcompare_rank _ _ (is_nan_false_spec x Hx) (is_nan_false_spec y Hy))
    as (c & -> & _ & HGt & _).
  rewrite <- HGt. destruct c; split; congruence.
Qed.

(** ** The search loops of argmax and argmin *)

Section ArgLoop.

(** [worse mp v]: the candidate [v] replaces the current best [mp]. *)
Variable worse : float -> float -> bool.
Variable key : float -> Z * Z * Z.
Hypothesis worse_key :
  forall x y, is_nan x = false -> is_nan y = false ->
              (worse x y = true <-> lex_lt (key x) (key y)).

Lemma arg_loop_spec (l : list float) :
  forall (before mid : list float) (mp : float),
    is_nan mp = false ->
    Forall (fun x => is_nan x = false) l ->
    Forall (fun x => lex_lt (key x) (key mp)) before ->
    Forall (fun x => ~ lex_lt (key mp) (key x)) mid ->
    exists before' m' after',
      before ++ mp :: mid ++ l = before' ++ m' :: after'
      /\ arg_loop worse mp (length before) (length before + 1 + length mid) l = length before'
      /\ best_of worse mp l = m'
      /\ is_nan m' = false
      /\ Forall (fun x => lex_lt (key x) (key m')) before'
      /\ Forall (fun x => ~ lex_lt (key m') (key x)) after'.
Proof.
  induction l as [|v l IH]; intros before mid mp Hmp Hl Hb Hm.
  - exists before, mp, mid. rewrite app_nil_r. repeat split; assumption.
  - inversion Hl as [|? ? Hv Hl']; subst. cbn [arg_loop best_of fold_left].
    destruct (worse mp v) eqn:E.
    + apply (worse_key mp v Hmp Hv) in E.
      destruct (IH (before ++ mp :: mid) [] v Hv Hl') as (b' & m' & a' & Heq & Hi & Hbest & Hrest).
      * apply Forall_app. split.
        -- eapply Forall_impl; [|exact Hb]. intros x Hx. cbv beta in Hx.
           eapply lex_lt_trans; eassumption.
        -- constructor; [exact E|].
           eapply Forall_impl; [|exact Hm]. intros x Hx. cbv beta in Hx.
           eapply lex_nlt_lt_trans; eassumption.
      * constructor.
      * exists b', m', a'. repeat split; try apply Hrest.
        -- rewrite <- Heq, <- app_assoc. reflexivity.
        -- rewrite <- Hi. f_equal; rewrite length_app; simpl; lia.
        -- exact Hbest.
    + assert (Hn : ~ lex_lt (key mp) (key v)).
      { intros H. apply (worse_key mp v Hmp Hv) in H. congruence. }
      destruct (IH before (mid ++ [v]) mp Hmp Hl' Hb) as (b' & m' & a' & Heq & Hi & Hbest & Hrest).
      * apply Forall_app. split; [exact Hm|]. constructor; [exact Hn|constructor].
      * exists b', m', a'. repeat split; try apply Hrest.
        -- rewrite <- Heq, <- app_assoc. reflexivity.
        -- rewrite <- Hi. f_equal. rewrite length_app. simpl. lia.
        -- exact Hbest.
Qed.

End ArgLoop.

(** On an array without NaN, [argmax] is the position of the first largest
    element and [np_max] is that element. *)
Lemma argmax_first (L : list float) :
  L <> [] -> Forall (fun x => is_nan x = false) L ->
  exists before m after,
    L = before ++ m :: after
    /\ argmax L = length before
    /\ np_max L = m
    /\ is_nan m = false
    /\ Forall (fun x => (x <? m)%float = true) before
    /\ Forall (fun x => (x <=? m)%float = true) after.
Proof.
  intros Hne HL. destruct L as [|v l]; [congruence|].
  inversion HL as [|? ? Hv Hl]; subst.
  destruct (arg_loop_spec (fun mp v => (mp <? v)%float) rk ltb_rk l [] [] v Hv Hl)
    as (b & m & a & Heq & Hi & Hbest & Hm & Hb & Ha); try constructor.
  simpl in Heq, Hi.
  assert (Hall : Forall (fun x => is_nan x = false) (b ++ m :: a)) by (rewrite <- Heq; exact HL).
  apply Forall_app in Hall. destruct Hall as [Hnb Hna]. apply Forall_cons_iff in Hna. destruct Hna as [_ Hna'].
  exists b, m, a. repeat split.
  - exact Heq.
  - exact Hi.
  - exact Hbest.
  - exact Hm.
  - rewrite Forall_forall in *. intros x Hx. apply ltb_rk; auto.
  - rewrite Forall_forall in *. intros x Hx. apply leb_rk; auto.
Qed.

Lemma argmin_first (L : list float) :
  L <> [] -> Forall (fun x => is_nan x = false) L ->
  exists before m after,
    L = before ++ m :: after
    /\ argmin L = length before
    /\ np_min L = m
    /\ is_nan m = false
    /\ Forall (fun x => (m <? x)%float = true) before
    /\ Forall (fun x => (m <=? x)%float = true) after.
Proof.
  intros Hne HL. destruct L as [|v l]; [congruence|].
  inversion HL as [|? ? Hv Hl]; subst.
  assert (Hkey : forall x y, is_nan x = false -> is_nan y = false ->
            ((y <? x)%float = true <-> lex_lt (rk_opp x) (rk_opp y))).
  { intros x y Hx Hy. rewrite rk_opp_lt. now apply ltb_rk. }
  destruct (arg_loop_spec (fun mp v => (v <? mp)%float) rk_opp Hkey l [] [] v Hv Hl)
    as (b & m & a & Heq & Hi & Hbest & Hm & Hb & Ha); try constructor.
  simpl in Heq, Hi.
  assert (Hall : Forall (fun x => is_nan x = false) (b ++ m :: a)) by (rewrite <- Heq; exact HL).
  apply Forall_app in Hall. destruct Hall as [Hnb Hna]. apply Forall_cons_iff in Hna. destruct Hna as [_ Hna'].
  exists b, m, a. repeat split.
  - exact Heq.
  - exact Hi.
  - exact Hbest.
  - exact Hm.
  - rewrite Forall_forall in *. intros x Hx. apply ltb_rk; auto.
    apply rk_opp_lt. auto.
  - rewrite Forall_forall in *. intros x Hx. apply leb_rk; auto.
    rewrite <- rk_opp_lt. auto.
Qed.

(** ** Best and worst question *)

Lemma leb_neg_infinity (x : float) :
  (x <=? neg_infinity)%float = true -> is_infinity x = true.
Proof.
  unfold is_infinity. rewrite leb_spec, eqb_spec, abs_spec.
  change (Prim2SF neg_infinity) with (S754_infinity true).
  change (Prim2SF infinity) with (S754_infinity false).
  destruct (Prim2SF x) as [s|s| |s m e]; try destruct s; cbv; congruence.
Qed.

Lemma leb_infinity (x : float) :
  (infinity <=? x)%float = true -> is_infinity x = true.
Proof.
  unfold is_infinity. rewrite leb_spec, eqb_spec, abs_spec.
  change (Prim2SF infinity) with (S754_infinity false).
  destruct (Prim2SF x) as [s|s| |s m e]; try destruct s; cbv; congruence.
Qed.

Lemma ltb_leb (x y : float) : (x <? y)%float = true -> (x <=? y)%float = true.
Proof.
  rewrite ltb_spec, leb_spec. unfold SFltb, SFleb.
  destruct (SFcompare (Prim2SF x) (Prim2SF y)) as [[]|]; congruence.
Qed.

Lemma fillna_notna (d x : float) : is_nan d = false -> is_nan (fillna d x) = false.
Proof.
  intros Hd. unfold fillna. destruct (is_nan x) eqn:E; assumption.
Qed.

Lemma fillna_id (d x : float) : is_nan x = false -> fillna d x = x.
Proof. intros H. unfold fillna. now rewrite H. Qed.

Lemma all_na_true (l : list float) :
  Forall (fun x => is_nan x = true) l -> all_na l = true.
Proof.
  intros H. unfold all_na. apply forallb_forall. now apply Forall_forall.
Qed.

Lemma all_na_false (l : list float) :
  Exists (fun x => is_nan x = false) l -> all_na l = false.
Proof.
  intros H. unfold all_na. induction H as [x l Hx|x l H IH]; simpl.
  - now rewrite Hx.
  - rewrite IH. apply andb_false_r.
Qed.

Lemma fill_split (d : float) (s : Series float) (b a : list float) (m' : float) :
  map (fillna d) (map snd s) = b ++ m' :: a ->
  exists sb q m sa,
    s = sb ++ (q, m) :: sa
    /\ length sb = length b
    /\ fillna d m = m'
    /\ b = map (fillna d) (map snd sb)
    /\ a = map (fillna d) (map snd sa).
Proof.
  intros H. rewrite map_map in H.
  apply map_eq_app in H. destruct H as (sb & rest & -> & Hb & Hr).
  apply map_eq_cons in Hr. destruct Hr as ([q m] & sa & -> & Hm & Ha).
  exists sb, q, m, sa. rewrite !map_map. repeat split; auto.
  rewrite <- Hb. now rewrite length_map.
Qed.

Lemma nth_error_fst_middle (sb sa : Series float) (q : string) (m : float) :
  nth_error (map fst (sb ++ (q, m) :: sa)) (length sb) = Some q.
Proof.
  rewrite map_app. rewrite nth_error_app2 by (rewrite length_map; lia).
  rewrite length_map, Nat.sub_diag. reflexivity.
Qed.

Lemma is_nan_spec (x : float) :
  is_nan x = match Prim2SF x with S754_nan => true | _ => false end.
Proof.
  unfold is_nan. rewrite eqb_spec. unfold SFeqb, SFcompare.
  destruct (Prim2SF x) as [s|s| |s m e]; try destruct s; try reflexivity;
    rewrite Z.compare_refl.
  - now rewrite Pos.compare_cont_refl.
  - change (Pos.compare_cont Eq m m) with (Pos.compare m m).
    now rewrite Pos.compare_refl.
Qed.

Lemma ltb_not_nan (x y : float) :
  (x <? y)%float = true -> is_nan x = false /\ is_nan y = false.
Proof.
  rewrite ltb_spec, !is_nan_spec. unfold SFltb, SFcompare.
  destruct (Prim2SF x) as [sx|sx| |sx mx ex], (Prim2SF y) as [sy|sy| |sy my ey];
    try discriminate; auto.
Qed.

Lemma ltb_leb_false (x y : float) :
  (x <? y)%float = true -> (y <=? x)%float = true -> False.
Proof.
  intros Hlt Hle. destruct (ltb_not_nan _ _ Hlt) as [Hx Hy].
  apply (ltb_rk x y Hx Hy) in Hlt. apply (leb_rk y x Hy Hx) in Hle. auto.
Qed.

(** A number that is not infinite is strictly between the infinities. *)
Lemma between_infinities (x : float) :
  is_nan x = false -> is_infinity x = false ->
  (neg_infinity <? x)%float = true /\ (x <? infinity)%float = true.
Proof.
  rewrite is_nan_spec. unfold is_infinity. rewrite !ltb_spec, eqb_spec, abs_spec.
  change (Prim2SF neg_infinity) with (S754_infinity true).
  change (Prim2SF infinity) with (S754_infinity false).
  destruct (Prim2SF x) as [s|s| |s m e]; try destruct s; cbv; auto; congruence.
Qed.

Lemma idxmax_nonempty (lib : pandas) (s : Series float) :
  s <> [] ->
  idxmax lib s
  = match nanargmax (map snd s) with
    | Some i => Returned (nth_error (map fst s) i)
    | None => if idx_all_na_raises lib then Raised "ValueError" else Returned None
    end.
Proof. destruct s; [congruence|reflexivity]. Qed.

Lemma idxmin_nonempty (lib : pandas) (s : Series float) :
  s <> [] ->
  idxmin lib s
  = match nanargmin (map snd s) with
    | Some i => Returned (nth_error (map fst s) i)
    | None => if idx_all_na_raises lib then Raised "ValueError" else Returned None
    end.
Proof. destruct s; [congruence|reflexivity]. Qed.

(** The question [idxmax] picks, when some mean is a number above minus
    infinity: it splits the series in the questions before it, whose means
    are all strictly smaller (or NaN), and those after it, whose means are
    not larger (or NaN). *)
Lemma idxmax_first (lib : pandas) (s : Series float) :
  Exists (fun e => (neg_infinity <? snd e)%float = true) s ->
  exists before q m after,
    s = before ++ (q, m) :: after
    /\ idxmax lib s = Returned (Some q)
    /\ nanmax (map snd s) = m
    /\ is_nan m = false
    /\ Forall (fun e => is_nan (snd e) = true \/ (snd e <? m)%float = true) before
    /\ Forall (fun e => is_nan (snd e) = true \/ (snd e <=? m)%float = true) after.
Proof.
  intros Hbig.
  assert (Hex : Exists (fun e => is_nan (snd e) = false) s).
  { revert Hbig. apply Exists_impl. intros e He. now apply ltb_not_nan in He. }
  assert (Hs0 : s <> []) by (destruct s; [inversion Hex|discriminate]).
  assert (Hna : all_na (map snd s) = false).
  { apply all_na_false. apply Exists_exists in Hex. destruct Hex as (e & He & Hn).
    apply Exists_exists. exists (snd e). split; [now apply in_map|exact Hn]. }
  set (f := map (fillna neg_infinity) (map snd s)).
  assert (Hf : Forall (fun x => is_nan x = false) f).
  { apply Forall_forall. intros x Hx. unfold f in Hx. rewrite map_map in Hx.
    apply in_map_iff in Hx. destruct Hx as (e & <- & _). now apply fillna_notna. }
  assert (Hne : f <> []).
  { unfold f. destruct s; [inversion Hex|discriminate]. }
  destruct (argmax_first f Hne Hf) as (b & m' & a & Heq & Hi & Hmax & Hm' & Hb & Ha).
  destruct (fill_split _ _ _ _ _ Heq) as (sb & q & m & sa & Hs & Hlen & Hm & Hbs & Has).
  assert (Hnan : is_nan m = false).
  { destruct (is_nan m) eqn:En; [exfalso|reflexivity].
    assert (Hinf : m' = neg_infinity) by (rewrite <- Hm; unfold fillna; now rewrite En).
    apply Exists_exists in Hbig. destruct Hbig as ([qk mk] & Hin & Hkbig).
    simpl in Hkbig. destruct (ltb_not_nan _ _ Hkbig) as [_ Hk].
    assert (Hle : (mk <=? neg_infinity)%float = true).
    { rewrite Hs in Hin. apply in_app_or in Hin. destruct Hin as [Hin|[Hin|Hin]].
      - apply ltb_leb. rewrite <- Hinf. rewrite Forall_forall in Hb.
        rewrite <- (fillna_id neg_infinity mk Hk). apply Hb. rewrite Hbs, map_map.
        apply (in_map (fun e => fillna neg_infinity (snd e)) _ _ Hin).
      - inversion Hin; subst. congruence.
      - rewrite <- Hinf. rewrite Forall_forall in Ha.
        rewrite <- (fillna_id neg_infinity mk Hk). apply Ha. rewrite Has, map_map.
        apply (in_map (fun e => fillna neg_infinity (snd e)) _ _ Hin). }
    exact (ltb_leb_false _ _ Hkbig Hle). }
  rewrite (fillna_id _ _ Hnan) in Hm. destruct Hm.
  exists sb, q, m, sa. repeat split.
  - exact Hs.
  - rewrite (idxmax_nonempty lib s Hs0). unfold nanargmax.
    rewrite Hna. fold f. rewrite Hi, <- Hlen, Hs.
    f_equal. apply nth_error_fst_middle.
  - unfold nanmax. rewrite Hna. exact Hmax.
  - exact Hnan.
  - apply Forall_forall. intros e He. destruct (is_nan (snd e)) eqn:En; [now left|right].
    rewrite <- (fillna_id neg_infinity _ En). rewrite Forall_forall in Hb. apply Hb.
    rewrite Hbs, map_map. apply (in_map (fun e => fillna neg_infinity (snd e)) _ _ He).
  - apply Forall_forall. intros e He. destruct (is_nan (snd e)) eqn:En; [now left|right].
    rewrite <- (fillna_id neg_infinity _ En). rewrite Forall_forall in Ha. apply Ha.
    rewrite Has, map_map. apply (in_map (fun e => fillna neg_infinity (snd e)) _ _ He).
Qed.

Lemma idxmin_first (lib : pandas) (s : Series float) :
  Exists (fun e => (snd e <? infinity)%float = true) s ->
  exists before q m after,
    s = before ++ (q, m) :: after
    /\ idxmin lib s = Returned (Some q)
    /\ nanmin (map snd s) = m
    /\ is_nan m = false
    /\ Forall (fun e => is_nan (snd e) = true \/ (m <? snd e)%float = true) before
    /\ Forall (fun e => is_nan (snd e) = true \/ (m <=? snd e)%float = true) after.
Proof.
  intros Hbig.
  assert (Hex : Exists (fun e => is_nan (snd e) = false) s).
  { revert Hbig. apply Exists_impl. intros e He. now apply ltb_not_nan in He. }
  assert (Hs0 : s <> []) by (destruct s; [inversion Hex|discriminate]).
  assert (Hna : all_na (map snd s) = false).
  { apply all_na_false. apply Exists_exists in Hex. destruct Hex as (e & He & Hn).
    apply Exists_exists. exists (snd e). split; [now apply in_map|exact Hn]. }
  set (f := map (fillna infinity) (map snd s)).
  assert (Hf : Forall (fun x => is_nan x = false) f).
  { apply Forall_forall. intros x Hx. unfold f in Hx. rewrite map_map in Hx.
    apply in_map_iff in Hx. destruct Hx as (e & <- & _). now apply fillna_notna. }
  assert (Hne : f <> []).
  { unfold f. destruct s; [inversion Hex|discriminate]. }
  destruct (argmin_first f Hne Hf) as (b & m' & a & Heq & Hi & Hmin & Hm' & Hb & Ha).
  destruct (fill_split _ _ _ _ _ Heq) as (sb & q & m & sa & Hs & Hlen & Hm & Hbs & Has).
  assert (Hnan : is_nan m = false).
  { destruct (is_nan m) eqn:En; [exfalso|reflexivity].
    assert (Hinf : m' = infinity) by (rewrite <- Hm; unfold fillna; now rewrite En).
    apply Exists_exists in Hbig. destruct Hbig as ([qk mk] & Hin & Hkbig).
    simpl in Hkbig. destruct (ltb_not_nan _ _ Hkbig) as [Hk _].
    assert (Hle : (infinity <=? mk)%float = true).
    { rewrite Hs in Hin. apply in_app_or in Hin. destruct Hin as [Hin|[Hin|Hin]].
      - apply ltb_leb. rewrite <- Hinf. rewrite Forall_forall in Hb.
        rewrite <- (fillna_id infinity mk Hk). apply Hb. rewrite Hbs, map_map.
        apply (in_map (fun e => fillna infinity (snd e)) _ _ Hin).
      - inversion Hin; subst. congruence.
      - rewrite <- Hinf. rewrite Forall_forall in Ha.
        rewrite <- (fillna_id infinity mk Hk). apply Ha. rewrite Has, map_map.
        apply (in_map (fun e => fillna infinity (snd e)) _ _ Hin). }
    exact (ltb_leb_false _ _ Hkbig Hle). }
  rewrite (fillna_id _ _ Hnan) in Hm. destruct Hm.
  exists sb, q, m, sa. repeat split.
  - exact Hs.
  - rewrite (idxmin_nonempty lib s Hs0). unfold nanargmin.
    rewrite Hna. fold f. rewrite Hi, <- Hlen, Hs.
    f_equal. apply nth_error_fst_middle.
  - unfold nanmin. rewrite Hna. exact Hmin.
  - exact Hnan.
  - apply Forall_forall. intros e He. destruct (is_nan (snd e)) eqn:En; [now left|right].
    rewrite <- (fillna_id infinity _ En). rewrite Forall_forall in Hb. apply Hb.
    rewrite Hbs, map_map. apply (in_map (fun e => fillna infinity (snd e)) _ _ He).
  - apply Forall_forall. intros e He. destruct (is_nan (snd e)) eqn:En; [now left|right].
    rewrite <- (fillna_id infinity _ En). rewrite Forall_forall in Ha. apply Ha.
    rewrite Has, map_map. apply (in_map (fun e => fillna infinity (snd e)) _ _ He).
Qed.

(** ** Filter controller *)

Lemma dict_get_In {A} (d : list (string * A)) (k : string) (v : A) :
  dict_get d k = Some v -> In (k, v) d.
Proof.
  induction d as [|[k' v'] d IH]; simpl; [discriminate|].
  destruct (String.eqb k' k) eqn:E.
  - apply String.eqb_eq in E. intros H. inversion H; subst. now left.
  - intros H. right. now apply IH.
Qed.

Lemma dict_get_columns {A} (df : DataFrame A) (k : string) :
  In k (columns df) -> exists col, dict_get df k = Some col.
Proof.
  unfold columns. induction df as [|[k' col'] df IH]; simpl; [tauto|].
  intros [->|H].
  - rewrite String.eqb_refl. eauto.
  - destruct (String.eqb k' k); eauto.
Qed.

Lemma getitem_columns {A} (df : DataFrame A) (keys : list string) :
  incl keys (columns df) ->
  exists sub, getitem df keys = Some sub
              /\ columns sub = keys
              /\ (forall q col, In (q, col) sub -> dict_get df q = Some col).
Proof.
  induction keys as [|k keys IH]; intros H.
  - exists []. simpl. repeat split. intros q col [].
  - destruct (dict_get_columns df k (H k (or_introl eq_refl))) as (col & Hk).
    destruct IH as (sub & Hsub & Hcols & Hin).
    { intros x Hx. apply H. now right. }
    exists ((k, col) :: sub). simpl. rewrite Hk, Hsub. repeat split.
    + unfold columns in *. simpl. now rewrite Hcols.
    + intros q c [Heq|Hq]; [inversion Heq; subst; exact Hk|now apply Hin].
Qed.

(** C7: with a selection that names columns of the frames, the filter
    returns both frames restricted to the selected questions, every selected
    column being the frame's own column (same cells, same row order).  The
    columns come in the order of the selection, which need not be their
    order in the frame.  With an empty selection it returns the two frames
    themselves, so a frame that is not empty stays so. *)
Theorem filter_questions_projects
    (df : DataFrame cell) (df_numeric : DataFrame float)
    (selected_questions : list string) :
  incl selected_questions (columns df) ->
  incl selected_questions (columns df_numeric) ->
  filter_questions df df_numeric [] = Some (df, df_numeric)
  /\ exists df_display df_num_display,
      filter_questions df df_numeric selected_questions = Some (df_display, df_num_display)
      /\ (selected_questions = [] ->
          df_display = df /\ df_num_display = df_numeric
          /\ empty df_display = empty df)
      /\ (selected_questions <> [] ->
          columns df_display = selected_questions
          /\ columns df_num_display = selected_questions
          /\ (forall q col, In (q, col) df_display -> dict_get df q = Some col /\ In (q, col) df)
          /\ (forall q col, In (q, col) df_num_display ->
                dict_get df_numeric q = Some col /\ In (q, col) df_numeric)).
Proof.
  intros Hraw Hnum. split; [reflexivity|].
  destruct selected_questions as [|k keys].
  - exists df, df_numeric. repeat split; congruence.
  - destruct (getitem_columns df (k :: keys) Hraw) as (sub & Hsub & Hc & Hin).
    destruct (getitem_columns df_numeric (k :: keys) Hnum) as (subn & Hsubn & Hcn & Hinn).
    exists sub, subn. unfold filter_questions. rewrite Hsub, Hsubn.
    repeat split; try congruence; auto using dict_get_In.
Qed.

Lemma filter_questions_projects_contoh :
  (incl ["Q2"; "Q1"] (columns contoh)
   /\ incl ["Q2"; "Q1"] (columns (numerik (fun _ => None) contoh)))
  /\ (filter_questions contoh (numerik (fun _ => None) contoh) []
      = Some (contoh, numerik (fun _ => None) contoh)
      /\ exists df_display df_num_display,
          filter_questions contoh (numerik (fun _ => None) contoh) ["Q2"; "Q1"]
          = Some (df_display, df_num_display)
          /\ (["Q2"; "Q1"] = [] ->
              df_display = contoh /\ df_num_display = numerik (fun _ => None) contoh
              /\ empty df_display = empty contoh)
          /\ (["Q2"; "Q1"] <> [] ->
              columns df_display = ["Q2"; "Q1"]
              /\ columns df_num_display = ["Q2"; "Q1"]
              /\ (forall q col, In (q, col) df_display ->
                    dict_get contoh q = Some col /\ In (q, col) contoh)
              /\ (forall q col, In (q, col) df_num_display ->
                    dict_get (numerik (fun _ => None) contoh) q = Some col
                    /\ In (q, col) (numerik (fun _ => None) contoh)))).
Proof.
  assert (H1 : incl ["Q2"; "Q1"] (columns contoh)).
  { intros x [<-|[<-|[]]]; simpl; tauto. }
  assert (H2 : incl ["Q2"; "Q1"] (columns (numerik (fun _ => None) contoh))).
  { intros x [<-|[<-|[]]]; simpl; tauto. }
  split; [split; assumption|].
  exact (filter_questions_projects contoh (numerik (fun _ => None) contoh) ["Q2"; "Q1"] H1 H2).
Defined.

(** A selection made in another order than the frame's reorders the
    columns: the filter does not keep the column order of the frame. *)
Lemma filter_questions_selection_order :
  columns contoh = ["Q1"; "Q2"]
  /\ filter_questions contoh (numerik (fun _ => None) contoh) ["Q2"; "Q1"]
     = Some ([("Q2", [Str "CS"; Str "CS"; Str "STS"]); ("Q1", [Str "SS"; Str "S"; Str "TS"])],
             [("Q2", [4; 4; 1]%float); ("Q1", [6; 5; 2]%float)])
  /\ columns [("Q2", [Str "CS"; Str "CS"; Str "STS"]); ("Q1", [Str "SS"; Str "S"; Str "TS"])]
     <> filter (fun q => existsb (String.eqb q) ["Q2"; "Q1"]) (columns contoh).
Proof.
  split; [reflexivity|]. split; [reflexivity|]. intros H. discriminate H.
Qed.

(** ** Halting before the views *)

Lemma empty_nrows_0 {A} (df : DataFrame A) : nrows df = 0 -> empty df = true.
Proof.
  intros H. unfold empty. rewrite H. apply orb_true_r.
Qed.

(** A sheet that has a header row and nothing below it. *)
Lemma nrows_header_only (names : list string) :
  nrows (drop_column "Partisipan" (map (fun q => (q, @nil cell)) names)) = 0.
Proof.
  unfold drop_column. induction names as [|q names IH]; [reflexivity|].
  simpl. destruct (negb (String.eqb q "Partisipan")); [reflexivity|exact IH].
Qed.

(** C8: when the file loads but the frame has no row (a sheet with a header
    row only, for one), the run shows the empty-data warning, stops, and no
    metric, chart or table is emitted.
    Each loader error stops the run too and shows an error message of its
    own: a missing file stops inside the loader; a missing openpyxl and any
    other failure return empty frames, so their error message is followed
    by the same warning.  The four traces differ, and so do the four
    messages. *)
Theorem app_halts_when_empty
    (parse_float : string -> option float) (format_2f : float -> string)
    (str_of_nat : nat -> string) (lib : pandas)
    (path e : string) (df0 : DataFrame cell) (r : read_excel_result)
    (names selected_questions : list string) (menu : menu_item) :
  let run env := app parse_float format_2f str_of_nat lib env selected_questions menu in
  let found r := {| DATA_FILE := path; path_exists := true; read_excel := r |} in
  let trace_kosong := [st_warning pesan_kosong] in
  (nrows (drop_column "Partisipan" df0) = 0 ->
   run (found (Sheet df0)) = (trace_kosong, Stopped))
  /\ run (found (Sheet (map (fun q => (q, [])) names))) = (trace_kosong, Stopped)
  /\ run {| DATA_FILE := path; path_exists := false; read_excel := r |}
     = ([st_error (pesan_tidak_ditemukan path)], Stopped)
  /\ run (found ImportError)
     = ([st_error pesan_openpyxl; st_warning pesan_kosong], Stopped)
  /\ run (found (Exception e))
     = ([st_error (pesan_gagal e); st_warning pesan_kosong], Stopped)
  /\ ~ In (trace_kosong, @Stopped unit)
         [run {| DATA_FILE := path; path_exists := false; read_excel := r |};
          run (found ImportError); run (found (Exception e))]
  /\ pesan_tidak_ditemukan path <> pesan_openpyxl
  /\ pesan_tidak_ditemukan path <> pesan_gagal e
  /\ pesan_openpyxl <> pesan_gagal e
  /\ pesan_kosong <> pesan_tidak_ditemukan path
  /\ pesan_kosong <> pesan_openpyxl
  /\ pesan_kosong <> pesan_gagal e.
Proof.
  cbv zeta. repeat match goal with |- _ /\ _ => split end;
    try reflexivity;
    try (unfold pesan_tidak_ditemukan, pesan_openpyxl, pesan_gagal, pesan_kosong;
         simpl; intros H; discriminate H).
  - intros H. unfold app, muat_data. simpl.
    rewrite (empty_nrows_0 _ H). reflexivity.
  - unfold app, muat_data. simpl.
    rewrite (empty_nrows_0 _ (nrows_header_only names)). reflexivity.
  - unfold app, muat_data. simpl. intros [H|[H|[H|[]]]]; discriminate H.
Qed.

(** * Further properties of the script *)

(** ** Scale codec *)

Lemma in_skala_cases (c : cell) :
  in_skala c = true ->
  c = Str "SS" \/ c = Str "S" \/ c = Str "CS" \/ c = Str "CTS" \/ c = Str "TS" \/ c = Str "STS".
Proof.
  unfold in_skala, URUTAN_SKALA. destruct c as [s|x]; cbn [existsb cell_eqb orb];
    [|discriminate].
  intros H. repeat (apply orb_true_iff in H; destruct H as [H|H]);
    try discriminate H; apply String.eqb_eq in H; subst; tauto.
Qed.

Lemma dict_get_skor_in_skala (s : string) (v : float) :
  dict_get SKOR_MAP s = Some v -> in_skala (Str s) = true.
Proof.
  unfold SKOR_MAP, in_skala, URUTAN_SKALA. cbn [dict_get existsb cell_eqb].
  rewrite !(String.eqb_sym _ s).
  destruct (String.eqb s "SS"), (String.eqb s "S"), (String.eqb s "CS"),
    (String.eqb s "CTS"), (String.eqb s "TS"), (String.eqb s "STS");
    cbn [orb]; intros H; try reflexivity; discriminate H.
Qed.

(** X1: the views and the loader agree on what a Scale answer is: a cell is
    counted as a Scale code ([v in URUTAN_SKALA]) exactly when
    [df.replace(SKOR_MAP)] turns it into a score; the numeric cell of a
    Scale code is then a whole number from 1 to 6, never missing, and any
    other cell is left as it is by the replacement. *)
Theorem in_skala_iff_skor (parse_float : string -> option float) (c : cell) :
  (in_skala c = true <->
   exists s v, c = Str s /\ dict_get SKOR_MAP s = Some v /\ replace SKOR_MAP c = Num v)
  /\ (in_skala c = true ->
      exists z, (1 <= z <= 6)%Z
                /\ numeric_cell parse_float c = float_of_Z z
                /\ is_nan (numeric_cell parse_float c) = false)
  /\ (in_skala c = false -> replace SKOR_MAP c = c).
Proof.
  split; [split|split].
  - intros H. apply in_skala_cases in H.
    destruct H as [-> | [-> | [-> | [-> | [-> | ->]]]]]; eexists _, _; repeat split; reflexivity.
  - intros (s & v & -> & H & _). exact (dict_get_skor_in_skala s v H).
  - intros H. apply in_skala_cases in H.
    destruct H as [-> | [-> | [-> | [-> | [-> | ->]]]]];
      [exists 6%Z|exists 5%Z|exists 4%Z|exists 3%Z|exists 2%Z|exists 1%Z];
      repeat split; lia.
  - intros H. destruct c as [s|x]; [|reflexivity].
    unfold replace. destruct (dict_get SKOR_MAP s) as [v|] eqn:E; [|reflexivity].
    rewrite (dict_get_skor_in_skala s v E) in H. discriminate H.
Qed.

(** ** Loader and filter *)

Lemma numerik_applymap (parse_float : string -> option float) (df : DataFrame cell) :
  numerik parse_float df = applymap (numeric_cell parse_float) df.
Proof.
  unfold numerik, applymap. rewrite map_map. apply map_ext.
  intros [q col]. simpl. now rewrite map_map.
Qed.

Lemma shape_applymap {A B} (f : A -> B) (df : DataFrame A) :
  shape (applymap f df) = shape df.
Proof.
  unfold shape, applymap. rewrite map_map. apply map_ext.
  intros [q col]. simpl. now rewrite length_map.
Qed.

Lemma columns_shape {A} (df : DataFrame A) : columns df = map fst (shape df).
Proof. unfold columns, shape. rewrite map_map. reflexivity. Qed.

Lemma nrows_shape {A} (df : DataFrame A) :
  nrows df = match shape df with [] => 0 | (_, n) :: _ => n end.
Proof. destruct df as [|[q col] df]; reflexivity. Qed.

Lemma empty_shape {A B} (df : DataFrame A) (df' : DataFrame B) :
  shape df' = shape df -> empty df' = empty df.
Proof.
  intros H. unfold empty. rewrite !nrows_shape, H.
  replace (length df') with (length (shape df')) by apply length_map.
  replace (length df) with (length (shape df)) by apply length_map.
  now rewrite H.
Qed.

Lemma rectangular_shape {A B} (df : DataFrame A) (df' : DataFrame B) :
  shape df' = shape df -> rectangular df -> rectangular df'.
Proof.
  unfold rectangular. intros H Hr. rewrite nrows_shape, H, <- nrows_shape.
  assert (Hs : Forall (fun e => snd e = nrows df) (shape df)).
  { unfold shape. apply Forall_map. exact Hr. }
  rewrite <- H in Hs. unfold shape in Hs. apply Forall_map in Hs. exact Hs.
Qed.

Lemma drop_column_In {A} (name : string) (df : DataFrame A) (q : string) (col : list A) :
  In (q, col) (drop_column name df) <-> In (q, col) df /\ q <> name.
Proof.
  unfold drop_column. rewrite filter_In. simpl.
  rewrite negb_true_iff, String.eqb_neq. tauto.
Qed.

(** X2: a successful load returns the sheet without the Partisipan column,
    every other column in its place with its cells, and a numeric frame of
    the same shape: the same column names in the same order, each column as
    long as the raw one; so the two frames are empty together, and
    rectangular together. *)
Theorem muat_data_shape
    (parse_float : string -> option float) (path : string) (df0 : DataFrame cell) :
  exists df df_numeric,
    muat_data parse_float {| DATA_FILE := path; path_exists := true; read_excel := Sheet df0 |}
    = ([], Returned (df, df_numeric))
    /\ ~ In "Partisipan" (columns df)
    /\ columns df = filter (fun q => negb (String.eqb q "Partisipan")) (columns df0)
    /\ (forall q col, In (q, col) df <-> In (q, col) df0 /\ q <> "Partisipan")
    /\ shape df_numeric = shape df
    /\ columns df_numeric = columns df
    /\ nrows df_numeric = nrows df
    /\ empty df_numeric = empty df
    /\ (rectangular df -> rectangular df_numeric).
Proof.
  exists (drop_column "Partisipan" df0), (numerik parse_float (drop_column "Partisipan" df0)).
  assert (Hs : shape (numerik parse_float (drop_column "Partisipan" df0))
               = shape (drop_column "Partisipan" df0)).
  { rewrite numerik_applymap. apply shape_applymap. }
  repeat match goal with |- _ /\ _ => split end.
  - reflexivity.
  - unfold columns. intros H. apply in_map_iff in H. destruct H as ([q col] & Hq & Hin).
    simpl in Hq. subst q. apply drop_column_In in Hin. tauto.
  - clear Hs. unfold columns, drop_column.
    induction df0 as [|[q col] df0 IH]; [reflexivity|].
    simpl. destruct (negb (String.eqb q "Partisipan")); simpl; congruence.
  - intros q col. apply drop_column_In.
  - exact Hs.
  - now rewrite !columns_shape, Hs.
  - now rewrite !nrows_shape, Hs.
  - now apply empty_shape.
  - now apply rectangular_shape.
Qed.

Lemma dict_get_applymap {A B} (f : A -> B) (df : DataFrame A) (k : string) :
  dict_get (applymap f df) k = option_map (map f) (dict_get df k).
Proof.
  unfold applymap. induction df as [|[q col] df IH]; [reflexivity|].
  simpl. destruct (String.eqb q k); [reflexivity|exact IH].
Qed.

Lemma getitem_applymap {A B} (f : A -> B) (df : DataFrame A) (keys : list string) :
  getitem (applymap f df) keys = option_map (applymap f) (getitem df keys).
Proof.
  induction keys as [|k keys IH]; [reflexivity|].
  simpl. rewrite dict_get_applymap, IH.
  destruct (dict_get df k), (getitem df keys); reflexivity.
Qed.

Lemma filter_questions_numerik
    (parse_float : string -> option float) (df : DataFrame cell)
    (selected_questions : list string) :
  filter_questions df (numerik parse_float df) selected_questions
  = match selected_questions with
    | [] => Some (df, numerik parse_float df)
    | _ => option_map (fun df_display => (df_display, numerik parse_float df_display))
             (getitem df selected_questions)
    end.
Proof.
  destruct selected_questions as [|k keys]; [reflexivity|].
  unfold filter_questions. rewrite !numerik_applymap, getitem_applymap.
  destruct (getitem df (k :: keys)) as [sub|]; [|reflexivity].
  simpl. now rewrite numerik_applymap.
Qed.

(** X3: the two displayed frames stay in step: filtering the raw frame and
    the numeric frame separately, as the script does, gives a numeric frame
    that is the numeric image of the filtered raw frame: the same questions
    in the same order, and under each question the scores of the answers
    shown, cell for cell. *)
Theorem df_num_display_numerik
    (parse_float : string -> option float) (df : DataFrame cell)
    (selected_questions : list string)
    (df_display : DataFrame cell) (df_num_display : DataFrame float) :
  filter_questions df (numerik parse_float df) selected_questions
  = Some (df_display, df_num_display) ->
  df_num_display = numerik parse_float df_display
  /\ columns df_num_display = columns df_display
  /\ (forall q col, dict_get df_display q = Some col ->
        dict_get df_num_display q = Some (map (numeric_cell parse_float) col)).
Proof.
  intros H. rewrite filter_questions_numerik in H.
  assert (Hn : df_num_display = numerik parse_float df_display).
  { destruct selected_questions as [|k keys]; [now inversion H|].
    destruct (getitem df (k :: keys)) as [sub|]; [|discriminate].
    now inversion H. }
  subst df_num_display. split; [reflexivity|]. rewrite numerik_applymap. split.
  - now rewrite !columns_shape, shape_applymap.
  - intros q col Hq. now rewrite dict_get_applymap, Hq.
Qed.

Lemma df_num_display_numerik_contoh :
  filter_questions contoh (numerik (fun _ => None) contoh) ["Q2"; "Q1"]
  = Some ([("Q2", [Str "CS"; Str "CS"; Str "STS"]); ("Q1", [Str "SS"; Str "S"; Str "TS"])],
          [("Q2", [4; 4; 1]%float); ("Q1", [6; 5; 2]%float)])
  /\ ([("Q2", [4; 4; 1]%float); ("Q1", [6; 5; 2]%float)]
      = numerik (fun _ => None)
          [("Q2", [Str "CS"; Str "CS"; Str "STS"]); ("Q1", [Str "SS"; Str "S"; Str "TS"])]
      /\ columns [("Q2", [4; 4; 1]%float); ("Q1", [6; 5; 2]%float)]
         = columns [("Q2", [Str "CS"; Str "CS"; Str "STS"]);
                    ("Q1", [Str "SS"; Str "S"; Str "TS"])]
      /\ (forall q col,
            dict_get [("Q2", [Str "CS"; Str "CS"; Str "STS"]);
                      ("Q1", [Str "SS"; Str "S"; Str "TS"])] q = Some col ->
            dict_get [("Q2", [4; 4; 1]%float); ("Q1", [6; 5; 2]%float)] q
            = Some (map (numeric_cell (fun _ => None)) col))).
Proof.
  assert (H : filter_questions contoh (numerik (fun _ => None) contoh) ["Q2"; "Q1"]
              = Some ([("Q2", [Str "CS"; Str "CS"; Str "STS"]);
                       ("Q1", [Str "SS"; Str "S"; Str "TS"])],
                      [("Q2", [4; 4; 1]%float); ("Q1", [6; 5; 2]%float)]))
    by reflexivity.
  split; [exact H|].
  exact (df_num_display_numerik (fun _ => None) contoh ["Q2"; "Q1"] _ _ H).
Defined.

Lemma dict_get_None {A} (df : DataFrame A) (k : string) :
  dict_get df k = None <-> ~ In k (columns df).
Proof.
  unfold columns. induction df as [|[q col] df IH]; simpl; [tauto|].
  destruct (String.eqb q k) eqn:E.
  - apply String.eqb_eq in E. split; [discriminate|]. intros H. exfalso. auto.
  - apply String.eqb_neq in E. rewrite IH. tauto.
Qed.

Lemma getitem_None {A} (df : DataFrame A) (keys : list string) :
  getitem df keys = None <-> exists k, In k keys /\ ~ In k (columns df).
Proof.
  induction keys as [|k keys IH]; simpl.
  - split; [discriminate|]. intros (k & [] & _).
  - destruct (dict_get df k) as [col|] eqn:Ek.
    + destruct (getitem df keys) as [rest|] eqn:Eg.
      * split; [discriminate|]. intros (k' & [<-|Hin] & Hn).
        -- apply dict_get_None in Hn. congruence.
        -- assert (Hx : exists k, In k keys /\ ~ In k (columns df)) by eauto.
           apply IH in Hx. discriminate Hx.
      * split; [intros _|reflexivity].
        destruct (proj1 IH eq_refl) as (k' & Hin & Hn). eauto.
    + split; [intros _|reflexivity].
      exists k. split; [now left|]. now apply dict_get_None.
Qed.

(** X4: the filter raises KeyError exactly when a selected question is not
    a column of the loaded frame; an empty selection never raises. *)
Theorem filter_questions_keyerror
    (parse_float : string -> option float) (df : DataFrame cell)
    (selected_questions : list string) :
  filter_questions df (numerik parse_float df) selected_questions = None
  <-> exists q, In q selected_questions /\ ~ In q (columns df).
Proof.
  rewrite filter_questions_numerik. destruct selected_questions as [|k keys].
  - split; [discriminate|]. intros (q & [] & _).
  - rewrite <- getitem_None. destruct (getitem df (k :: keys)); simpl; split; congruence.
Qed.

Lemma getitem_In {A} (df : DataFrame A) (keys : list string) (sub : DataFrame A) :
  getitem df keys = Some sub -> forall c, In c sub -> In c df.
Proof.
  revert sub. induction keys as [|k keys IH]; simpl; intros sub H.
  - inversion H; subst. intros c [].
  - destruct (dict_get df k) as [col|] eqn:Ek; [|discriminate].
    destruct (getitem df keys) as [rest|]; [|discriminate].
    inversion H; subst. intros c [<-|Hc].
    + now apply dict_get_In.
    + now apply (IH rest).
Qed.

Lemma getitem_length {A} (df : DataFrame A) (keys : list string) (sub : DataFrame A) :
  getitem df keys = Some sub -> length sub = length keys.
Proof.
  revert sub. induction keys as [|k keys IH]; simpl; intros sub H.
  - now inversion H.
  - destruct (dict_get df k) as [col|]; [|discriminate].
    destruct (getitem df keys) as [rest|]; [|discriminate].
    inversion H; subst. simpl. f_equal. now apply IH.
Qed.

(** X5: on a rectangular frame the filter keeps every row: whatever the
    selection, the two displayed frames are rectangular, have as many rows
    as the loaded frame, and are empty only if the loaded frame is; a
    selection never empties the table. *)
Theorem filter_questions_rows
    (parse_float : string -> option float) (df : DataFrame cell)
    (selected_questions : list string)
    (df_display : DataFrame cell) (df_num_display : DataFrame float) :
  rectangular df ->
  filter_questions df (numerik parse_float df) selected_questions
  = Some (df_display, df_num_display) ->
  rectangular df_display /\ rectangular df_num_display
  /\ nrows df_display = nrows df /\ nrows df_num_display = nrows df
  /\ empty df_display = empty df /\ empty df_num_display = empty df.
Proof.
  intros Hr H. rewrite filter_questions_numerik in H.
  assert (Hd : rectangular df_display /\ nrows df_display = nrows df
               /\ empty df_display = empty df
               /\ df_num_display = numerik parse_float df_display).
  { destruct selected_questions as [|k keys].
    - inversion H; subst. auto.
    - destruct (getitem df (k :: keys)) as [sub|] eqn:Eg; [|discriminate].
      simpl in H. inversion H; subst. clear H.
      pose proof (getitem_In _ _ _ Eg) as Hin.
      pose proof (getitem_length _ _ _ Eg) as Hlen.
      unfold rectangular in Hr. rewrite Forall_forall in Hr.
      destruct df_display as [|[q col] rest]; [discriminate|].
      assert (Hn : nrows ((q, col) :: rest) = nrows df).
      { simpl. apply (Hr (q, col)). apply Hin. now left. }
      repeat split; try assumption.
      + unfold rectangular. rewrite Hn. apply Forall_forall.
        intros c Hc. apply Hr. now apply Hin.
      + unfold empty. rewrite Hn.
        assert (In (q, col) df) by (apply Hin; now left).
        destruct df; [contradiction|reflexivity]. }
  destruct Hd as (Hrd & Hnd & Hed & ->).
  assert (Hs : shape (numerik parse_float df_display) = shape df_display).
  { rewrite numerik_applymap. apply shape_applymap. }
  repeat split; try assumption.
  - now apply (rectangular_shape df_display).
  - now rewrite nrows_shape, Hs, <- nrows_shape.
  - now rewrite (empty_shape df_display).
Qed.

Lemma filter_questions_rows_contoh :
  (rectangular contoh
   /\ filter_questions contoh (numerik (fun _ => None) contoh) ["Q2"]
      = Some ([("Q2", [Str "CS"; Str "CS"; Str "STS"])], [("Q2", [4; 4; 1]%float)]))
  /\ (rectangular [("Q2", [Str "CS"; Str "CS"; Str "STS"])]
      /\ rectangular [("Q2", [4; 4; 1]%float)]
      /\ nrows [("Q2", [Str "CS"; Str "CS"; Str "STS"])] = nrows contoh
      /\ nrows [("Q2", [4; 4; 1]%float)] = nrows contoh
      /\ empty [("Q2", [Str "CS"; Str "CS"; Str "STS"])] = empty contoh
      /\ empty [("Q2", [4; 4; 1]%float)] = empty contoh).
Proof.
  assert (H1 : rectangular contoh) by (repeat constructor).
  assert (H2 : filter_questions contoh (numerik (fun _ => None) contoh) ["Q2"]
               = Some ([("Q2", [Str "CS"; Str "CS"; Str "STS"])], [("Q2", [4; 4; 1]%float)]))
    by reflexivity.
  split; [split; assumption|].
  exact (filter_questions_rows (fun _ => None) contoh ["Q2"] _ _ H1 H2).
Defined.

(** ** Distributions across the views *)

Lemma Z_sum_cons (a : Z) (l : list Z) : Z_sum (a :: l) = (a + Z_sum l)%Z.
Proof.
  unfold Z_sum. simpl.
  assert (H : forall l b, fold_left Z.add l b = (b + fold_left Z.add l 0)%Z).
  { clear. induction l as [|x l IH]; intros b; simpl; [lia|].
    rewrite (IH (b + x)%Z), (IH x). lia. }
  apply H.
Qed.

Lemma count_eq_app (r1 r2 : list cell) (code : string) :
  count_eq (r1 ++ r2) code = (count_eq r1 code + count_eq r2 code)%Z.
Proof.
  unfold count_eq. rewrite filter_app, length_app. lia.
Qed.

Lemma count_eq_cells (df : DataFrame cell) (code : string) :
  count_eq (cells df) code = Z_sum (map (fun c => count_eq (snd c) code) df).
Proof.
  unfold cells. induction df as [|[q col] df IH]; [reflexivity|].
  simpl. now rewrite count_eq_app, Z_sum_cons, IH.
Qed.

Lemma skala_counts (f : string -> Z) (l : list cell) :
  (forall code, In code URUTAN_SKALA -> f code = count_eq l code) ->
  map (fun code => (code, f code)) URUTAN_SKALA
  = [("SS", count_eq l "SS"); ("S", count_eq l "S"); ("CS", count_eq l "CS");
     ("CTS", count_eq l "CTS"); ("TS", count_eq l "TS"); ("STS", count_eq l "STS")].
Proof.
  intros H. unfold URUTAN_SKALA. cbn [map].
  rewrite !H by (simpl; tauto). reflexivity.
Qed.

Lemma q_counts_column (col : list cell) :
  fillna0 (reindex (value_counts col) URUTAN_SKALA)
  = [("SS", count_eq col "SS"); ("S", count_eq col "S"); ("CS", count_eq col "CS");
     ("CTS", count_eq col "CTS"); ("TS", count_eq col "TS"); ("STS", count_eq col "STS")].
Proof.
  rewrite fillna0_reindex. apply skala_counts.
  intros code _. apply loc_value_counts.
Qed.

Lemma dist_global_cells (df : DataFrame cell) :
  rectangular df ->
  dist_global df
  = [("SS", count_eq (cells df) "SS"); ("S", count_eq (cells df) "S");
     ("CS", count_eq (cells df) "CS"); ("CTS", count_eq (cells df) "CTS");
     ("TS", count_eq (cells df) "TS"); ("STS", count_eq (cells df) "STS")].
Proof.
  intros Hr. unfold dist_global. rewrite fillna0_reindex. apply skala_counts.
  intros code Hin. rewrite loc_value_counts. unfold all_vals.
  rewrite count_eq_filter by (intros c; now apply cell_eqb_in_skala).
  now apply count_eq_flatten_values.
Qed.

Lemma Z_sum_six (a b c d e f : string) (x1 x2 x3 x4 x5 x6 : Z) :
  Z_sum (map snd [(a, x1); (b, x2); (c, x3); (d, x4); (e, x5); (f, x6)])
  = (x1 + x2 + x3 + x4 + x5 + x6)%Z.
Proof. unfold Z_sum. simpl. lia. Qed.

Lemma q_counts_columns (lib : pandas) (df_display : DataFrame cell) :
  apply_value_counts_raises lib df_display = false ->
  q_counts lib df_display
  = Returned
      (map (fun c => (fst c,
                      [("SS", count_eq (snd c) "SS"); ("S", count_eq (snd c) "S");
                       ("CS", count_eq (snd c) "CS"); ("CTS", count_eq (snd c) "CTS");
                       ("TS", count_eq (snd c) "TS"); ("STS", count_eq (snd c) "STS")]))
         df_display).
Proof.
  intros H. unfold q_counts, apply_columns. rewrite H. f_equal.
  apply map_ext. intros [q col]. cbn [fst snd].
  f_equal. apply q_counts_column.
Qed.

Lemma apply_ok_no_raise (lib : pandas) (df_display : DataFrame cell) :
  apply_ok lib ->
  length df_display = 1%nat \/ forallb teks_atau_kosong (cells df_display) = true ->
  apply_value_counts_raises lib df_display = false.
Proof.
  intros [H1 Ht] [Hlen|Htext]; [|now apply Ht].
  destruct df_display as [|[q col] [|c df]]; try discriminate Hlen. apply H1.
Qed.

Lemma existsb_forallb_negb {A} (p : A -> bool) (l : list A) :
  forallb p l = true -> existsb (fun x => negb (p x)) l = false.
Proof.
  induction l as [|x l IH]; [reflexivity|]. simpl. intros H.
  apply andb_true_iff in H. destruct H as [Hx Hl]. now rewrite Hx, IH.
Qed.

(** The library to run the script with puts the counts into one frame where
    every pandas does. *)
Lemma pandas_contoh_apply_ok (raises : bool) : apply_ok (pandas_contoh raises).
Proof.
  split.
  - intros q col. reflexivity.
  - intros df H. cbn [pandas_contoh apply_value_counts_raises]. unfold campuran.
    rewrite (existsb_forallb_negb _ _ H). now rewrite andb_false_r.
Qed.

(** X6: when pandas can put the counts of the shown questions into one
    frame -- one question is shown, or every shown cell is a text or blank
    -- the per-question distribution gives every question its six counts
    in the canonical order SS, S, CS, CTS, TS, STS, each the number of the
    question's cells equal to the code (0 when there is none); the six
    counts of a question add up to the number of its cells on the Scale, so
    free text and blanks are in no count.  When it cannot, the distribution
    is not computed: the call raises TypeError. *)
Theorem q_counts_per_question (lib : pandas) (df_display : DataFrame cell) :
  apply_ok lib ->
  length df_display = 1%nat \/ forallb teks_atau_kosong (cells df_display) = true ->
  (exists counts,
      q_counts lib df_display = Returned counts
      /\ counts
         = map (fun c => (fst c,
                          [("SS", count_eq (snd c) "SS"); ("S", count_eq (snd c) "S");
                           ("CS", count_eq (snd c) "CS"); ("CTS", count_eq (snd c) "CTS");
                           ("TS", count_eq (snd c) "TS"); ("STS", count_eq (snd c) "STS")]))
             df_display
      /\ map (fun e => (fst e, Z_sum (map snd (snd e)))) counts
         = map (fun c => (fst c, banyak in_skala (snd c))) df_display)
  /\ (forall lib' df, apply_value_counts_raises lib' df = true ->
                      q_counts lib' df = Raised "TypeError").
Proof.
  intros Hok Hdf. split.
  - eexists. split; [|split; [reflexivity|]].
    + apply q_counts_columns. now apply apply_ok_no_raise.
    + rewrite map_map. apply map_ext. intros [q col]. cbn [fst snd].
      now rewrite Z_sum_six, count_eq_six.
  - intros lib' df H. unfold q_counts. now rewrite H.
Qed.

Lemma q_counts_per_question_contoh :
  (apply_ok (pandas_contoh false)
   /\ (length contoh = 1%nat \/ forallb teks_atau_kosong (cells contoh) = true))
  /\ ((exists counts,
          q_counts (pandas_contoh false) contoh = Returned counts
          /\ counts
             = map (fun c => (fst c,
                              [("SS", count_eq (snd c) "SS"); ("S", count_eq (snd c) "S");
                               ("CS", count_eq (snd c) "CS"); ("CTS", count_eq (snd c) "CTS");
                               ("TS", count_eq (snd c) "TS"); ("STS", count_eq (snd c) "STS")]))
                 contoh
          /\ map (fun e => (fst e, Z_sum (map snd (snd e)))) counts
             = map (fun c => (fst c, banyak in_skala (snd c))) contoh)
      /\ (forall lib' df, apply_value_counts_raises lib' df = true ->
                          q_counts lib' df = Raised "TypeError")).
Proof.
  assert (H1 : apply_ok (pandas_contoh false)) by apply pandas_contoh_apply_ok.
  assert (H2 : length contoh = 1%nat \/ forallb teks_atau_kosong (cells contoh) = true)
    by (right; reflexivity).
  split; [exact (conj H1 H2)|].
  exact (q_counts_per_question (pandas_contoh false) contoh H1 H2).
Defined.

Lemma jumlah_six (label : string) (x1 x2 x3 x4 x5 x6 : Z) :
  jumlah [("SS", x1); ("S", x2); ("CS", x3); ("CTS", x4); ("TS", x5); ("STS", x6)] label
  = (if String.eqb label "SS" then x1 else
     if String.eqb label "S" then x2 else
     if String.eqb label "CS" then x3 else
     if String.eqb label "CTS" then x4 else
     if String.eqb label "TS" then x5 else
     if String.eqb label "STS" then x6 else 0)%Z.
Proof.
  unfold jumlah. cbn [dict_get]. rewrite !(String.eqb_sym _ label).
  destruct (String.eqb label "SS"), (String.eqb label "S"), (String.eqb label "CS"),
    (String.eqb label "CTS"), (String.eqb label "TS"), (String.eqb label "STS");
    reflexivity.
Qed.

Lemma Z_sum_map_0 {A} (l : list A) : Z_sum (map (fun _ => 0%Z) l) = 0%Z.
Proof.
  induction l as [|a l IH]; [reflexivity|]. simpl. rewrite Z_sum_cons, IH. reflexivity.
Qed.

(** X7: the overview and the per-question view agree: on a rectangular
    frame whose per-question counts pandas can put into one frame (one
    question, or texts and blanks only), the global count of every label is
    the sum, over the questions, of the question's count of that label. *)
Theorem dist_global_sum_q_counts (lib : pandas) (df_display : DataFrame cell) :
  rectangular df_display ->
  apply_ok lib ->
  length df_display = 1%nat \/ forallb teks_atau_kosong (cells df_display) = true ->
  exists counts,
    q_counts lib df_display = Returned counts
    /\ forall label,
         jumlah (dist_global df_display) label
         = Z_sum (map (fun e => jumlah (snd e) label) counts).
Proof.
  intros Hr Hok Hdf. eexists. split.
  - apply q_counts_columns. now apply apply_ok_no_raise.
  - intros label. rewrite (dist_global_cells _ Hr), jumlah_six.
    rewrite map_map. cbn [snd].
    rewrite (map_ext _ _ (fun c => jumlah_six label _ _ _ _ _ _)).
    rewrite !count_eq_cells.
    destruct (String.eqb label "SS"); [reflexivity|].
    destruct (String.eqb label "S"); [reflexivity|].
    destruct (String.eqb label "CS"); [reflexivity|].
    destruct (String.eqb label "CTS"); [reflexivity|].
    destruct (String.eqb label "TS"); [reflexivity|].
    destruct (String.eqb label "STS"); [reflexivity|].
    now rewrite Z_sum_map_0.
Qed.

Lemma dist_global_sum_q_counts_contoh :
  (rectangular contoh
   /\ apply_ok (pandas_contoh false)
   /\ (length contoh = 1%nat \/ forallb teks_atau_kosong (cells contoh) = true))
  /\ exists counts,
       q_counts (pandas_contoh false) contoh = Returned counts
       /\ forall label,
            jumlah (dist_global contoh) label
            = Z_sum (map (fun e => jumlah (snd e) label) counts).
Proof.
  assert (H1 : rectangular contoh) by (repeat constructor).
  assert (H2 : apply_ok (pandas_contoh false)) by apply pandas_contoh_apply_ok.
  assert (H3 : length contoh = 1%nat \/ forallb teks_atau_kosong (cells contoh) = true)
    by (right; reflexivity).
  split; [exact (conj H1 (conj H2 H3))|].
  exact (dist_global_sum_q_counts (pandas_contoh false) contoh H1 H2 H3).
Defined.

Lemma Z_sum_map_add {A} (f g : A -> Z) (l : list A) :
  Z_sum (map (fun x => f x + g x)%Z l) = (Z_sum (map f l) + Z_sum (map g l))%Z.
Proof.
  induction l as [|a l IH]; [reflexivity|].
  cbn [map]. rewrite !Z_sum_cons, IH. lia.
Qed.

Lemma cat_per_q_counts (df_display : DataFrame cell) :
  map Positif (cat_per_q df_display)
  = map (fun c => count_eq (snd c) "SS" + count_eq (snd c) "S")%Z df_display
  /\ map Netral (cat_per_q df_display)
     = map (fun c => count_eq (snd c) "CS") df_display
  /\ map Negatif (cat_per_q df_display)
     = map (fun c => count_eq (snd c) "CTS" + count_eq (snd c) "TS"
                     + count_eq (snd c) "STS")%Z df_display.
Proof.
  unfold cat_per_q, apply_columns. rewrite !map_map.
  repeat match goal with |- _ /\ _ => split end;
    apply map_ext; intros [q col]; reflexivity.
Qed.

(** X8: the totals of the sentiment view are the overview's distribution
    grouped three ways: on a rectangular frame Positif is the global count
    of SS plus that of S, Netral the global count of CS, Negatif the global
    counts of CTS, TS and STS added; the three totals add up to the number
    of cells on the Scale in the whole frame. *)
Theorem df_agregat_groups_dist_global (df_display : DataFrame cell) :
  rectangular df_display ->
  df_agregat (cat_per_q df_display)
  = [("Positif", jumlah (dist_global df_display) "SS"
                 + jumlah (dist_global df_display) "S");
     ("Netral", jumlah (dist_global df_display) "CS");
     ("Negatif", jumlah (dist_global df_display) "CTS"
                 + jumlah (dist_global df_display) "TS"
                 + jumlah (dist_global df_display) "STS")]%Z
  /\ Z_sum (map snd (df_agregat (cat_per_q df_display)))
     = banyak in_skala (cells df_display).
Proof.
  intros Hr.
  assert (H : df_agregat (cat_per_q df_display)
              = [("Positif", count_eq (cells df_display) "SS"
                             + count_eq (cells df_display) "S");
                 ("Netral", count_eq (cells df_display) "CS");
                 ("Negatif", count_eq (cells df_display) "CTS"
                             + count_eq (cells df_display) "TS"
                             + count_eq (cells df_display) "STS")]%Z).
  { unfold df_agregat.
    destruct (cat_per_q_counts df_display) as (-> & -> & ->).
    rewrite !Z_sum_map_add, <- !count_eq_cells. reflexivity. }
  split.
  - rewrite H, (dist_global_cells _ Hr), !jumlah_six. reflexivity.
  - rewrite H, <- count_eq_six. unfold Z_sum. simpl. lia.
Qed.

Lemma df_agregat_groups_dist_global_contoh :
  rectangular contoh
  /\ (df_agregat (cat_per_q contoh)
      = [("Positif", jumlah (dist_global contoh) "SS"
                     + jumlah (dist_global contoh) "S");
         ("Netral", jumlah (dist_global contoh) "CS");
         ("Negatif", jumlah (dist_global contoh) "CTS"
                     + jumlah (dist_global contoh) "TS"
                     + jumlah (dist_global contoh) "STS")]%Z
      /\ Z_sum (map snd (df_agregat (cat_per_q contoh)))
         = banyak in_skala (cells contoh)).
Proof.
  assert (H : rectangular contoh) by (repeat constructor).
  split; [exact H|].
  exact (df_agregat_groups_dist_global contoh H).
Defined.

(** ** The library the script is run with *)

Lemma added_up_nil (l : list float) (s : float) :
  added_up l s -> l = [] -> s = 0%float.
Proof.
  induction 1 as [|x|l1 l2 s1 s2 H1 IH1 H2 IH2|l l' s Hp H IH]; intros E.
  - reflexivity.
  - discriminate E.
  - apply app_eq_nil in E. destruct E as [E1 E2].
    now rewrite (IH1 E1), (IH2 E2).
  - subst l'. apply Permutation_sym, Permutation_nil in Hp. auto.
Qed.

Lemma added_up_fold_left (l l0 : list float) (acc : float) :
  added_up l0 acc -> added_up (l0 ++ l) (fold_left PrimFloat.add l acc).
Proof.
  revert l0 acc. induction l as [|x l IH]; intros l0 acc H.
  - now rewrite app_nil_r.
  - cbn [fold_left]. replace (l0 ++ x :: l) with ((l0 ++ [x]) ++ l)
      by (now rewrite <- app_assoc).
    apply IH. apply added_app; [exact H|constructor].
Qed.

(** Adding from left to right is one of numpy's possible sums. *)
Lemma pandas_contoh_sum_ok (raises : bool) : sum_ok (pandas_contoh raises).
Proof.
  intros l. cbn [pandas_contoh np_sum]. unfold sum_left.
  apply (added_up_fold_left l [] 0%float). constructor.
Qed.

Lemma leb_total (x y : float) :
  is_nan x = false -> is_nan y = false ->
  (x <=? y)%float = false -> (y <=? x)%float = true.
Proof.
  intros Hx Hy H. apply (leb_rk y x Hy Hx). intros Hlt.
  assert (Hle : (x <=? y)%float = true); [|congruence].
  apply (leb_rk x y Hx Hy). intros Hgt.
  destruct (rk x) as [[a1 a2] a3], (rk y) as [[b1 b2] b3]. unfold lex_lt in *. lia.
Qed.

Lemma leb_not_nan (x y : float) :
  (x <=? y)%float = true -> is_nan x = false /\ is_nan y = false.
Proof.
  rewrite leb_spec, !is_nan_spec. unfold SFleb, SFcompare.
  destruct (Prim2SF x) as [sx|sx| |sx mx ex], (Prim2SF y) as [sy|sy| |sy my ey];
    try discriminate; auto.
Qed.

Lemma ascending_cons (x : float) (l : list float) :
  ascending (x :: l)
  <-> match l with
      | [] => True
      | y :: _ => is_nan y = true \/ (x <=? y)%float = true
      end /\ ascending l.
Proof. destruct l as [|y l]; simpl; tauto. Qed.

Lemma insert_row_head (r : string * float) (s : Series float) :
  exists rest,
    insert_row r s = r :: rest
    \/ (exists r' s', s = r' :: s' /\ insert_row r s = r' :: rest
                      /\ is_nan (snd r') = false /\ (snd r <=? snd r')%float = false).
Proof.
  destruct s as [|r' s']; simpl; [eauto|].
  destruct (is_nan (snd r')) eqn:En; cbn [orb]; [eauto|].
  destruct (snd r <=? snd r')%float eqn:El; [eauto|].
  exists (insert_row r s'). right. exists r', s'. auto.
Qed.

Lemma insert_row_ascending (r : string * float) (s : Series float) :
  ascending (map snd s) -> ascending (map snd (insert_row r s)).
Proof.
  induction s as [|r' s' IH]; intros H; [exact I|].
  cbn [insert_row].
  destruct (is_nan (snd r')) eqn:En; cbn [orb].
  - cbn [map]. apply ascending_cons. split; [now left|exact H].
  - destruct (snd r <=? snd r')%float eqn:El.
    + cbn [map]. apply ascending_cons. split; [now right|exact H].
    + cbn [map] in H |- *. apply ascending_cons in H. destruct H as [Hh Ht].
      apply ascending_cons. split; [|now apply IH].
      destruct (insert_row_head r s') as (rest & [E|(y & s'' & Es & E & Hy & Hl)]);
        rewrite E; cbn [map].
      * destruct (is_nan (snd r)) eqn:Er; [now left|right].
        now apply leb_total.
      * subst s'. exact Hh.
Qed.

Lemma insert_row_perm (r : string * float) (s : Series float) :
  Permutation (r :: s) (insert_row r s).
Proof.
  induction s as [|r' s' IH]; [reflexivity|]. cbn [insert_row].
  destruct (is_nan (snd r') || (snd r <=? snd r')%float); [reflexivity|].
  rewrite perm_swap. now constructor.
Qed.

(** Insertion sort is one of the possible [sort_values]. *)
Lemma pandas_contoh_sort_ok (raises : bool) : sort_ok (pandas_contoh raises).
Proof.
  intros s. cbn [pandas_contoh sort_values]. unfold sort_rows.
  induction s as [|r s [IHp IHa]]; [split; [reflexivity|exact I]|].
  cbn [fold_right]. split.
  - rewrite <- insert_row_perm. now constructor.
  - now apply insert_row_ascending.
Qed.

(** ** The script past the loader *)

Section Run.

Variable parse_float : string -> option float.
Variable format_2f : float -> string.
Variable str_of_nat : nat -> string.
Variable lib : pandas.

Lemma app_loaded (path : string) (df0 : DataFrame cell)
    (selected_questions : list string) (menu : menu_item) :
  empty (drop_column "Partisipan" df0) = false ->
  app parse_float format_2f str_of_nat lib
    {| DATA_FILE := path; path_exists := true; read_excel := Sheet df0 |}
    selected_questions menu
  = match filter_questions (drop_column "Partisipan" df0)
            (numerik parse_float (drop_column "Partisipan" df0)) selected_questions with
    | None => raise "KeyError"
    | Some (df_display, df_num_display) =>
        match menu with
        | DashboardUtama =>
            dashboard_utama format_2f str_of_nat lib (drop_column "Partisipan" df0)
              df_display df_num_display
        | AnalisisPerPertanyaan => analisis_per_pertanyaan lib df_display
        | PeringkatSkor => peringkat_skor lib df_num_display
        | AnalisisSentimen => analisis_sentimen df_display
        | TabelDataLengkap => tabel_data_lengkap df_display
        end
    end.
Proof.
  intros He. unfold app, muat_data. cbn [path_exists read_excel negb].
  unfold ret at 1. cbn [bind fst snd]. rewrite He.
  destruct (filter_questions _ _ _) as [[df_display df_num_display]|];
    [destruct menu|]; try reflexivity;
    match goal with |- (let (t', o) := ?run in _) = _ => now destruct run end.
Qed.

Lemma filter_questions_Some (df : DataFrame cell) (selected_questions : list string) :
  incl selected_questions (columns df) ->
  exists df_display,
    filter_questions df (numerik parse_float df) selected_questions
    = Some (df_display, numerik parse_float df_display).
Proof.
  intros H. unfold filter_questions. destruct selected_questions as [|k keys]; [eauto|].
  destruct (getitem_columns df (k :: keys) H) as (sub & Hsub & _).
  exists sub. rewrite numerik_applymap, getitem_applymap, Hsub.
  cbn [option_map]. now rewrite numerik_applymap.
Qed.

Lemma filter_questions_None (df : DataFrame cell) (selected_questions : list string) :
  (exists q, In q selected_questions /\ ~ In q (columns df)) ->
  filter_questions df (numerik parse_float df) selected_questions = None.
Proof.
  intros H. unfold filter_questions.
  destruct selected_questions as [|k keys]; [destruct H as (q & [] & _)|].
  apply getitem_None in H. now rewrite H.
Qed.

End Run.

(** X10: a selection that names a question the frame does not have makes
    [df[selected_questions]] raise KeyError before any view runs: the run
    shows nothing and ends with the exception, whatever the menu. *)
Theorem app_keyerror
    (parse_float : string -> option float) (format_2f : float -> string)
    (str_of_nat : nat -> string) (lib : pandas)
    (path : string) (df0 : DataFrame cell)
    (selected_questions : list string) (menu : menu_item) (q : string) :
  empty (drop_column "Partisipan" df0) = false ->
  In q selected_questions ->
  ~ In q (columns (drop_column "Partisipan" df0)) ->
  app parse_float format_2f str_of_nat lib
    {| DATA_FILE := path; path_exists := true; read_excel := Sheet df0 |}
    selected_questions menu
  = ([], Raised "KeyError").
Proof.
  intros He Hq Hn. rewrite (app_loaded _ _ _ _ _ _ _ _ He).
  rewrite (filter_questions_None parse_float); [reflexivity|eauto].
Qed.

Lemma app_keyerror_contoh :
  (empty (drop_column "Partisipan" (("Partisipan", [Str "a"; Str "b"; Str "c"]) :: contoh))
   = false
   /\ In "Partisipan" ["Q1"; "Partisipan"]
   /\ ~ In "Partisipan"
          (columns (drop_column "Partisipan"
                      (("Partisipan", [Str "a"; Str "b"; Str "c"]) :: contoh))))
  /\ app (fun _ => None) (fun _ => "") (fun _ => "") (pandas_contoh false)
       {| DATA_FILE := "data_kuesioner.xlsx"; path_exists := true;
          read_excel := Sheet (("Partisipan", [Str "a"; Str "b"; Str "c"]) :: contoh) |}
       ["Q1"; "Partisipan"] TabelDataLengkap
     = ([], Raised "KeyError").
Proof.
  assert (H1 : empty (drop_column "Partisipan"
                        (("Partisipan", [Str "a"; Str "b"; Str "c"]) :: contoh)) = false)
    by reflexivity.
  assert (H2 : In "Partisipan" ["Q1"; "Partisipan"]) by (right; now left).
  assert (H3 : ~ In "Partisipan"
                 (columns (drop_column "Partisipan"
                             (("Partisipan", [Str "a"; Str "b"; Str "c"]) :: contoh)))).
  { intros [H|[H|[]]]; discriminate H. }
  split; [repeat split; assumption|].
  exact (app_keyerror (fun _ => None) (fun _ => "") (fun _ => "") (pandas_contoh false)
           "data_kuesioner.xlsx" _ ["Q1"; "Partisipan"] TabelDataLengkap "Partisipan"
           H1 H2 H3).
Defined.

(** X11: the raw table shows the sheet as it was read: whatever the
    selection, every column of the table that the last view shows is a
    column of the sheet, cell for cell (codes, not scores), it is never
    Partisipan, and it is a selected question when the selection is not
    empty. *)
Theorem tabel_data_lengkap_raw
    (parse_float : string -> option float) (format_2f : float -> string)
    (str_of_nat : nat -> string) (lib : pandas)
    (path : string) (df0 : DataFrame cell)
    (selected_questions : list string)
    (shown : DataFrame cell) (q : string) (col : list cell) :
  In (st_dataframe shown)
     (fst (app parse_float format_2f str_of_nat lib
             {| DATA_FILE := path; path_exists := true; read_excel := Sheet df0 |}
             selected_questions TabelDataLengkap)) ->
  In (q, col) shown ->
  In (q, col) df0
  /\ q <> "Partisipan"
  /\ (selected_questions <> [] -> In q selected_questions).
Proof.
  intros Hshown Hin.
  destruct (empty (drop_column "Partisipan" df0)) eqn:He.
  - exfalso. unfold app, muat_data in Hshown.
    cbn [path_exists read_excel negb] in Hshown.
    unfold ret in Hshown at 1. cbn [bind fst snd] in Hshown.
    rewrite He in Hshown. simpl in Hshown.
    destruct Hshown as [H|[]]; discriminate H.
  - rewrite (app_loaded _ _ _ _ _ _ _ _ He) in Hshown.
    destruct (filter_questions _ _ _) as [[df_display df_num_display]|] eqn:Ef;
      [|destruct Hshown].
    assert (Hm : shown = df_display).
    { simpl in Hshown. destruct Hshown as [H|[]]. now inversion H. }
    subst shown.
    unfold filter_questions in Ef.
    destruct selected_questions as [|k keys].
    + inversion Ef; subst. apply drop_column_In in Hin. tauto.
    + destruct (getitem (drop_column "Partisipan" df0) (k :: keys)) as [sub|] eqn:Eg;
        [|discriminate].
      destruct (getitem (numerik parse_float _) (k :: keys)); [|discriminate].
      inversion Ef; subst.
      pose proof (getitem_In _ _ _ Eg _ Hin) as Hd.
      apply drop_column_In in Hd. destruct Hd as [Hd Hne].
      repeat split; try assumption. intros _.
      assert (Hc : In q (columns df_display))
        by (unfold columns; apply (in_map fst _ _ Hin)).
      assert (Hk : incl (k :: keys) (columns (drop_column "Partisipan" df0))).
      { intros x Hx. destruct (in_dec string_dec x (columns (drop_column "Partisipan" df0)))
          as [Hy|Hy]; [exact Hy|].
        assert (Hnone : getitem (drop_column "Partisipan" df0) (k :: keys) = None)
          by (apply getitem_None; eauto).
        congruence. }
      destruct (getitem_columns _ _ Hk) as (sub & Hsub & Hcols & _).
      rewrite Eg in Hsub. inversion Hsub; subst. now rewrite Hcols in Hc.
Qed.

Lemma tabel_data_lengkap_raw_contoh :
  (In (st_dataframe [("Q2", [Str "CS"; Str "CS"; Str "STS"])])
      (fst (app (fun _ => None) (fun _ => "") (fun _ => "") (pandas_contoh false)
              {| DATA_FILE := "data_kuesioner.xlsx"; path_exists := true;
                 read_excel := Sheet (("Partisipan", [Str "a"; Str "b"; Str "c"]) :: contoh) |}
              ["Q2"] TabelDataLengkap))
   /\ In ("Q2", [Str "CS"; Str "CS"; Str "STS"]) [("Q2", [Str "CS"; Str "CS"; Str "STS"])])
  /\ (In ("Q2", [Str "CS"; Str "CS"; Str "STS"])
        (("Partisipan", [Str "a"; Str "b"; Str "c"]) :: contoh)
      /\ "Q2" <> "Partisipan"
      /\ (["Q2"] <> [] -> In "Q2" ["Q2"])).
Proof.
  assert (H1 : In (st_dataframe [("Q2", [Str "CS"; Str "CS"; Str "STS"])])
                 (fst (app (fun _ => None) (fun _ => "") (fun _ => "") (pandas_contoh false)
                         {| DATA_FILE := "data_kuesioner.xlsx"; path_exists := true;
                            read_excel :=
                              Sheet (("Partisipan", [Str "a"; Str "b"; Str "c"]) :: contoh) |}
                         ["Q2"] TabelDataLengkap))) by (now left).
  assert (H2 : In ("Q2", [Str "CS"; Str "CS"; Str "STS"])
                 [("Q2", [Str "CS"; Str "CS"; Str "STS"])]) by (now left).
  split; [split; assumption|].
  exact (tabel_data_lengkap_raw (fun _ => None) (fun _ => "") (fun _ => "")
           (pandas_contoh false) "data_kuesioner.xlsx" _ ["Q2"] _ "Q2" _ H1 H2).
Defined.

(** ** The overview's numbers *)

Lemma nth_all_na (l : list float) (i : nat) :
  Forall (fun x => is_nan x = true) l -> is_nan (nth i l nan) = true.
Proof.
  intros H. revert i. induction H as [|x l Hx H IH]; intros [|i]; simpl; auto.
Qed.

Lemma Forall_concat {A} (P : A -> Prop) (ls : list (list A)) :
  Forall (Forall P) ls -> Forall P (concat ls).
Proof.
  induction 1 as [|l ls Hl H IH]; simpl; [constructor|].
  apply Forall_app. now split.
Qed.

Lemma values_all_na (df : DataFrame float) :
  Forall (fun c => Forall (fun x => is_nan x = true) (snd c)) df ->
  Forall (fun x => is_nan x = true) (flatten (values nan df)).
Proof.
  intros H. unfold flatten, values. apply Forall_concat.
  apply Forall_map, Forall_forall. intros i _. unfold iloc.
  apply Forall_map. revert H. apply Forall_impl. intros c Hc.
  now apply nth_all_na.
Qed.

Lemma numerik_all_na (parse_float : string -> option float) (df : DataFrame cell) :
  Forall (fun c => is_nan (numeric_cell parse_float c) = true) (cells df) ->
  Forall (fun c => Forall (fun x => is_nan x = true) (snd c)) (numerik parse_float df).
Proof.
  rewrite numerik_applymap. unfold cells, applymap.
  induction df as [|[q col] df IH]; simpl; intros H; [constructor|].
  apply Forall_app in H. destruct H as [H1 H2].
  constructor; [|now apply IH]. simpl. now apply Forall_map.
Qed.

Lemma mean_per_q_all_na (lib : pandas) (df_num_display : DataFrame float) :
  Forall (fun c => Forall (fun x => is_nan x = true) (snd c)) df_num_display ->
  all_na (map snd (mean_per_q lib df_num_display)) = true.
Proof.
  intros H. apply all_na_true. unfold mean_per_q, mean, apply_columns.
  rewrite map_map. apply Forall_map. revert H. apply Forall_impl.
  intros [q col] Hc. cbn [snd] in *. unfold nanmean. now rewrite (dropna_all_na col Hc).
Qed.

Lemma mean_per_q_nonempty (lib : pandas) (df_num_display : DataFrame float) :
  df_num_display <> [] -> mean_per_q lib df_num_display <> [].
Proof. destruct df_num_display; [congruence|discriminate]. Qed.

Lemma numerik_nonempty (parse_float : string -> option float) (df : DataFrame cell) :
  df <> [] -> numerik parse_float df <> [].
Proof. destruct df; [congruence|discriminate]. Qed.

(** The overview when the means are all NaN. *)
Lemma dashboard_utama_all_na
    (format_2f : float -> string) (str_of_nat : nat -> string) (lib : pandas)
    (df df_display : DataFrame cell) (df_num_display : DataFrame float) :
  df_num_display <> [] ->
  all_na (map snd (mean_per_q lib df_num_display)) = true ->
  dashboard_utama format_2f str_of_nat lib df df_display df_num_display
  = if idx_all_na_raises lib then ([], Raised "ValueError")
    else ([st_metric "👥 Total Responden" (str_of_nat (nrows df) ++ " Orang") "Data Masuk";
           st_metric "⭐ Rata-rata Skor Global"
             (format_2f (rata_rata_global lib df_num_display) ++ " / 6.00") "Skala 1-6";
           st_metric "🏆 Pertanyaan Terbaik" "-" "-";
           st_metric "⚠️ Perlu Perhatian" "-" "-";
           st_plotly_chart (FigCounts (dist_global df_display));
           st_plotly_chart (FigCounts (dist_global df_display))],
          Returned tt).
Proof.
  intros Hne Hna. unfold dashboard_utama, best_q, worst_q, best_score, worst_score.
  rewrite (idxmax_nonempty lib _ (mean_per_q_nonempty lib _ Hne)).
  rewrite (idxmin_nonempty lib _ (mean_per_q_nonempty lib _ Hne)).
  unfold nanargmax, nanargmin, nanmax, nanmin. rewrite Hna.
  destruct (idx_all_na_raises lib); reflexivity.
Qed.

(** X12: the global mean has no guard: when no shown cell has a score (every
    cell is blank, or a text that is neither on the Scale nor a number),
    the array left after the NaN are removed is empty and its mean is 0/0 =
    NaN, whatever the version of pandas.  What the overview then shows
    depends on the version: with pandas 1 and 2 the second card shows that
    NaN, formatted, before " / 6.00", and the best and worst cards show
    "-"; with pandas 3 [idxmax] raises ValueError before any card is
    drawn. *)
Theorem rata_rata_global_all_missing
    (parse_float : string -> option float) (format_2f : float -> string)
    (str_of_nat : nat -> string) (lib : pandas) (df df_display : DataFrame cell) :
  sum_ok lib ->
  df_display <> [] ->
  Forall (fun c => is_nan (numeric_cell parse_float c) = true) (cells df_display) ->
  dropna (flatten (values nan (numerik parse_float df_display))) = []
  /\ rata_rata_global lib (numerik parse_float df_display) = nan
  /\ (idx_all_na_raises lib = false ->
      dashboard_utama format_2f str_of_nat lib df df_display
        (numerik parse_float df_display)
      = ([st_metric "👥 Total Responden" (str_of_nat (nrows df) ++ " Orang") "Data Masuk";
          st_metric "⭐ Rata-rata Skor Global" (format_2f nan ++ " / 6.00") "Skala 1-6";
          st_metric "🏆 Pertanyaan Terbaik" "-" "-";
          st_metric "⚠️ Perlu Perhatian" "-" "-";
          st_plotly_chart (FigCounts (dist_global df_display));
          st_plotly_chart (FigCounts (dist_global df_display))],
         Returned tt))
  /\ (idx_all_na_raises lib = true ->
      dashboard_utama format_2f str_of_nat lib df df_display
        (numerik parse_float df_display)
      = ([], Raised "ValueError")).
Proof.
  intros Hsum Hne H.
  assert (Hd : dropna (flatten (values nan (numerik parse_float df_display))) = []).
  { apply dropna_all_na, values_all_na, numerik_all_na, H. }
  assert (Hr : rata_rata_global lib (numerik parse_float df_display) = nan).
  { unfold rata_rata_global, np_mean. rewrite Hd.
    now rewrite (added_up_nil [] _ (Hsum []) eq_refl). }
  pose proof (dashboard_utama_all_na format_2f str_of_nat lib df df_display _
                (numerik_nonempty parse_float _ Hne)
                (mean_per_q_all_na lib _ (numerik_all_na parse_float _ H))) as Hdash.
  repeat split; [exact Hd|exact Hr| |]; intros Hv; rewrite Hdash, Hv;
    [now rewrite Hr|reflexivity].
Qed.

Lemma rata_rata_global_all_missing_contoh :
  (sum_ok (pandas_contoh true)
   /\ [("Q1", [Str "bagus"; blank]); ("Q2", [blank; Str "-"])] <> []
   /\ Forall (fun c => is_nan (numeric_cell (fun _ => None) c) = true)
        (cells [("Q1", [Str "bagus"; blank]); ("Q2", [blank; Str "-"])]))
  /\ (dropna (flatten (values nan
                (numerik (fun _ => None) [("Q1", [Str "bagus"; blank]); ("Q2", [blank; Str "-"])])))
      = []
      /\ rata_rata_global (pandas_contoh true)
           (numerik (fun _ => None) [("Q1", [Str "bagus"; blank]); ("Q2", [blank; Str "-"])])
         = nan
      /\ (idx_all_na_raises (pandas_contoh true) = false ->
          dashboard_utama (fun _ => "nan") (fun _ => "2") (pandas_contoh true)
            [("Q1", [Str "bagus"; blank]); ("Q2", [blank; Str "-"])]
            [("Q1", [Str "bagus"; blank]); ("Q2", [blank; Str "-"])]
            (numerik (fun _ => None) [("Q1", [Str "bagus"; blank]); ("Q2", [blank; Str "-"])])
          = ([st_metric "👥 Total Responden"
                ("2" ++ " Orang") "Data Masuk";
              st_metric "⭐ Rata-rata Skor Global" ("nan" ++ " / 6.00") "Skala 1-6";
              st_metric "🏆 Pertanyaan Terbaik" "-" "-";
              st_metric "⚠️ Perlu Perhatian" "-" "-";
              st_plotly_chart
                (FigCounts (dist_global [("Q1", [Str "bagus"; blank]); ("Q2", [blank; Str "-"])]));
              st_plotly_chart
                (FigCounts (dist_global [("Q1", [Str "bagus"; blank]); ("Q2", [blank; Str "-"])]))],
             Returned tt))
      /\ (idx_all_na_raises (pandas_contoh true) = true ->
          dashboard_utama (fun _ => "nan") (fun _ => "2") (pandas_contoh true)
            [("Q1", [Str "bagus"; blank]); ("Q2", [blank; Str "-"])]
            [("Q1", [Str "bagus"; blank]); ("Q2", [blank; Str "-"])]
            (numerik (fun _ => None) [("Q1", [Str "bagus"; blank]); ("Q2", [blank; Str "-"])])
          = ([], Raised "ValueError"))).
Proof.
  assert (H1 : sum_ok (pandas_contoh true)) by apply pandas_contoh_sum_ok.
  assert (H2 : [("Q1", [Str "bagus"; blank]); ("Q2", [blank; Str "-"])] <> [])
    by discriminate.
  assert (H3 : Forall (fun c => is_nan (numeric_cell (fun _ => None) c) = true)
                 (cells [("Q1", [Str "bagus"; blank]); ("Q2", [blank; Str "-"])]))
    by (repeat constructor).
  split; [exact (conj H1 (conj H2 H3))|].
  exact (rata_rata_global_all_missing (fun _ => None) (fun _ => "nan") (fun _ => "2")
           (pandas_contoh true)
           [("Q1", [Str "bagus"; blank]); ("Q2", [blank; Str "-"])]
           [("Q1", [Str "bagus"; blank]); ("Q2", [blank; Str "-"])] H1 H2 H3).
Defined.

Lemma lex_lt_irrefl (a : Z * Z * Z) : ~ lex_lt a a.
Proof. destruct a as [[a1 a2] a3]. unfold lex_lt. lia. Qed.

Lemma leb_refl (x : float) : is_nan x = false -> (x <=? x)%float = true.
Proof. intros H. apply (leb_rk x x H H), lex_lt_irrefl. Qed.

(** X13: the two score cards bracket the means: when no mean is infinite,
    every question whose mean is a number has it between the worst score
    and the best score (both ends included), so the worst score is not
    above the best one. *)
Theorem mean_between_worst_and_best
    (lib : pandas) (df_num_display : DataFrame float) (q : string) (m : float) :
  In (q, m) (mean_per_q lib df_num_display) ->
  is_nan m = false ->
  Forall (fun e => is_infinity (snd e) = false) (mean_per_q lib df_num_display) ->
  (worst_score lib df_num_display <=? m)%float = true
  /\ (m <=? best_score lib df_num_display)%float = true
  /\ (worst_score lib df_num_display <=? best_score lib df_num_display)%float = true.
Proof.
  intros Hin Hm Hfin.
  assert (Hex : Exists (fun e => is_nan (snd e) = false) (mean_per_q lib df_num_display)).
  { apply Exists_exists. exists (q, m). now split. }
  assert (Hbetween : forall q m, In (q, m) (mean_per_q lib df_num_display) -> is_nan m = false ->
            (worst_score lib df_num_display <=? m)%float = true
            /\ (m <=? best_score lib df_num_display)%float = true).
  { clear q m Hin Hm Hex. intros q m Hin Hm.
    assert (Hfm : is_infinity m = false).
    { rewrite Forall_forall in Hfin. exact (Hfin _ Hin). }
    destruct (between_infinities m Hm Hfm) as [Hlo Hhi].
    split.
    - assert (Hbig : Exists (fun e => (snd e <? infinity)%float = true)
                       (mean_per_q lib df_num_display)).
      { apply Exists_exists. exists (q, m). now split. }
      destruct (idxmin_first lib _ Hbig) as (b & q' & w & a & Hs & _ & Hw & Hwn & Hb & Ha).
      unfold worst_score. rewrite Hw. rewrite Hs in Hin.
      apply in_app_or in Hin. destruct Hin as [Hin|[Hin|Hin]].
      + rewrite Forall_forall in Hb. destruct (Hb _ Hin) as [H|H]; simpl in H.
        * congruence.
        * now apply ltb_leb.
      + inversion Hin; subst. now apply leb_refl.
      + rewrite Forall_forall in Ha. destruct (Ha _ Hin) as [H|H]; simpl in H.
        * congruence.
        * exact H.
    - assert (Hbig : Exists (fun e => (neg_infinity <? snd e)%float = true)
                       (mean_per_q lib df_num_display)).
      { apply Exists_exists. exists (q, m). now split. }
      destruct (idxmax_first lib _ Hbig) as (b & q' & w & a & Hs & _ & Hw & Hwn & Hb & Ha).
      unfold best_score. rewrite Hw. rewrite Hs in Hin.
      apply in_app_or in Hin. destruct Hin as [Hin|[Hin|Hin]].
      + rewrite Forall_forall in Hb. destruct (Hb _ Hin) as [H|H]; simpl in H.
        * congruence.
        * now apply ltb_leb.
      + inversion Hin; subst. now apply leb_refl.
      + rewrite Forall_forall in Ha. destruct (Ha _ Hin) as [H|H]; simpl in H.
        * congruence.
        * exact H. }
  destruct (Hbetween q m Hin Hm) as [H1 H2]. repeat split; try assumption.
  assert (Hbig : Exists (fun e => (neg_infinity <? snd e)%float = true)
                   (mean_per_q lib df_num_display)).
  { apply Exists_exists. exists (q, m). split; [exact Hin|].
    rewrite Forall_forall in Hfin. exact (proj1 (between_infinities m Hm (Hfin _ Hin))). }
  destruct (idxmax_first lib _ Hbig) as (b & q' & w & a & Hs & _ & Hw & Hwn & _).
  assert (Hin' : In (q', w) (mean_per_q lib df_num_display)).
  { rewrite Hs. apply in_or_app. right. now left. }
  destruct (Hbetween q' w Hin' Hwn) as [H3 _].
  unfold best_score. now rewrite Hw.
Qed.

Lemma mean_between_worst_and_best_contoh :
  (In ("Q1", ((6 + 5 + 2) / 3)%float) (mean_per_q (pandas_contoh false) (numerik (fun _ => None) contoh))
   /\ is_nan ((6 + 5 + 2) / 3)%float = false
   /\ Forall (fun e => is_infinity (snd e) = false)
        (mean_per_q (pandas_contoh false) (numerik (fun _ => None) contoh)))
  /\ ((worst_score (pandas_contoh false) (numerik (fun _ => None) contoh) <=? (6 + 5 + 2) / 3)%float = true
      /\ ((6 + 5 + 2) / 3 <=? best_score (pandas_contoh false) (numerik (fun _ => None) contoh))%float = true
      /\ (worst_score (pandas_contoh false) (numerik (fun _ => None) contoh)
          <=? best_score (pandas_contoh false) (numerik (fun _ => None) contoh))%float = true).
Proof.
  assert (H1 : In ("Q1", ((6 + 5 + 2) / 3)%float)
                 (mean_per_q (pandas_contoh false) (numerik (fun _ => None) contoh))) by (now left).
  assert (H2 : is_nan ((6 + 5 + 2) / 3)%float = false) by reflexivity.
  assert (H3 : Forall (fun e => is_infinity (snd e) = false)
                 (mean_per_q (pandas_contoh false) (numerik (fun _ => None) contoh)))
    by (repeat constructor).
  split; [repeat split; assumption|].
  exact (mean_between_worst_and_best (pandas_contoh false)
           (numerik (fun _ => None) contoh) "Q1" _ H1 H2 H3).
Defined.

(** ** Binary64 arithmetic on whole numbers *)

Local Open Scope Z_scope.

Lemma Zdigits2_eq (m k : Z) : 2 ^ (k - 1) <= m < 2 ^ k -> 0 < k -> Zdigits2 m = k.
Proof.
  intros [Hlo Hhi] Hk.
  assert (Hm : 0 < m) by (pose proof (pow2_pos (k - 1) ltac:(lia)); lia).
  destruct m as [|p|p]; try lia. cbn [Zdigits2].
  destruct (digits_bounds p) as [Hdlo Hdhi].
  assert (H1 : 2 ^ (k - 1) < 2 ^ Zpos (digits2_pos p)) by lia.
  assert (H2 : 2 ^ (Zpos (digits2_pos p) - 1) < 2 ^ k) by lia.
  apply Z.pow_lt_mono_r_iff in H1; [|lia|lia].
  apply Z.pow_lt_mono_r_iff in H2; [|lia|lia].
  lia.
Qed.

(** Rounding to nearest never falls below a binary64 number that bounds
    the exact value from below. *)
Lemma binary_round_aux_ge (mx : positive) (ex : Z) (lx : location) (mA : positive) (eA : Z) :
  ex <= eA -> -1074 <= eA -> Zpos (digits2_pos mA) = 53 ->
  Zpos (digits2_pos mx) + ex - 53 < 971 ->
  Zpos mA * 2 ^ (eA - ex) <= Zpos mx ->
  exists m e,
    binary_round_aux prec emax false (Zpos mx) ex lx = S754_finite false m e
    /\ (eA < e \/ (e = eA /\ Zpos mA <= Zpos m)).
Proof.
  intros Hex HeA HdA Hov H.
  unfold binary_round_aux.
  destruct (shr_fexp prec emax (Zpos mx) ex lx) as [mrs' e'] eqn:H1.
  destruct (shr_fexp_spec _ _ _ _ _ (Pos2Z.is_nonneg mx) H1) as (He' & Hm' & _).
  cbn [Zdigits2] in He', Hm'.
  destruct (digits_bounds mx) as [Hdlo Hdhi].
  destruct (digits_bounds mA) as [HAlo HAhi]. rewrite HdA in HAlo, HAhi.
  set (d := Zpos (digits2_pos mx)) in *.
  pose proof (pow2_pos (eA - ex) ltac:(lia)) as HpA.
  assert (Hd : 53 + (eA - ex) <= d).
  { assert (Hlt : 2 ^ (52 + (eA - ex)) < 2 ^ d).
    { rewrite Z.pow_add_r by lia. change (2 ^ (53 - 1)) with (2 ^ 52) in HAlo. nia. }
    apply Z.pow_lt_mono_r_iff in Hlt; lia. }
  replace (Z.max (Z.max (d + ex - 53) (-1074) - ex) 0) with (d - 53) in He', Hm' by lia.
  pose proof (pow2_pos (d - 53) ltac:(lia)) as Hpn.
  assert (Hpd : 2 ^ d = 2 ^ 53 * 2 ^ (d - 53))
    by (rewrite <- Z.pow_add_r by lia; f_equal; lia).
  assert (Hpd1 : 2 ^ (d - 1) = 2 ^ 52 * 2 ^ (d - 53))
    by (rewrite <- Z.pow_add_r by lia; f_equal; lia).
  assert (Hm'b : 2 ^ 52 <= shr_m mrs' < 2 ^ 53).
  { rewrite Hm'. split.
    - apply Z.div_le_lower_bound; lia.
    - apply Z.div_lt_upper_bound; lia. }
  destruct (round_nearest_even_bounds (shr_m mrs') (loc_of_shr_record mrs')) as [Hr _].
  set (m1 := round_nearest_even (shr_m mrs') (loc_of_shr_record mrs')) in *.
  destruct (shr_fexp prec emax m1 e' loc_Exact) as [mrs'' e''] eqn:H2.
  assert (Hm10 : 0 <= m1) by lia.
  destruct (shr_fexp_spec _ _ _ _ _ Hm10 H2) as (He'' & Hm'' & _).
  destruct (Z.eq_dec m1 (2 ^ 53)) as [Heq|Hne].
  - rewrite Heq in He'', Hm''.
    change (Zdigits2 (2 ^ 53)) with 54 in He'', Hm''.
    replace (Z.max (Z.max (54 + e' - 53) (-1074) - e') 0) with 1 in He'', Hm'' by lia.
    change (2 ^ 53 / 2 ^ 1) with (Zpos 4503599627370496) in Hm''.
    rewrite Hm''. exists 4503599627370496%positive, e''.
    replace (e'' <=? emax - prec) with true
      by (symmetry; apply Z.leb_le; change (emax - prec) with 971; lia).
    split; [reflexivity|]. left. lia.
  - assert (Hdig : Zdigits2 m1 = 53) by (apply Zdigits2_eq; [change (2 ^ (53 - 1)) with (2 ^ 52)|]; lia).
    rewrite Hdig in He'', Hm''.
    replace (Z.max (Z.max (53 + e' - 53) (-1074) - e') 0) with 0 in He'', Hm'' by lia.
    rewrite Z.pow_0_r, Z.div_1_r in Hm''. rewrite Z.add_0_r in He''.
    rewrite Hm''. destruct m1 as [|p1|p1] eqn:Em1; try lia.
    exists p1, e''.
    replace (e'' <=? emax - prec) with true
      by (symmetry; apply Z.leb_le; change (emax - prec) with 971; lia).
    split; [reflexivity|].
    destruct (Z.eq_dec e'' eA) as [HeqA|HneA]; [right|left; lia].
    split; [assumption|].
    assert (Hn : d - 53 = eA - ex) by lia.
    assert (Zpos mA <= shr_m mrs'); [|lia].
    rewrite Hm', Hn. apply Z.div_le_lower_bound; lia.
Qed.

(** The same when the dividend of the rounding starts above the bound's
    exponent: a mantissa of 53 bits or more is only shifted right. *)
Lemma binary_round_aux_normal (mx : positive) (ex : Z) (lx : location) :
  53 <= Zpos (digits2_pos mx) ->
  -1074 <= ex -> Zpos (digits2_pos mx) + ex - 53 < 971 ->
  exists m e,
    binary_round_aux prec emax false (Zpos mx) ex lx = S754_finite false m e
    /\ ex <= e.
Proof.
  intros Hd He Hov.
  destruct (digits_bounds mx) as [Hdlo Hdhi].
  set (d := Zpos (digits2_pos mx)) in *.
  pose proof (pow2_pos (d - 53) ltac:(lia)) as Hpn.
  assert (Hpd1 : 2 ^ (d - 1) = 2 ^ 52 * 2 ^ (d - 53))
    by (rewrite <- Z.pow_add_r by lia; f_equal; lia).
  assert (H5 : Zpos 4503599627370496 * 2 ^ (ex + (d - 53) - ex) <= Zpos mx).
  { replace (ex + (d - 53) - ex) with (d - 53) by lia.
    change (Zpos 4503599627370496) with (2 ^ 52). lia. }
  destruct (binary_round_aux_ge mx ex lx 4503599627370496 (ex + (d - 53))
              ltac:(lia) ltac:(lia) eq_refl Hov H5) as (m & e & Hres & Hb).
  exists m, e. split; [exact Hres|lia].
Qed.

Lemma is_nan_finite (x : float) (s : bool) (m : positive) (e : Z) :
  Prim2SF x = S754_finite s m e -> is_nan x = false.
Proof.
  intros H. unfold is_nan. rewrite eqb_spec, H. unfold SFeqb, SFcompare.
  rewrite Z.compare_refl.
  destruct s; [rewrite Pos.compare_cont_refl|
               change (Pos.compare_cont Eq m m) with (Pos.compare m m);
               rewrite Pos.compare_refl]; reflexivity.
Qed.

Lemma quot_ge (c m2 q r N : Z) :
  0 < m2 -> N = m2 * q + r -> 0 <= r < m2 -> c * m2 <= N -> c <= q.
Proof. intros. nia. Qed.

Lemma quot_le (c m2 q r N : Z) :
  0 < m2 -> N = m2 * q + r -> 0 <= r < m2 -> N <= c * m2 ->
  q < c \/ (q = c /\ r = 0).
Proof. intros. nia. Qed.

Lemma pow2_split (x y : Z) : 0 <= x -> 0 <= y -> 2 ^ (x + y) = 2 ^ x * 2 ^ y.
Proof. intros. now apply Z.pow_add_r. Qed.

Lemma pow2_lt_inv (x y : Z) : 0 <= y -> 2 ^ x < 2 ^ y -> x < y.
Proof. intros Hy H. apply Z.pow_lt_mono_r_iff in H; lia. Qed.

(** The quotient that the division of two 53-bit mantissas rounds. *)
Lemma SFdiv_quotient (m1 m2 : positive) (e1 e2 : Z) :
  Zpos (digits2_pos m1) = 53 -> Zpos (digits2_pos m2) = 53 ->
  -52 <= e1 <= 0 -> -52 <= e2 <= 0 ->
  exists q r,
    SFdiv prec emax (S754_finite false m1 e1) (S754_finite false m2 e2)
    = binary_round_aux prec emax false (Zpos q) (e1 - e2 - 53) (new_location (Zpos m2) r)
    /\ Zpos m1 * 2 ^ 53 = Zpos m2 * Zpos q + r /\ 0 <= r < Zpos m2
    /\ 53 <= Zpos (digits2_pos q) <= 54.
Proof.
  intros Hd1 Hd2 He1 He2.
  destruct (digits_bounds m1) as [H1lo H1hi]. destruct (digits_bounds m2) as [H2lo H2hi].
  rewrite Hd1 in H1lo, H1hi. rewrite Hd2 in H2lo, H2hi.
  change (2 ^ (53 - 1)) with 4503599627370496 in *.
  change (2 ^ 53) with 9007199254740992 in *.
  unfold SFdiv, SFdiv_core_binary. cbn [Zdigits2]. rewrite Hd1, Hd2, fexp64.
  replace (Z.min (Z.max (53 + e1 - (53 + e2) - 53) (-1074)) (e1 - e2))
    with (e1 - e2 - 53) by lia.
  replace (e1 - e2 - (e1 - e2 - 53)) with 53 by lia.
  cbv iota. rewrite Z.shiftl_mul_pow2 by lia.
  change (2 ^ 53) with 9007199254740992.
  pose proof (Z_div_mod (Zpos m1 * 9007199254740992) (Zpos m2) ltac:(lia)) as Hdm.
  destruct (Z.div_eucl (Zpos m1 * 9007199254740992) (Zpos m2)) as [q r].
  destruct Hdm as [Hq Hr]. cbn [xorb].
  assert (Hq52 : 4503599627370496 <= q).
  { apply (quot_ge _ (Zpos m2) q r _ ltac:(lia) Hq Hr). clear - H1lo H2hi. nia. }
  assert (Hq54 : q < 18014398509481984).
  { clear - Hq Hr H1hi H2lo. nia. }
  destruct q as [|q|q]; try lia.
  exists q, r. repeat split; try lia.
  - destruct (digits_bounds q) as [_ Hqhi].
    apply Z.lt_succ_r. replace (Z.succ (Zpos (digits2_pos q))) with (Zpos (digits2_pos q) + 1) by lia.
    assert (Hlt : 2 ^ 52 < 2 ^ Zpos (digits2_pos q))
      by (change (2 ^ 52) with 4503599627370496; lia).
    apply pow2_lt_inv in Hlt; lia.
  - destruct (digits_bounds q) as [Hqlo _].
    assert (Hlt : 2 ^ (Zpos (digits2_pos q) - 1) < 2 ^ 54)
      by (change (2 ^ 54) with 18014398509481984; lia).
    apply pow2_lt_inv in Hlt; lia.
Qed.

(** A bracket of whole numbers, moved to the 53-bit mantissas. *)
Lemma bracket_mantissas (a S n mA m1 m2 eA e1 e2 : Z) :
  eA <= 0 -> e1 <= 0 -> e2 <= 0 ->
  mA = a * 2 ^ (- eA) -> m1 = S * 2 ^ (- e1) -> m2 = n * 2 ^ (- e2) ->
  (a * n <= S -> mA * m2 * 2 ^ (- e1) <= m1 * (2 ^ (- eA) * 2 ^ (- e2)))
  /\ (S <= a * n -> m1 * (2 ^ (- eA) * 2 ^ (- e2)) <= mA * m2 * 2 ^ (- e1)).
Proof.
  intros HeA He1 He2 -> -> ->.
  pose proof (pow2_pos (- eA) ltac:(lia)) as HpA.
  pose proof (pow2_pos (- e1) ltac:(lia)) as Hp1.
  pose proof (pow2_pos (- e2) ltac:(lia)) as Hp2.
  set (PA := 2 ^ (- eA)) in *. set (P1 := 2 ^ (- e1)) in *. set (P2 := 2 ^ (- e2)) in *.
  assert (HP : 0 <= P1 * PA * P2) by (apply Z.lt_le_incl; repeat apply Z.mul_pos_pos; assumption).
  split; intros H.
  - replace (a * PA * (n * P2) * P1) with ((a * n) * (P1 * PA * P2)) by ring.
    replace (S * P1 * (PA * P2)) with (S * (P1 * PA * P2)) by ring.
    now apply Z.mul_le_mono_nonneg_r.
  - replace (a * PA * (n * P2) * P1) with ((a * n) * (P1 * PA * P2)) by ring.
    replace (S * P1 * (PA * P2)) with (S * (P1 * PA * P2)) by ring.
    now apply Z.mul_le_mono_nonneg_r.
Qed.

(** The binary64 quotient of two whole numbers lies between two whole
    numbers that bracket the exact quotient. *)
Lemma float_div_between (a b S n : Z) :
  0 < a -> b < 2 ^ 53 -> 0 < n -> S < 2 ^ 53 -> a * n <= S <= b * n ->
  (float_of_Z a <=? float_of_Z S / float_of_Z n)%float = true
  /\ (float_of_Z S / float_of_Z n <=? float_of_Z b)%float = true
  /\ is_nan (float_of_Z S / float_of_Z n)%float = false.
Proof.
  intros Ha Hb Hn HS [Hlo Hhi]. unfold float_of_Z.
  assert (HS0 : 0 < S) by nia.
  assert (Hab : a <= b) by nia.
  assert (Hn53 : n < 2 ^ 53) by nia.
  assert (Ha53 : a < 2 ^ 53) by lia.
  destruct (float_of_Z_exact a ltac:(lia)) as (mA & eA & HPA & HdA & HeA & HmA).
  destruct (float_of_Z_exact b ltac:(lia)) as (mB & eB & HPB & HdB & HeB & HmB).
  destruct (float_of_Z_exact S ltac:(lia)) as (m1 & e1 & HP1 & Hd1 & He1 & Hm1).
  destruct (float_of_Z_exact n ltac:(lia)) as (m2 & e2 & HP2 & Hd2 & He2 & Hm2).
  destruct (bracket_mantissas b S n _ _ _ eB e1 e2 ltac:(lia) ltac:(lia) ltac:(lia)
              HmB Hm1 Hm2) as [_ Hup].
  specialize (Hup Hhi).
  destruct (bracket_mantissas a S n _ _ _ eA e1 e2 ltac:(lia) ltac:(lia) ltac:(lia)
              HmA Hm1 Hm2) as [Hdown _].
  specialize (Hdown Hlo).
  clear HmA HmB Hm1 Hm2 Hlo Hhi HS0 Hab Hn53 Ha53 Ha Hb Hn HS.
  destruct (digits_bounds mA) as [HAlo HAhi]. destruct (digits_bounds mB) as [HBlo HBhi].
  destruct (digits_bounds m1) as [H1lo H1hi]. destruct (digits_bounds m2) as [H2lo H2hi].
  rewrite HdA in HAlo, HAhi. rewrite HdB in HBlo, HBhi.
  rewrite Hd1 in H1lo, H1hi. rewrite Hd2 in H2lo, H2hi.
  change (2 ^ (53 - 1)) with (2 ^ 52) in *.
  pose proof (pow2_pos (- eA) ltac:(lia)) as HpA.
  pose proof (pow2_pos (- eB) ltac:(lia)) as HpB.
  pose proof (pow2_pos (- e1) ltac:(lia)) as Hp1.
  pose proof (pow2_pos (- e2) ltac:(lia)) as Hp2.
  destruct (SFdiv_quotient m1 m2 e1 e2 Hd1 Hd2 He1 He2) as (q & r & Hdiv & Hq & Hr & Hdq).
  set (e' := e1 - e2 - 53) in *.
  (* upper bound *)
  assert (He'B : e' <= eB).
  { assert (Hlt : 2 ^ (52 + (- eB) + (- e2)) < 2 ^ (106 + (- e1))).
    { rewrite !pow2_split by lia. change (2 ^ 106) with (2 ^ 53 * 2 ^ 53).
      apply Z.le_lt_trans with (Zpos m1 * (2 ^ (- eB) * 2 ^ (- e2))).
      - rewrite <- Z.mul_assoc. apply Z.mul_le_mono_nonneg_r; [|exact H1lo].
        apply Z.lt_le_incl, Z.mul_pos_pos; assumption.
      - apply Z.le_lt_trans with (1 := Hup).
        apply Z.mul_lt_mono_pos_r; [assumption|].
        apply Z.mul_lt_mono_nonneg; lia. }
    apply pow2_lt_inv in Hlt; unfold e'; lia. }
  assert (HXB : 2 ^ (eB - e') * (2 ^ (- eB) * 2 ^ (- e2)) = 2 ^ 53 * 2 ^ (- e1)).
  { unfold e'. rewrite <- !pow2_split by lia. f_equal. lia. }
  pose proof (pow2_pos (eB - e') ltac:(lia)) as HpXB.
  assert (Hqup : Zpos m1 * 2 ^ 53 <= Zpos mB * 2 ^ (eB - e') * Zpos m2).
  { apply Z.mul_le_mono_pos_r with (p := 2 ^ (- eB) * 2 ^ (- e2));
      [apply Z.mul_pos_pos; assumption|].
    replace (Zpos mB * 2 ^ (eB - e') * Zpos m2 * (2 ^ (- eB) * 2 ^ (- e2)))
      with (Zpos mB * Zpos m2 * (2 ^ (eB - e') * (2 ^ (- eB) * 2 ^ (- e2)))) by ring.
    rewrite HXB.
    replace (Zpos m1 * 2 ^ 53 * (2 ^ (- eB) * 2 ^ (- e2)))
      with (Zpos m1 * (2 ^ (- eB) * 2 ^ (- e2)) * 2 ^ 53) by ring.
    replace (Zpos mB * Zpos m2 * (2 ^ 53 * 2 ^ (- e1)))
      with (Zpos mB * Zpos m2 * 2 ^ (- e1) * 2 ^ 53) by ring.
    apply Z.mul_le_mono_nonneg_r; [lia|exact Hup]. }
  assert (Hupper : binary_round_aux prec emax false (Zpos q) e'
                     (new_location (Zpos m2) r) = S754_zero false
                   \/ exists m e,
                       binary_round_aux prec emax false (Zpos q) e'
                         (new_location (Zpos m2) r) = S754_finite false m e
                       /\ (e < eB \/ (e = eB /\ Zpos m <= Zpos mB))).
  { apply binary_round_aux_le; try lia.
    destruct (quot_le (Zpos mB * 2 ^ (eB - e')) (Zpos m2) (Zpos q) r _
                ltac:(lia) Hq Hr Hqup) as [Hlt|[Heq Hr0]].
    - left. exact Hlt.
    - right. split; [exact Heq|]. subst r. apply new_location_0. }
  (* lower bound *)
  assert (Hlower : exists m e,
             binary_round_aux prec emax false (Zpos q) e'
               (new_location (Zpos m2) r) = S754_finite false m e
             /\ (eA < e \/ (e = eA /\ Zpos mA <= Zpos m))).
  { destruct (Z_le_gt_dec e' eA) as [Hle|Hgt].
    - apply binary_round_aux_ge; try lia.
      assert (HXA : 2 ^ (eA - e') * (2 ^ (- eA) * 2 ^ (- e2)) = 2 ^ 53 * 2 ^ (- e1)).
      { unfold e'. rewrite <- !pow2_split by lia. f_equal. lia. }
      pose proof (pow2_pos (eA - e') ltac:(lia)) as HpXA.
      apply (quot_ge _ (Zpos m2) (Zpos q) r _ ltac:(lia) Hq Hr).
      apply Z.mul_le_mono_pos_r with (p := 2 ^ (- eA) * 2 ^ (- e2));
        [apply Z.mul_pos_pos; assumption|].
      replace (Zpos mA * 2 ^ (eA - e') * Zpos m2 * (2 ^ (- eA) * 2 ^ (- e2)))
        with (Zpos mA * Zpos m2 * (2 ^ (eA - e') * (2 ^ (- eA) * 2 ^ (- e2)))) by ring.
      rewrite HXA.
      replace (Zpos m1 * 2 ^ 53 * (2 ^ (- eA) * 2 ^ (- e2)))
        with (Zpos m1 * (2 ^ (- eA) * 2 ^ (- e2)) * 2 ^ 53) by ring.
      replace (Zpos mA * Zpos m2 * (2 ^ 53 * 2 ^ (- e1)))
        with (Zpos mA * Zpos m2 * 2 ^ (- e1) * 2 ^ 53) by ring.
      apply Z.mul_le_mono_nonneg_r; [lia|exact Hdown].
    - destruct (binary_round_aux_normal q e' (new_location (Zpos m2) r))
        as (m & e & Hres & Hge); try lia.
      exists m, e. split; [exact Hres|]. left. lia. }
  destruct Hlower as (m & e & Hres & HbA).
  destruct Hupper as [Hz|(m' & e'' & Hres' & HbB)]; [congruence|].
  rewrite Hres in Hres'. inversion Hres'; subst m' e''.
  assert (HP : Prim2SF (of_uint63 (Uint63.of_Z S) / of_uint63 (Uint63.of_Z n))
               = S754_finite false m e).
  { rewrite div_spec, HP1, HP2. unfold SF64div. rewrite Hdiv. exact Hres. }
  repeat split.
  - rewrite leb_spec, HPA, HP. apply SFleb_finite_le.
    destruct HbA as [H|[H1 H2]]; [left; lia|right; split; [lia|exact H2]].
  - rewrite leb_spec, HPB, HP. now apply SFleb_finite_le.
  - exact (is_nan_finite _ _ _ _ HP).
Qed.

(** *** Exact sums *)

Lemma digits_scaled (M m : positive) (k : Z) :
  Zpos (digits2_pos m) = 53 -> 0 <= k -> Zpos M = Zpos m * 2 ^ k ->
  Zpos (digits2_pos M) = 53 + k.
Proof.
  intros Hd Hk HM. destruct (digits_bounds m) as [Hlo Hhi]. rewrite Hd in Hlo, Hhi.
  pose proof (pow2_pos k Hk) as Hp.
  change (Zpos (digits2_pos M)) with (Zdigits2 (Zpos M)).
  apply Zdigits2_eq; [|lia]. rewrite HM.
  replace (53 + k - 1) with ((53 - 1) + k) by lia.
  rewrite !pow2_split by lia. split.
  - apply Z.mul_le_mono_nonneg_r; lia.
  - apply Z.mul_lt_mono_pos_r; lia.
Qed.

Lemma digits_unscaled (M m : positive) (k : Z) :
  Zpos (digits2_pos m) = 53 -> 0 <= k -> Zpos m = Zpos M * 2 ^ k ->
  Zpos (digits2_pos M) = 53 - k.
Proof.
  intros Hd Hk HM. destruct (digits_bounds m) as [Hlo Hhi]. rewrite Hd in Hlo, Hhi.
  pose proof (pow2_pos k Hk) as Hp.
  assert (Hk53 : k < 53).
  { apply pow2_lt_inv; [lia|]. apply Z.le_lt_trans with (Zpos m); [|exact Hhi].
    rewrite HM. clear - Hp. nia. }
  change (Zpos (digits2_pos M)) with (Zdigits2 (Zpos M)).
  apply Zdigits2_eq; [|lia]. rewrite HM in Hlo, Hhi.
  replace (53 - 1) with ((53 - k - 1) + k) in Hlo by lia.
  replace 53 with ((53 - k) + k) in Hhi at 1 by lia.
  rewrite pow2_split in Hlo, Hhi by lia. split.
  - apply Z.mul_le_mono_pos_r with (p := 2 ^ k); assumption.
  - apply Z.mul_lt_mono_pos_r with (p := 2 ^ k); assumption.
Qed.

(** A mantissa that is a 53-bit one shifted left is rounded back to it,
    exactly. *)
Lemma binary_round_aux_exact (m : positive) (e : Z) (M : positive) (E : Z) :
  Zpos (digits2_pos m) = 53 -> -1074 <= e <= 971 -> E <= e ->
  Zpos M = Zpos m * 2 ^ (e - E) ->
  binary_round_aux prec emax false (Zpos M) E loc_Exact = S754_finite false m e.
Proof.
  intros Hd He HE HM. unfold binary_round_aux.
  pose proof (digits_scaled M m (e - E) Hd ltac:(lia) HM) as HdM.
  pose proof (pow2_pos (e - E) ltac:(lia)) as Hp.
  destruct (shr_fexp prec emax (Zpos M) E loc_Exact) as [mrs' e'] eqn:H1.
  destruct (shr_fexp_spec _ _ _ _ _ (Pos2Z.is_nonneg M) H1) as (He' & Hm' & Hloc').
  cbn [Zdigits2] in He', Hm', Hloc'. rewrite HdM in He', Hm', Hloc'.
  replace (Z.max (Z.max (53 + (e - E) + E - 53) (-1074) - E) 0) with (e - E)
    in He', Hm', Hloc' by lia.
  rewrite HM in Hm', Hloc'.
  rewrite Z.div_mul in Hm' by lia.
  rewrite (Hloc' eq_refl (Z.mod_mul (Zpos m) (2 ^ (e - E)) ltac:(lia))), Hm'.
  cbn [round_nearest_even].
  replace e' with e by lia.
  destruct (shr_fexp prec emax (Zpos m) e loc_Exact) as [mrs'' e''] eqn:H2.
  destruct (shr_fexp_spec _ _ _ _ _ (Pos2Z.is_nonneg m) H2) as (He'' & Hm'' & _).
  cbn [Zdigits2] in He'', Hm''. rewrite Hd in He'', Hm''.
  replace (Z.max (Z.max (53 + e - 53) (-1074) - e) 0) with 0 in He'', Hm'' by lia.
  rewrite Z.pow_0_r, Z.div_1_r in Hm''. rewrite Z.add_0_r in He''. subst e''.
  rewrite Hm''.
  replace (e <=? emax - prec) with true
    by (symmetry; apply Z.leb_le; change (emax - prec) with 971; lia).
  reflexivity.
Qed.

(** Rounding a whole number below 2^53, however its mantissa is scaled,
    gives the conversion of that number. *)
Lemma binary_round_int (M : positive) (E z : Z) :
  0 < z < 2 ^ 53 -> -1074 <= E <= 0 -> Zpos M = z * 2 ^ (- E) ->
  binary_round prec emax false M E = Prim2SF (float_of_Z z).
Proof.
  intros Hz HE HM. unfold float_of_Z.
  destruct (float_of_Z_exact z Hz) as (m & e & -> & Hd & He & Hm).
  unfold binary_round. rewrite fexp64.
  pose proof (pow2_pos (- E) ltac:(lia)) as HpE.
  pose proof (pow2_pos (- e) ltac:(lia)) as Hpe.
  destruct (Z_le_gt_dec e E) as [Hle|Hgt].
  - (* the mantissa is shifted left to 53 bits *)
    assert (Hmm : Zpos m = Zpos M * 2 ^ (E - e)).
    { rewrite Hm, HM, <- Z.mul_assoc, <- pow2_split by lia. do 2 f_equal. lia. }
    rewrite (digits_unscaled M m (E - e) Hd ltac:(lia) Hmm).
    replace (Z.max (53 - (E - e) + E - 53) (-1074)) with e by lia.
    unfold shl_align. destruct (e - E) as [|k|k] eqn:Ek; try lia.
    + assert (M = m)
        by (replace (E - e) with 0 in Hmm by lia; rewrite Z.pow_0_r in Hmm; lia).
      subst M. replace E with e by lia. apply binary_round_aux_canonical; lia.
    + destruct (iter_xO_spec k M) as [Hv _].
      assert (Pos.iter xO M k = m).
      { apply Pos2Z.inj. rewrite Hv, Hmm. do 2 f_equal. lia. }
      rewrite H. apply binary_round_aux_canonical; lia.
  - (* the mantissa has more than 53 bits, all the low ones 0 *)
    assert (Hmm : Zpos M = Zpos m * 2 ^ (e - E)).
    { rewrite Hm, HM, <- Z.mul_assoc, <- pow2_split by lia. do 2 f_equal. lia. }
    rewrite (digits_scaled M m (e - E) Hd ltac:(lia) Hmm).
    replace (Z.max (53 + (e - E) + E - 53) (-1074)) with e by lia.
    unfold shl_align. destruct (e - E) as [|k|k] eqn:Ek; try lia.
    apply binary_round_aux_exact; try lia. now rewrite Ek.
Qed.

Lemma shl_align_fst (m : positive) (e ez : Z) :
  ez <= e -> Zpos (fst (shl_align m e ez)) = Zpos m * 2 ^ (e - ez).
Proof.
  intros H. unfold shl_align. destruct (ez - e) as [|k|k] eqn:Ek; try lia.
  - cbn [fst]. replace (e - ez) with 0 by lia. lia.
  - cbn [fst]. destruct (iter_xO_spec k m) as [-> _]. do 2 f_equal. lia.
Qed.

Lemma float_of_Z_0 : Prim2SF (float_of_Z 0) = S754_zero false.
Proof. reflexivity. Qed.

(** Adding two whole numbers is exact as long as the sum is below 2^53. *)
Lemma float_of_Z_add (a b : Z) :
  0 <= a -> 0 <= b -> a + b < 2 ^ 53 ->
  (float_of_Z a + float_of_Z b)%float = float_of_Z (a + b).
Proof.
  intros Ha Hb Hab. apply Prim2SF_inj. rewrite add_spec. unfold SF64add.
  destruct (Z.eq_dec a 0) as [->|Ha0].
  - rewrite float_of_Z_0, Z.add_0_l.
    destruct (Z.eq_dec b 0) as [->|Hb0]; [reflexivity|].
    unfold float_of_Z.
    destruct (float_of_Z_exact b ltac:(lia)) as (mb & eb & -> & _). reflexivity.
  - destruct (Z.eq_dec b 0) as [->|Hb0].
    + rewrite float_of_Z_0, Z.add_0_r. unfold float_of_Z.
      destruct (float_of_Z_exact a ltac:(lia)) as (ma & ea & -> & _). reflexivity.
    + unfold float_of_Z at 1 2.
      destruct (float_of_Z_exact a ltac:(lia)) as (ma & ea & -> & Hda & Hea & Hma).
      destruct (float_of_Z_exact b ltac:(lia)) as (mb & eb & -> & Hdb & Heb & Hmb).
      unfold SFadd. cbn [cond_Zopp].
      set (ez := Z.min ea eb).
      pose proof (shl_align_fst ma ea ez ltac:(unfold ez; lia)) as Hpa.
      pose proof (shl_align_fst mb eb ez ltac:(unfold ez; lia)) as Hpb.
      set (pa := fst (shl_align ma ea ez)) in *.
      set (pb := fst (shl_align mb eb ez)) in *.
      change (Zpos pa + Zpos pb) with (Zpos (pa + pb)). cbn [binary_normalize].
      apply binary_round_int; [lia|unfold ez; lia|].
      rewrite Pos2Z.inj_add, Hpa, Hpb, Hma, Hmb, <- !Z.mul_assoc.
      rewrite <- !pow2_split by (unfold ez; lia).
      replace (- ea + (ea - ez)) with (- ez) by lia.
      replace (- eb + (eb - ez)) with (- ez) by lia.
      ring.
Qed.

(** Summation of whole numbers is exact, whatever the order. *)
Lemma np_sum_whole (ks : list Z) (acc : Z) :
  Forall (fun k => 0 <= k) ks -> 0 <= acc -> acc + Z_sum ks < 2 ^ 53 ->
  fold_left PrimFloat.add (map float_of_Z ks) (float_of_Z acc)
  = float_of_Z (acc + Z_sum ks).
Proof.
  intros Hks. revert acc. induction Hks as [|k ks Hk Hks IH]; intros acc Hacc Hlt.
  - simpl. f_equal. unfold Z_sum. simpl. lia.
  - rewrite Z_sum_cons in Hlt |- *. cbn [map fold_left].
    assert (H0 : 0 <= Z_sum ks).
    { clear - Hks. induction Hks as [|x l Hx Hl IH]; [unfold Z_sum; simpl; lia|].
      rewrite Z_sum_cons. lia. }
    rewrite float_of_Z_add by lia.
    rewrite IH by lia. f_equal. lia.
Qed.

Lemma Z_sum_app (l1 l2 : list Z) : Z_sum (l1 ++ l2) = Z_sum l1 + Z_sum l2.
Proof.
  induction l1 as [|x l1 IH]; [reflexivity|].
  cbn [Datatypes.app]. rewrite !Z_sum_cons, IH. lia.
Qed.

Lemma Z_sum_perm (l l' : list Z) : Permutation l l' -> Z_sum l = Z_sum l'.
Proof.
  induction 1 as [|x l l' H IH|x y l|l l' l'' H1 IH1 H2 IH2];
    rewrite ?Z_sum_cons; lia.
Qed.

Lemma Z_sum_nonneg (l : list Z) : Forall (fun k => 0 <= k) l -> 0 <= Z_sum l.
Proof.
  induction 1 as [|x l Hx Hl IH]; [reflexivity|]. rewrite Z_sum_cons. lia.
Qed.

(** The same for every order and every association of the additions. *)
Lemma added_up_whole (l : list float) (s : float) :
  added_up l s ->
  forall ks, l = map float_of_Z ks -> Forall (fun k => 0 <= k) ks ->
             Z_sum ks < 2 ^ 53 -> s = float_of_Z (Z_sum ks).
Proof.
  induction 1 as [|x|l1 l2 s1 s2 H1 IH1 H2 IH2|l l' s Hp H IH]; intros ks E Hks Hlt.
  - symmetry in E. apply map_eq_nil in E. now subst ks.
  - destruct ks as [|k [|k' ks]]; try discriminate E.
    inversion E. reflexivity.
  - symmetry in E. apply map_eq_app in E. destruct E as (ks1 & ks2 & -> & E1 & E2).
    apply Forall_app in Hks. destruct Hks as [Hk1 Hk2].
    pose proof (Z_sum_nonneg _ Hk1). pose proof (Z_sum_nonneg _ Hk2).
    rewrite Z_sum_app in Hlt |- *.
    rewrite (IH1 ks1) by (auto; lia). rewrite (IH2 ks2) by (auto; lia).
    apply float_of_Z_add; lia.
  - subst l'. apply Permutation_map_inv in Hp. destruct Hp as (ks' & -> & Hp).
    rewrite (Z_sum_perm _ _ Hp) in Hlt |- *.
    apply IH; [reflexivity| |exact Hlt].
    revert Hks. now apply Permutation_Forall.
Qed.

Local Close Scope Z_scope.

(** ** Means of scores *)

Lemma numeric_cell_nilai (parse_float : string -> option float) (c : cell) :
  in_skala c = true ->
  numeric_cell parse_float c = float_of_Z (nilai c)
  /\ is_nan (numeric_cell parse_float c) = false
  /\ (1 <= nilai c <= 6)%Z.
Proof.
  intros H.
  destruct (in_skala_cases c H) as [-> | [-> | [-> | [-> | [-> | ->]]]]];
    (split; [reflexivity|split; [reflexivity|split; discriminate]]).
Qed.

Lemma nilai_cons (c : cell) (row : list cell) :
  jumlah_skor (c :: row)
  = ((if in_skala c then nilai c else 0) + jumlah_skor row)%Z.
Proof.
  unfold jumlah_skor. rewrite !count_eq_cons.
  destruct (in_skala c) eqn:E.
  - destruct (in_skala_cases c E) as [-> | [-> | [-> | [-> | [-> | ->]]]]];
      cbv [nilai cell_eqb String.eqb Ascii.eqb Bool.eqb]; lia.
  - unfold in_skala, URUTAN_SKALA in E. cbn [existsb] in E.
    repeat (apply orb_false_iff in E; destruct E as [?E E]).
    rewrite E0, E1, E2, E3, E4, E5. lia.
Qed.

Lemma jumlah_skor_bounds (row : list cell) :
  (banyak in_skala row <= jumlah_skor row <= 6 * banyak in_skala row)%Z.
Proof.
  rewrite <- count_eq_six. unfold jumlah_skor.
  pose proof (count_eq_nonneg row "SS"). pose proof (count_eq_nonneg row "S").
  pose proof (count_eq_nonneg row "CS"). pose proof (count_eq_nonneg row "CTS").
  pose proof (count_eq_nonneg row "TS"). pose proof (count_eq_nonneg row "STS").
  lia.
Qed.

Lemma float_of_Z_notnan (z : Z) :
  (0 <= z < 2 ^ 53)%Z -> is_nan (float_of_Z z) = false.
Proof.
  intros Hz. destruct (Z.eq_dec z 0) as [->|Hnz]; [reflexivity|].
  unfold float_of_Z.
  destruct (float_of_Z_exact z ltac:(lia)) as (m & e & H & _).
  exact (is_nan_finite _ _ _ _ H).
Qed.

Section Scores.

Variable parse_float : string -> option float.
Variable lib : pandas.
Hypothesis np_sum_adds : sum_ok lib.

Lemma dropna_scores (row : list cell) :
  Forall (skala_atau_kosong parse_float) row ->
  dropna (map (numeric_cell parse_float) row)
  = map float_of_Z (map nilai (filter in_skala row))
  /\ Z_sum (map nilai (filter in_skala row)) = jumlah_skor row
  /\ Forall (fun k => (0 <= k)%Z) (map nilai (filter in_skala row)).
Proof.
  induction 1 as [|c row Hc H (IH1 & IH2 & IH3)].
  - repeat split. constructor.
  - rewrite nilai_cons. cbn [map filter]. unfold dropna in *. cbn [filter].
    unfold skala_atau_kosong in Hc.
    destruct (in_skala c) eqn:E.
    + destruct (numeric_cell_nilai parse_float c E) as (Hn & Hnan & Hb).
      unfold notna at 1. rewrite Hnan. cbn [negb map].
      rewrite IH1, Hn, Z_sum_cons, IH2. repeat split. constructor; [lia|exact IH3].
    + destruct Hc as [Hc|Hc]; [congruence|].
      unfold notna at 1. rewrite Hc. cbn [negb].
      rewrite IH1, IH2. repeat split. exact IH3.
Qed.

(** A cell without a score counts 0 in the sum of its column. *)
Lemma fillna_scores (row : list cell) :
  Forall (skala_atau_kosong parse_float) row ->
  map (fillna 0) (map (numeric_cell parse_float) row) = map float_of_Z (map nilai row)
  /\ Z_sum (map nilai row) = jumlah_skor row
  /\ Forall (fun k => (0 <= k)%Z) (map nilai row).
Proof.
  induction 1 as [|c row Hc H (IH1 & IH2 & IH3)].
  - repeat split. constructor.
  - rewrite nilai_cons. cbn [map]. rewrite IH1, Z_sum_cons, IH2.
    unfold skala_atau_kosong in Hc.
    destruct (in_skala c) eqn:E.
    + destruct (numeric_cell_nilai parse_float c E) as (Hn & Hnan & Hb).
      rewrite (fillna_id _ _ Hnan), Hn. repeat split. constructor; [lia|exact IH3].
    + destruct Hc as [Hc|Hc]; [congruence|].
      assert (Hz : nilai c = 0%Z).
      { unfold in_skala, URUTAN_SKALA in E. cbn [existsb] in E.
        repeat (apply orb_false_iff in E; destruct E as [?E E]).
        unfold nilai. now rewrite E0, E1, E2, E3, E4, E5. }
      unfold fillna. rewrite Hc, Hz. repeat split. constructor; [lia|exact IH3].
Qed.

Lemma quotient_on_scale (row : list cell) :
  (1 <= banyak in_skala row < 2 ^ 50)%Z ->
  (1 <=? float_of_Z (jumlah_skor row) / float_of_Z (banyak in_skala row))%float = true
  /\ (float_of_Z (jumlah_skor row) / float_of_Z (banyak in_skala row) <=? 6)%float = true
  /\ is_nan (float_of_Z (jumlah_skor row) / float_of_Z (banyak in_skala row))%float = false.
Proof.
  intros Hn. pose proof (jumlah_skor_bounds row) as Hb.
  change 1%float with (float_of_Z 1). change 6%float with (float_of_Z 6).
  assert (H53 : (jumlah_skor row < 2 ^ 53)%Z)
    by (change (2 ^ 53)%Z with (8 * 2 ^ 50)%Z; lia).
  exact (float_div_between 1 6 (jumlah_skor row) (banyak in_skala row)
           eq_refl eq_refl ltac:(lia) H53 ltac:(lia)).
Qed.

(** The mean of the scores of a list of cells: one division of two whole
    numbers, rounded once, and on the Scale. *)
Lemma np_mean_scores (row : list cell) :
  Forall (skala_atau_kosong parse_float) row ->
  (1 <= banyak in_skala row < 2 ^ 50)%Z ->
  np_mean lib (dropna (map (numeric_cell parse_float) row))
  = (float_of_Z (jumlah_skor row) / float_of_Z (banyak in_skala row))%float.
Proof.
  intros H Hn. destruct (dropna_scores row H) as (Hd & Hs & Hpos).
  pose proof (jumlah_skor_bounds row) as Hb.
  unfold np_mean, float_of_nat.
  replace (length (dropna (map (numeric_cell parse_float) row)))
    with (length (filter in_skala row)) by (now rewrite Hd, !length_map).
  fold (banyak in_skala row). f_equal.
  rewrite (added_up_whole _ _ (np_sum_adds _) _ Hd Hpos); [now rewrite Hs|].
  rewrite Hs. change (2 ^ 53)%Z with (8 * 2 ^ 50)%Z. lia.
Qed.

Lemma nanmean_scores (row : list cell) :
  Forall (skala_atau_kosong parse_float) row ->
  (1 <= banyak in_skala row < 2 ^ 50)%Z ->
  nanmean lib (map (numeric_cell parse_float) row)
  = (float_of_Z (jumlah_skor row) / float_of_Z (banyak in_skala row))%float.
Proof.
  intros H Hn. destruct (dropna_scores row H) as (Hd & _ & _).
  destruct (fillna_scores row H) as (Hf & Hs & Hpos).
  pose proof (jumlah_skor_bounds row) as Hb.
  assert (Hlen : length (dropna (map (numeric_cell parse_float) row))
                 = length (filter in_skala row)) by (now rewrite Hd, !length_map).
  unfold nanmean.
  destruct (dropna (map (numeric_cell parse_float) row)) as [|v vals] eqn:Ed.
  - exfalso. unfold banyak in Hn. rewrite <- Hlen in Hn. simpl in Hn. lia.
  - unfold float_of_nat. rewrite Hlen. fold (banyak in_skala row). f_equal.
    rewrite (added_up_whole _ _ (np_sum_adds _) _ Hf Hpos); [now rewrite Hs|].
    rewrite Hs. change (2 ^ 53)%Z with (8 * 2 ^ 50)%Z. lia.
Qed.

Lemma nrows_applymap {A B} (f : A -> B) (df : DataFrame A) :
  nrows (applymap f df) = nrows df.
Proof. now rewrite !nrows_shape, shape_applymap. Qed.

Lemma values_numerik (df : DataFrame cell) :
  flatten (values nan (numerik parse_float df))
  = map (numeric_cell parse_float) (flatten (values blank df)).
Proof.
  rewrite numerik_applymap. unfold flatten, values.
  rewrite nrows_applymap, concat_map, map_map. f_equal.
  apply map_ext. intros i. unfold iloc, applymap. rewrite !map_map.
  apply map_ext. intros [q col]. cbn [snd].
  change nan with (numeric_cell parse_float blank). apply map_nth.
Qed.

Lemma Forall_flatten_values (P : cell -> Prop) (df : DataFrame cell) :
  P blank -> Forall P (cells df) -> Forall P (flatten (values blank df)).
Proof.
  intros Hb H. unfold flatten, values. apply Forall_concat.
  apply Forall_map, Forall_forall. intros i _. unfold iloc.
  apply Forall_map, Forall_forall. intros [q col] Hin. cbn [snd].
  destruct (nth_in_or_default i col blank) as [Hn | Hd]; [|rewrite Hd; exact Hb].
  rewrite Forall_forall in H. apply H. unfold cells.
  apply in_concat. exists col. split; [|exact Hn].
  apply (in_map snd _ _ Hin).
Qed.

Lemma jumlah_skor_flatten_values (df : DataFrame cell) :
  rectangular df ->
  jumlah_skor (flatten (values blank df)) = jumlah_skor (cells df)
  /\ banyak in_skala (flatten (values blank df)) = banyak in_skala (cells df).
Proof.
  intros Hr. rewrite <- !count_eq_six. unfold jumlah_skor.
  now rewrite !(count_eq_flatten_values df _ Hr).
Qed.

(** The mean of a column of whole numbers and missing cells. *)
Lemma nanmean_kolom (ks : list (option Z)) :
  Forall (fun k => match k with Some z => (0 <= z)%Z | None => True end) ks ->
  (jumlah_ada ks < 2 ^ 53)%Z ->
  (1 <= banyak_ada ks)%Z ->
  nanmean lib (kolom ks)
  = (float_of_Z (jumlah_ada ks) / float_of_Z (banyak_ada ks))%float.
Proof.
  intros Hks Hlt Hn.
  set (d := fun k : option Z => match k with Some z => z | None => 0%Z end).
  assert (Hpos : Forall (fun k => (0 <= k)%Z) (map d ks)).
  { apply Forall_map. revert Hks. apply Forall_impl. intros [z|]; simpl; lia. }
  assert (Hle : Forall (fun k => match k with Some z => (z < 2 ^ 53)%Z | None => True end) ks).
  { unfold jumlah_ada in Hlt. fold d in Hlt. clear Hn.
    induction Hks as [|k ks Hk Hks IH]; [constructor|].
    cbn [map] in Hlt, Hpos. rewrite Z_sum_cons in Hlt.
    apply Forall_cons_iff in Hpos. destruct Hpos as [Hd Hpos].
    pose proof (Z_sum_nonneg _ Hpos).
    constructor; [destruct k; simpl in *; lia|apply IH; [lia|exact Hpos]]. }
  assert (Hf : map (fillna 0) (kolom ks) = map float_of_Z (map d ks)).
  { unfold kolom. rewrite !map_map. apply map_ext_in. intros [z|] Hin; [|reflexivity].
    apply fillna_id, float_of_Z_notnan.
    rewrite Forall_forall in Hks, Hle. specialize (Hks _ Hin). specialize (Hle _ Hin).
    simpl in *. lia. }
  assert (Hlen : length (dropna (kolom ks))
                 = length (filter (fun k => match k with Some _ => true | None => false end) ks)).
  { unfold kolom, dropna. clear Hf Hpos Hn Hlt.
    induction ks as [|[z|] ks IH]; [reflexivity| |].
    - apply Forall_cons_iff in Hks, Hle. destruct Hks as [Hz Hks]. destruct Hle as [Hz' Hle].
      cbn [map filter]. unfold notna at 1.
      rewrite float_of_Z_notnan by (simpl in *; lia). cbn [negb length].
      now rewrite IH.
    - apply Forall_cons_iff in Hks, Hle. cbn [map filter]. apply IH; tauto. }
  unfold nanmean.
  destruct (dropna (kolom ks)) as [|v vals] eqn:Ed.
  - exfalso. unfold banyak_ada in Hn. rewrite <- Hlen in Hn. simpl in Hn. lia.
  - unfold float_of_nat. rewrite Hlen. fold (banyak_ada ks). f_equal.
    now rewrite (added_up_whole _ _ (np_sum_adds _) _ Hf Hpos Hlt).
Qed.

(** The means of the scenario table, whatever the order of the sums. *)
Lemma mean_per_q_contoh :
  mean_per_q lib (numerik parse_float contoh)
  = [("Q1", ((6 + 5 + 2) / 3)%float); ("Q2", ((4 + 4 + 1) / 3)%float)].
Proof.
  change (mean_per_q lib (numerik parse_float contoh))
    with [("Q1", nanmean lib (map (numeric_cell parse_float) [Str "SS"; Str "S"; Str "TS"]));
          ("Q2", nanmean lib (map (numeric_cell parse_float) [Str "CS"; Str "CS"; Str "STS"]))].
  rewrite !nanmean_scores;
    try reflexivity; try (repeat constructor; left; reflexivity);
    split; try discriminate; reflexivity.
Qed.

End Scores.

(** C5: [mean_per_q] gives every question the mean of its own column, in
    column order; [avg_scores] holds the same (question, mean) rows, sorted
    by mean for the chart.  The mean of a column ignores the missing cells:
    it is the sum of the cells, the missing ones left out (they count 0),
    added in the order numpy chooses, divided by the number of cells that
    are not missing.  For a column of whole numbers the order does not
    matter and the mean is that exact quotient, rounded once: [6; NaN; 5]
    has the mean 11/2.  A column whose cells are all missing has the mean
    NaN, not an error.  On the scenario table the means are (6+5+2)/3 for Q1
    and (4+4+1)/3 for Q2. *)
Theorem mean_per_q_arithmetic
    (parse_float : string -> option float) (lib : pandas)
    (df_num_display : DataFrame float) (col : list float) (ks : list (option Z)) :
  sum_ok lib ->
  sort_ok lib ->
  mean_per_q lib df_num_display
  = map (fun c => (fst c, nanmean lib (snd c))) df_num_display
  /\ (Permutation (mean_per_q lib df_num_display) (avg_scores lib df_num_display)
      /\ ascending (map snd (avg_scores lib df_num_display)))
  /\ (dropna col <> [] ->
      exists s, added_up (map (fillna 0) col) s
                /\ nanmean lib col = (s / float_of_nat (length (dropna col)))%float)
  /\ (Forall (fun k => match k with Some z => (0 <= z)%Z | None => True end) ks ->
      (jumlah_ada ks < 2 ^ 53)%Z ->
      (1 <= banyak_ada ks)%Z ->
      nanmean lib (kolom ks)
      = (float_of_Z (jumlah_ada ks) / float_of_Z (banyak_ada ks))%float)
  /\ nanmean lib [6; nan; 5]%float = (11 / 2)%float
  /\ (Forall (fun x => is_nan x = true) col -> nanmean lib col = nan)
  /\ mean_per_q lib (numerik parse_float contoh)
     = [("Q1", ((6 + 5 + 2) / 3)%float); ("Q2", ((4 + 4 + 1) / 3)%float)].
Proof.
  intros Hsum Hsort.
  repeat match goal with |- _ /\ _ => split end.
  - reflexivity.
  - apply (Hsort (mean lib df_num_display)).
  - apply (Hsort (mean lib df_num_display)).
  - intros Hne. exists (np_sum lib (map (fillna 0) col)). split; [apply Hsum|].
    unfold nanmean. destruct (dropna col); [congruence|reflexivity].
  - now apply nanmean_kolom.
  - apply (nanmean_kolom lib Hsum [Some 6%Z; None; Some 5%Z]).
    + repeat constructor; discriminate.
    + reflexivity.
    + discriminate.
  - intros H. unfold nanmean. now rewrite dropna_all_na.
  - now apply mean_per_q_contoh.
Qed.

Lemma mean_per_q_arithmetic_contoh :
  (sum_ok (pandas_contoh false) /\ sort_ok (pandas_contoh false))
  /\ (mean_per_q (pandas_contoh false) [("Q1", [2; nan]%float); ("Q2", [1; 1]%float)]
      = map (fun c => (fst c, nanmean (pandas_contoh false) (snd c)))
          [("Q1", [2; nan]%float); ("Q2", [1; 1]%float)]
      /\ (Permutation
            (mean_per_q (pandas_contoh false) [("Q1", [2; nan]%float); ("Q2", [1; 1]%float)])
            (avg_scores (pandas_contoh false) [("Q1", [2; nan]%float); ("Q2", [1; 1]%float)])
          /\ ascending
               (map snd (avg_scores (pandas_contoh false)
                           [("Q1", [2; nan]%float); ("Q2", [1; 1]%float)])))
      /\ (dropna [6; nan; 5]%float <> [] ->
          exists s, added_up (map (fillna 0) [6; nan; 5]%float) s
                    /\ nanmean (pandas_contoh false) [6; nan; 5]%float
                       = (s / float_of_nat (length (dropna [6; nan; 5]%float)))%float)
      /\ (Forall (fun k => match k with Some z => (0 <= z)%Z | None => True end)
            [Some 4%Z; None; Some 1%Z] ->
          (jumlah_ada [Some 4%Z; None; Some 1%Z] < 2 ^ 53)%Z ->
          (1 <= banyak_ada [Some 4%Z; None; Some 1%Z])%Z ->
          nanmean (pandas_contoh false) (kolom [Some 4%Z; None; Some 1%Z])
          = (float_of_Z (jumlah_ada [Some 4%Z; None; Some 1%Z])
             / float_of_Z (banyak_ada [Some 4%Z; None; Some 1%Z]))%float)
      /\ nanmean (pandas_contoh false) [6; nan; 5]%float = (11 / 2)%float
      /\ (Forall (fun x => is_nan x = true) [6; nan; 5]%float ->
          nanmean (pandas_contoh false) [6; nan; 5]%float = nan)
      /\ mean_per_q (pandas_contoh false) (numerik (fun _ => None) contoh)
         = [("Q1", ((6 + 5 + 2) / 3)%float); ("Q2", ((4 + 4 + 1) / 3)%float)]).
Proof.
  assert (H1 : sum_ok (pandas_contoh false)) by apply pandas_contoh_sum_ok.
  assert (H2 : sort_ok (pandas_contoh false)) by apply pandas_contoh_sort_ok.
  split; [exact (conj H1 H2)|].
  exact (mean_per_q_arithmetic (fun _ => None) (pandas_contoh false)
           [("Q1", [2; nan]%float); ("Q2", [1; 1]%float)] [6; nan; 5]%float
           [Some 4%Z; None; Some 1%Z] H1 H2).
Defined.

(** X14: the mean of a question is the weighted average of its
    distribution: when every cell of the question is a Scale code or has no
    score, and at least one is a code, the mean is the quotient of two whole
    numbers -- six times the count of SS plus five times that of S, and so
    on, over the number of codes -- rounded once, whatever the order in
    which numpy adds the scores; it is a number and it lies on the Scale,
    from 1 to 6. *)
Theorem mean_per_q_on_scale
    (parse_float : string -> option float) (lib : pandas) (df_display : DataFrame cell)
    (q : string) (col : list cell) :
  sum_ok lib ->
  In (q, col) df_display ->
  Forall (skala_atau_kosong parse_float) col ->
  Exists (fun c => in_skala c = true) col ->
  (Z.of_nat (length col) < 2 ^ 50)%Z ->
  let m := nanmean lib (map (numeric_cell parse_float) col) in
  In (q, m) (mean_per_q lib (numerik parse_float df_display))
  /\ m = (float_of_Z (jumlah_skor col) / float_of_Z (banyak in_skala col))%float
  /\ (1 <=? m)%float = true
  /\ (m <=? 6)%float = true
  /\ is_nan m = false.
Proof.
  intros Hsum Hin Hcol Hex Hlen m.
  assert (Hn : (1 <= banyak in_skala col < 2 ^ 50)%Z).
  { pose proof (banyak_in_skala_pos col Hex). pose proof (banyak_le_length in_skala col). lia. }
  assert (Hm : m = (float_of_Z (jumlah_skor col) / float_of_Z (banyak in_skala col))%float)
    by (apply (nanmean_scores parse_float lib Hsum); assumption).
  split.
  - unfold mean_per_q, mean, apply_columns. rewrite numerik_applymap.
    unfold applymap. rewrite map_map.
    apply (in_map (fun c => (fst c, nanmean lib (map (numeric_cell parse_float) (snd c))))
             _ _ Hin).
  - split; [exact Hm|]. rewrite Hm. now apply quotient_on_scale.
Qed.

Lemma mean_per_q_on_scale_contoh :
  (sum_ok (pandas_contoh false)
   /\ In ("Q1", [Str "SS"; Str "S"; Str "TS"]) contoh
   /\ Forall (skala_atau_kosong (fun _ => None)) [Str "SS"; Str "S"; Str "TS"]
   /\ Exists (fun c => in_skala c = true) [Str "SS"; Str "S"; Str "TS"]
   /\ (Z.of_nat (length [Str "SS"; Str "S"; Str "TS"]) < 2 ^ 50)%Z)
  /\ (let m := nanmean (pandas_contoh false)
                 (map (numeric_cell (fun _ => None)) [Str "SS"; Str "S"; Str "TS"]) in
      In ("Q1", m) (mean_per_q (pandas_contoh false) (numerik (fun _ => None) contoh))
      /\ m = (float_of_Z (jumlah_skor [Str "SS"; Str "S"; Str "TS"])
              / float_of_Z (banyak in_skala [Str "SS"; Str "S"; Str "TS"]))%float
      /\ (1 <=? m)%float = true
      /\ (m <=? 6)%float = true
      /\ is_nan m = false).
Proof.
  assert (H0 : sum_ok (pandas_contoh false)) by apply pandas_contoh_sum_ok.
  assert (H1 : In ("Q1", [Str "SS"; Str "S"; Str "TS"]) contoh) by (now left).
  assert (H2 : Forall (skala_atau_kosong (fun _ => None)) [Str "SS"; Str "S"; Str "TS"])
    by (repeat constructor; left; reflexivity).
  assert (H3 : Exists (fun c => in_skala c = true) [Str "SS"; Str "S"; Str "TS"])
    by (now constructor).
  assert (H4 : (Z.of_nat (length [Str "SS"; Str "S"; Str "TS"]) < 2 ^ 50)%Z)
    by reflexivity.
  split; [exact (conj H0 (conj H1 (conj H2 (conj H3 H4))))|].
  exact (mean_per_q_on_scale (fun _ => None) (pandas_contoh false) contoh "Q1" _
           H0 H1 H2 H3 H4).
Defined.

(** X15: the global mean is the weighted average of the global
    distribution: on a rectangular frame whose cells are Scale codes or have
    no score, with at least one code, it is the sum of the scores of all the
    cells over the number of codes, rounded once (neither the row-major
    order of the flattening nor the order of numpy's additions matters); it
    is a number from 1 to 6. *)
Theorem rata_rata_global_on_scale
    (parse_float : string -> option float) (lib : pandas) (df_display : DataFrame cell) :
  sum_ok lib ->
  rectangular df_display ->
  Forall (skala_atau_kosong parse_float) (cells df_display) ->
  Exists (fun c => in_skala c = true) (cells df_display) ->
  (Z.of_nat (length (cells df_display)) < 2 ^ 50)%Z ->
  let m := rata_rata_global lib (numerik parse_float df_display) in
  m = (float_of_Z (jumlah_skor (cells df_display))
       / float_of_Z (banyak in_skala (cells df_display)))%float
  /\ (1 <=? m)%float = true
  /\ (m <=? 6)%float = true
  /\ is_nan m = false.
Proof.
  intros Hsum Hr Hcells Hex Hlen m.
  destruct (jumlah_skor_flatten_values df_display Hr) as [Hj Hb].
  assert (Hn : (1 <= banyak in_skala (cells df_display) < 2 ^ 50)%Z).
  { pose proof (banyak_in_skala_pos _ Hex).
    pose proof (banyak_le_length in_skala (cells df_display)). lia. }
  assert (Hall : Forall (skala_atau_kosong parse_float) (flatten (values blank df_display))).
  { apply Forall_flatten_values; [right; reflexivity|exact Hcells]. }
  assert (Hm : m = (float_of_Z (jumlah_skor (cells df_display))
                    / float_of_Z (banyak in_skala (cells df_display)))%float).
  { unfold m, rata_rata_global. rewrite values_numerik.
    rewrite (np_mean_scores parse_float lib Hsum) by (rewrite ?Hb; assumption).
    now rewrite Hj, Hb. }
  split; [exact Hm|]. rewrite Hm. now apply quotient_on_scale.
Qed.

Lemma rata_rata_global_on_scale_contoh :
  (sum_ok (pandas_contoh false)
   /\ rectangular contoh
   /\ Forall (skala_atau_kosong (fun _ => None)) (cells contoh)
   /\ Exists (fun c => in_skala c = true) (cells contoh)
   /\ (Z.of_nat (length (cells contoh)) < 2 ^ 50)%Z)
  /\ (let m := rata_rata_global (pandas_contoh false) (numerik (fun _ => None) contoh) in
      m = (float_of_Z (jumlah_skor (cells contoh))
           / float_of_Z (banyak in_skala (cells contoh)))%float
      /\ (1 <=? m)%float = true
      /\ (m <=? 6)%float = true
      /\ is_nan m = false).
Proof.
  assert (H0 : sum_ok (pandas_contoh false)) by apply pandas_contoh_sum_ok.
  assert (H1 : rectangular contoh) by (repeat constructor).
  assert (H2 : Forall (skala_atau_kosong (fun _ => None)) (cells contoh))
    by (repeat constructor; left; reflexivity).
  assert (H3 : Exists (fun c => in_skala c = true) (cells contoh))
    by (now constructor).
  assert (H4 : (Z.of_nat (length (cells contoh)) < 2 ^ 50)%Z) by reflexivity.
  split; [exact (conj H0 (conj H1 (conj H2 (conj H3 H4))))|].
  exact (rata_rata_global_on_scale (fun _ => None) (pandas_contoh false) contoh
           H0 H1 H2 H3 H4).
Defined.

(** ** Best and worst question *)




(** ** The script past the guards *)



(** ** Percentages of a unanimous question *)

Lemma leb_antisym_finite (x y : float) (m : positive) (e : Z) :
  Prim2SF x = S754_finite false m e ->
  (x <=? y)%float = true -> (y <=? x)%float = true -> y = x.
Proof.
  intros Hx H1 H2. apply Prim2SF_inj. rewrite leb_spec, Hx in H1, H2. rewrite Hx.
  unfold SFleb, SFcompare in H1, H2.
  destruct (Prim2SF y) as [s|s| |s my ey]; try destruct s; try discriminate.
  rewrite (Z.compare_antisym ey e) in H1.
  destruct (Z.compare_spec ey e) as [E|E|E]; cbn [CompOpp] in H1; try discriminate.
  subst ey.
  change (Pos.compare_cont Eq my m) with (Pos.compare my m) in H2.
  change (Pos.compare_cont Eq m my) with (Pos.compare m my) in H1.
  rewrite (Pos.compare_antisym my m) in H1.
  destruct (Pos.compare_spec my m) as [M|M|M]; cbn [CompOpp] in H1; try discriminate.
  now subst my.
Qed.

Lemma persen_nol (total : Z) :
  (0 < total < 2 ^ 53)%Z -> persen 0 total = 0%float.
Proof.
  intros Ht. unfold persen.
  assert (H : (float_of_Z 0 / float_of_Z total)%float = 0%float).
  { apply Prim2SF_inj. rewrite div_spec, float_of_Z_0. unfold float_of_Z.
    destruct (float_of_Z_exact total Ht) as (m & e & -> & _). reflexivity. }
  rewrite H. reflexivity.
Qed.

Lemma persen_penuh (total : Z) :
  (0 < total < 2 ^ 53)%Z -> persen total total = 100%float.
Proof.
  intros Ht. unfold persen.
  assert (H : (float_of_Z total / float_of_Z total)%float = 1%float).
  { destruct (float_div_between 1 1 total total eq_refl eq_refl ltac:(lia) ltac:(lia)
                ltac:(lia)) as (H1 & H2 & _).
    apply (leb_antisym_finite 1%float _ 4503599627370496 (-52) eq_refl H1 H2). }
  rewrite H. reflexivity.
Qed.

(** X16: on a question whose Scale answers all fall in one category the
    percentages are exact: the category holds 100 and the two others 0, so
    the three stored percentages do add up to exactly 100. *)
Theorem persen_unanimous (q : string) (row : list cell) :
  Exists (fun c => in_skala c = true) row ->
  (Z.of_nat (length row) < 2 ^ 53)%Z ->
  let r := cat_row_of q (hitung_kategori row) in
  (Positif r = Total r ->
   (Pct_Positif r, Pct_Netral r, Pct_Negatif r) = (100, 0, 0)%float)
  /\ (Netral r = Total r ->
      (Pct_Positif r, Pct_Netral r, Pct_Negatif r) = (0, 100, 0)%float)
  /\ (Negatif r = Total r ->
      (Pct_Positif r, Pct_Netral r, Pct_Negatif r) = (0, 0, 100)%float)
  /\ (Positif r = Total r \/ Netral r = Total r \/ Negatif r = Total r ->
      jumlah_persen r = 100%float).
Proof.
  intros H Hlen. apply banyak_in_skala_pos in H.
  pose proof (banyak_le_length in_skala row) as Hle.
  rewrite <- jumlah3_hitung_kategori in H, Hle.
  assert (Hnn : (0 <= fst (fst (hitung_kategori row)))%Z
                /\ (0 <= snd (fst (hitung_kategori row)))%Z
                /\ (0 <= snd (hitung_kategori row))%Z).
  { unfold hitung_kategori. simpl.
    pose proof (count_eq_nonneg row "SS"). pose proof (count_eq_nonneg row "S").
    pose proof (count_eq_nonneg row "CS"). pose proof (count_eq_nonneg row "CTS").
    pose proof (count_eq_nonneg row "TS"). pose proof (count_eq_nonneg row "STS").
    lia. }
  destruct (hitung_kategori row) as [[pos neu] neg]. simpl in H, Hle, Hnn.
  destruct Hnn as (Hp & Hn & Hg).
  assert (Ht : replace_0_1 (pos + neu + neg) = (pos + neu + neg)%Z).
  { unfold replace_0_1. destruct (Z.eqb_spec (pos + neu + neg) 0); lia. }
  cbv zeta. unfold jumlah_persen, cat_row_of. simpl. rewrite Ht.
  assert (Hpos : pos = (pos + neu + neg)%Z ->
                 (persen pos (pos + neu + neg), persen neu (pos + neu + neg),
                  persen neg (pos + neu + neg)) = (100, 0, 0)%float).
  { intros E. assert (neu = 0%Z) by lia. assert (neg = 0%Z) by lia. subst neu neg.
    rewrite !Z.add_0_r. rewrite persen_penuh, persen_nol by lia. reflexivity. }
  assert (Hneu : neu = (pos + neu + neg)%Z ->
                 (persen pos (pos + neu + neg), persen neu (pos + neu + neg),
                  persen neg (pos + neu + neg)) = (0, 100, 0)%float).
  { intros E. assert (pos = 0%Z) by lia. assert (neg = 0%Z) by lia. subst pos neg.
    rewrite Z.add_0_l, Z.add_0_r. rewrite persen_penuh, persen_nol by lia. reflexivity. }
  assert (Hneg : neg = (pos + neu + neg)%Z ->
                 (persen pos (pos + neu + neg), persen neu (pos + neu + neg),
                  persen neg (pos + neu + neg)) = (0, 0, 100)%float).
  { intros E. assert (pos = 0%Z) by lia. assert (neu = 0%Z) by lia. subst pos neu.
    rewrite !Z.add_0_l. rewrite persen_penuh, persen_nol by lia. reflexivity. }
  repeat match goal with |- _ /\ _ => split end; try assumption.
  intros [E|[E|E]];
    [specialize (Hpos E); injection Hpos as E1 E2 E3
    |specialize (Hneu E); injection Hneu as E1 E2 E3
    |specialize (Hneg E); injection Hneg as E1 E2 E3];
    rewrite E1, E2, E3; reflexivity.
Qed.

Lemma persen_unanimous_contoh :
  (Exists (fun c => in_skala c = true) [Str "SS"; Str "S"; blank; Str "SS"]
   /\ (Z.of_nat (length [Str "SS"; Str "S"; blank; Str "SS"]) < 2 ^ 53)%Z)
  /\ (let r := cat_row_of "Q1" (hitung_kategori [Str "SS"; Str "S"; blank; Str "SS"]) in
      (Positif r = Total r ->
       (Pct_Positif r, Pct_Netral r, Pct_Negatif r) = (100, 0, 0)%float)
      /\ (Netral r = Total r ->
          (Pct_Positif r, Pct_Netral r, Pct_Negatif r) = (0, 100, 0)%float)
      /\ (Negatif r = Total r ->
          (Pct_Positif r, Pct_Netral r, Pct_Negatif r) = (0, 0, 100)%float)
      /\ (Positif r = Total r \/ Netral r = Total r \/ Negatif r = Total r ->
          jumlah_persen r = 100%float)).
Proof.
  assert (H1 : Exists (fun c => in_skala c = true) [Str "SS"; Str "S"; blank; Str "SS"])
    by (now constructor).
  assert (H2 : (Z.of_nat (length [Str "SS"; Str "S"; blank; Str "SS"]) < 2 ^ 53)%Z)
    by reflexivity.
  split; [split; assumption|].
  exact (persen_unanimous "Q1" [Str "SS"; Str "S"; blank; Str "SS"] H1 H2).
Defined.

(** ** The error of a stored percentage *)

Local Open Scope Z_scope.

(** Rounding moves a value by less than one unit in the last place: the
    result lies between the value truncated to 53 bits and the next
    binary64 number. *)
Lemma binary_round_aux_ulp (mx : positive) (ex : Z) (lx : location) :
  53 <= Zpos (digits2_pos mx) ->
  -1074 <= ex + (Zpos (digits2_pos mx) - 53) < 971 ->
  exists m e,
    binary_round_aux prec emax false (Zpos mx) ex lx = S754_finite false m e
    /\ ex + (Zpos (digits2_pos mx) - 53) <= e
    /\ 2 ^ 52 <= Zpos m < 2 ^ 53
    /\ Zpos mx / 2 ^ (Zpos (digits2_pos mx) - 53) * 2 ^ (Zpos (digits2_pos mx) - 53)
       <= Zpos m * 2 ^ (e - ex)
       <= (Zpos mx / 2 ^ (Zpos (digits2_pos mx) - 53) + 1)
          * 2 ^ (Zpos (digits2_pos mx) - 53).
Proof.
  intros Hd Hrange.
  unfold binary_round_aux.
  destruct (shr_fexp prec emax (Zpos mx) ex lx) as [mrs' e'] eqn:H1.
  destruct (shr_fexp_spec _ _ _ _ _ (Pos2Z.is_nonneg mx) H1) as (He' & Hm' & _).
  cbn [Zdigits2] in He', Hm'.
  destruct (digits_bounds mx) as [Hdlo Hdhi].
  set (d := Zpos (digits2_pos mx)) in *.
  replace (Z.max (Z.max (d + ex - 53) (-1074) - ex) 0) with (d - 53) in He', Hm' by lia.
  set (n := d - 53) in *.
  assert (Hn : 0 <= n) by (unfold n; lia).
  pose proof (pow2_pos n Hn) as Hpn.
  assert (Hpd : 2 ^ d = 2 ^ 53 * 2 ^ n)
    by (rewrite <- Z.pow_add_r by lia; f_equal; unfold n; lia).
  assert (Hpd1 : 2 ^ (d - 1) = 2 ^ 52 * 2 ^ n)
    by (rewrite <- Z.pow_add_r by lia; f_equal; unfold n; lia).
  assert (Hm'b : 2 ^ 52 <= shr_m mrs' < 2 ^ 53).
  { rewrite Hm'. split.
    - apply Z.div_le_lower_bound; lia.
    - apply Z.div_lt_upper_bound; lia. }
  rewrite <- Hm'.
  destruct (round_nearest_even_bounds (shr_m mrs') (loc_of_shr_record mrs')) as [Hr _].
  set (m1 := round_nearest_even (shr_m mrs') (loc_of_shr_record mrs')) in *.
  destruct (shr_fexp prec emax m1 e' loc_Exact) as [mrs'' e''] eqn:H2.
  assert (Hm10 : 0 <= m1) by lia.
  destruct (shr_fexp_spec _ _ _ _ _ Hm10 H2) as (He'' & Hm'' & _).
  destruct (Z.eq_dec m1 (2 ^ 53)) as [Heq|Hne].
  - rewrite Heq in He'', Hm''.
    change (Zdigits2 (2 ^ 53)) with 54 in He'', Hm''.
    replace (Z.max (Z.max (54 + e' - 53) (-1074) - e') 0) with 1 in He'', Hm'' by lia.
    change (2 ^ 53 / 2 ^ 1) with (Zpos 4503599627370496) in Hm''.
    rewrite Hm''. exists 4503599627370496%positive, e''.
    replace (e'' <=? emax - prec) with true
      by (symmetry; apply Z.leb_le; change (emax - prec) with 971; lia).
    split; [reflexivity|]. split; [lia|]. split; [split; reflexivity|].
    replace (e'' - ex) with (1 + n) by lia.
    rewrite Z.pow_add_r by lia.
    rewrite Z.mul_assoc.
    change (Zpos 4503599627370496 * 2 ^ 1) with (2 ^ 53).
    assert (Hs : shr_m mrs' + 1 = 2 ^ 53) by lia.
    rewrite Hs. split; [|lia].
    apply Z.mul_le_mono_nonneg_r; lia.
  - assert (Hdig : Zdigits2 m1 = 53)
      by (apply Zdigits2_eq; [change (2 ^ (53 - 1)) with (2 ^ 52)|]; lia).
    rewrite Hdig in He'', Hm''.
    replace (Z.max (Z.max (53 + e' - 53) (-1074) - e') 0) with 0 in He'', Hm'' by lia.
    rewrite Z.pow_0_r, Z.div_1_r in Hm''. rewrite Z.add_0_r in He''.
    rewrite Hm''. destruct m1 as [|p1|p1] eqn:Em1; try lia.
    exists p1, e''.
    replace (e'' <=? emax - prec) with true
      by (symmetry; apply Z.leb_le; change (emax - prec) with 971; lia).
    split; [reflexivity|]. split; [lia|]. split; [lia|].
    replace (e'' - ex) with n by lia.
    split; apply Z.mul_le_mono_nonneg_r; lia.
Qed.

Local Close Scope Z_scope.

Local Open Scope Q_scope.

Lemma pow2_Q (n : Z) : (0 <= n)%Z -> inject_Z (2 ^ n) == 2 ^ n.
Proof. intros H. rewrite Zpower_Qpower by exact H. reflexivity. Qed.

Lemma pow2_Q_pos (e : Z) : 0 < 2 ^ e.
Proof. apply Qpower_0_lt. reflexivity. Qed.

Lemma pow2_Q_add (a b : Z) : 2 ^ (a + b) == 2 ^ a * 2 ^ b.
Proof. apply Qpower_plus. discriminate. Qed.

Lemma pow2_Q_le (a b : Z) : (a <= b)%Z -> 2 ^ a <= 2 ^ b.
Proof. intros H. apply Qpower_le_compat_l; [exact H|discriminate]. Qed.

(** Two numbers between the same neighbours of a grid of step [2^n] are
    at most one step apart, also after scaling by [2^ex]. *)
Lemma rounded_near (mx m : positive) (ex e n : Z) (X : Q) :
  (0 <= n)%Z -> (ex + n <= e)%Z ->
  (Zpos mx / 2 ^ n * 2 ^ n <= Zpos m * 2 ^ (e - ex)
   <= (Zpos mx / 2 ^ n + 1) * 2 ^ n)%Z ->
  inject_Z (Zpos mx) <= X <= inject_Z (Zpos mx) + 1 ->
  Qabs (inject_Z (Zpos m) * 2 ^ e - X * 2 ^ ex) <= 2 ^ (ex + n).
Proof.
  intros Hn He [Hlo Hhi] [HX1 HX2].
  pose proof (pow2_pos n Hn) as Hpn.
  set (k := (Zpos mx / 2 ^ n)%Z) in *.
  assert (Hk1 : (k * 2 ^ n <= Zpos mx)%Z).
  { unfold k. rewrite Z.mul_comm. apply Z.mul_div_le. lia. }
  assert (Hk2 : (Zpos mx + 1 <= (k + 1) * 2 ^ n)%Z).
  { pose proof (Z.mod_pos_bound (Zpos mx) (2 ^ n) Hpn).
    pose proof (Z.div_mod (Zpos mx) (2 ^ n) ltac:(lia)) as Hdm. fold k in Hdm. lia. }
  assert (Ee : 2 ^ e == 2 ^ (e - ex) * 2 ^ ex).
  { rewrite <- pow2_Q_add. replace (e - ex + ex)%Z with e by lia. reflexivity. }
  apply Qabs_Qle_condition.
  rewrite pow2_Q_add, Ee.
  rewrite <- (pow2_Q n), <- (pow2_Q (e - ex)) by lia.
  pose proof (pow2_Q_pos ex) as Hs.
  set (s := 2 ^ ex) in *.
  rewrite Zle_Qle in Hlo, Hhi, Hk1, Hk2.
  rewrite !inject_Z_mult in Hlo. rewrite !inject_Z_mult, inject_Z_plus in Hhi.
  rewrite inject_Z_mult in Hk1. rewrite inject_Z_mult, !inject_Z_plus in Hk2.
  set (w := inject_Z (2 ^ n)) in *. set (M := inject_Z (Zpos m)) in *.
  set (u := inject_Z (2 ^ (e - ex))) in *. set (a := inject_Z k) in *.
  set (x := inject_Z (Zpos mx)) in *.
  change (inject_Z 1) with 1 in *.
  assert (H1 : - w <= M * u - X) by lra.
  assert (H2 : M * u - X <= w) by lra.
  split; nra.
Qed.

Lemma inject_Z_pos_neq (z : Z) : (0 < z)%Z -> ~ inject_Z z == 0.
Proof. intros H E. unfold Qeq in E. simpl in E. lia. Qed.

Lemma pow2_Q_neq (e : Z) : ~ 2 ^ e == 0.
Proof. pose proof (pow2_Q_pos e) as H. intros E. rewrite E in H. discriminate. Qed.

(** The stored quotient of two whole numbers, the first not above the
    second, is within [2^-52] of the exact one (and at most 1). *)
Lemma div_error (c t : Z) :
  (1 <= c <= t)%Z -> (t < 2 ^ 53)%Z ->
  exists m e,
    Prim2SF (float_of_Z c / float_of_Z t) = S754_finite false m e
    /\ (-105 <= e)%Z
    /\ (e < -52 \/ (e = -52 /\ Zpos m <= 2 ^ 52))%Z
    /\ (2 ^ 52 <= Zpos m < 2 ^ 53)%Z
    /\ Qabs (inject_Z (Zpos m) * 2 ^ e - inject_Z c / inject_Z t) <= 2 ^ (-52).
Proof.
  intros Hc Ht. unfold float_of_Z. rewrite div_spec.
  destruct (float_of_Z_exact t ltac:(lia)) as (m2 & e2 & -> & Hd2 & He2 & Hm2).
  destruct (float_of_Z_exact c ltac:(lia)) as (m1 & e1 & -> & Hd1 & He1 & Hm1).
  assert (He12 : (e1 <= e2)%Z).
  { destruct (digits_bounds m1) as [Hlo1 Hhi1]. destruct (digits_bounds m2) as [Hlo2 Hhi2].
    rewrite Hd1 in *. rewrite Hd2 in *.
    destruct (Z_le_gt_dec e1 e2) as [|Hgt]; [assumption|exfalso].
    assert (H1 : (2 ^ (- e2) = 2 ^ (e1 - e2) * 2 ^ (- e1))%Z)
      by (rewrite <- Z.pow_add_r by lia; f_equal; lia).
    assert (H2 : (2 ^ 1 <= 2 ^ (e1 - e2))%Z) by (apply Z.pow_le_mono_r; lia).
    pose proof (pow2_pos (- e1) ltac:(lia)).
    change (2 ^ (53 - 1))%Z with 4503599627370496%Z in *.
    change (2 ^ 53)%Z with 9007199254740992%Z in *.
    change (2 ^ 1)%Z with 2%Z in *. nia. }
  assert (Hle : (Zpos m1 <= Zpos m2 * 2 ^ (e2 - e1))%Z).
  { assert (H1 : (2 ^ (- e1) = 2 ^ (e2 - e1) * 2 ^ (- e2))%Z)
      by (rewrite <- Z.pow_add_r by lia; f_equal; lia).
    pose proof (pow2_pos (- e2) ltac:(lia)).
    pose proof (pow2_pos (e2 - e1) ltac:(lia)).
    rewrite Hm1, Hm2, H1. nia. }
  destruct (SFdiv_quotient m1 m2 e1 e2 Hd1 Hd2 He1 He2)
    as (q & r & Hdiv & Hq & Hr & Hdq).
  destruct (binary_round_aux_ulp q (e1 - e2 - 53) (new_location (Zpos m2) r))
    as (m & e & Hround & He & Hm & Hbr); [lia|lia|].
  unfold SF64div. exists m, e. split; [rewrite Hdiv; exact Hround|].
  split; [lia|]. split; [|split; [exact Hm|]].
  - destruct (SFdiv_le_one m1 m2 e1 e2 Hd1 Hd2) as [Hz|(m' & e' & Hf & Hb)];
      try lia; rewrite Hdiv, Hround in *; [discriminate|].
    injection Hf as <- <-. exact Hb.
  - set (n := (Zpos (digits2_pos q) - 53)%Z) in *.
    apply Qle_trans with (2 ^ (e1 - e2 - 53 + n)); [|apply pow2_Q_le; unfold n; lia].
    assert (Hval : inject_Z c / inject_Z t
                   == inject_Z (Zpos m1 * 2 ^ 53) / inject_Z (Zpos m2) * 2 ^ (e1 - e2 - 53)).
    { rewrite Hm1, Hm2, !inject_Z_mult, !pow2_Q by lia.
      assert (Hz : 2 ^ (e1 - e2 - 53) == 2 ^ (- e2) / (2 ^ (- e1) * 2 ^ 53)).
      { rewrite <- !pow2_Q_add. replace (- e2)%Z with ((e1 - e2 - 53) + (- e1 + 53))%Z by lia.
        rewrite pow2_Q_add. field. apply pow2_Q_neq. }
      rewrite Hz. field.
      repeat split; first [apply pow2_Q_neq|apply inject_Z_pos_neq; lia]. }
    rewrite Hval. apply (rounded_near q); [unfold n; lia|exact He|exact Hbr|].
    assert (Hm2pos : 0 < inject_Z (Zpos m2)) by (rewrite <- (Zlt_Qlt 0); lia).
    rewrite Hq, inject_Z_plus, inject_Z_mult.
    destruct Hr as [Hr0 Hr1]. rewrite Zle_Qle in Hr0. rewrite Zlt_Qlt in Hr1.
    change (inject_Z 0) with 0 in Hr0.
    split.
    + apply Qle_shift_div_l; [exact Hm2pos|]. lra.
    + apply Qle_shift_div_r; [exact Hm2pos|]. lra.
Qed.

(** A stored number that is at most 1, times 100: the stored product is
    within [2^-46] of the exact one. *)
Lemma mul100_error (md : positive) (ed : Z) :
  (-105 <= ed)%Z ->
  (ed < -52 \/ (ed = -52 /\ Zpos md <= 2 ^ 52))%Z ->
  (2 ^ 52 <= Zpos md < 2 ^ 53)%Z ->
  exists m e,
    SFmul prec emax (S754_finite false md ed) (S754_finite false 7036874417766400 (-46))
    = S754_finite false m e
    /\ Qabs (inject_Z (Zpos m) * 2 ^ e - inject_Z (Zpos md) * 2 ^ ed * 100) <= 2 ^ (-46).
Proof.
  intros Hed Hone Hmd. unfold SFmul. cbn [xorb].
  set (P := (md * 7036874417766400)%positive).
  destruct (digits_bounds P) as [Hlo Hhi].
  assert (HP : Zpos P = (Zpos md * 7036874417766400)%Z) by reflexivity.
  assert (Hpow : (Zpos md <= 2 ^ (- ed))%Z).
  { destruct Hone as [Hlt|[-> Hm]]; [|exact Hm].
    assert (2 ^ 53 <= 2 ^ (- ed))%Z by (apply Z.pow_le_mono_r; lia). lia. }
  assert (Hd1 : (104 < Zpos (digits2_pos P))%Z).
  { apply pow2_lt_inv; [lia|].
    change (2 ^ 104)%Z with (2 ^ 52 * 2 ^ 52)%Z.
    change (2 ^ 52)%Z with 4503599627370496%Z in *. lia. }
  assert (Hd2 : (Zpos (digits2_pos P) - 1 < 53 - ed)%Z).
  { apply pow2_lt_inv; [lia|].
    replace (53 - ed)%Z with (- ed + 53)%Z by lia. rewrite Z.pow_add_r by lia.
    pose proof (pow2_pos (- ed) ltac:(lia)).
    change (2 ^ 53)%Z with 9007199254740992%Z. nia. }
  destruct (binary_round_aux_ulp P (ed + -46) loc_Exact)
    as (m & e & Hround & He & Hm & Hbr); [lia|lia|].
  exists m, e. split; [exact Hround|].
  set (n := (Zpos (digits2_pos P) - 53)%Z) in *.
  apply Qle_trans with (2 ^ (ed + -46 + n)); [|apply pow2_Q_le; unfold n; lia].
  assert (Hval : inject_Z (Zpos md) * 2 ^ ed * 100 == inject_Z (Zpos P) * 2 ^ (ed + -46)).
  { rewrite HP, inject_Z_mult, pow2_Q_add.
    assert (H100 : 100 == inject_Z 7036874417766400 * 2 ^ (-46)) by reflexivity.
    rewrite H100. ring. }
  rewrite Hval. apply (rounded_near P); [unfold n; lia|exact He|exact Hbr|].
  split; lra.
Qed.

(** Every stored percentage is within [2^-44] of the exact one. *)
Lemma persen_error (c t : Z) :
  (0 <= c <= t)%Z -> (0 < t < 2 ^ 53)%Z ->
  Qabs (nilai_Q (persen c t) - persen_exact c t) <= 2 ^ (-44).
Proof.
  intros Hc Ht. destruct (Z.eq_dec c 0) as [->|Hnz].
  - rewrite persen_nol by exact Ht. unfold persen_exact.
    apply Qabs_Qle_condition. change (nilai_Q 0) with 0.
    assert (E : inject_Z 0 / inject_Z t * 100 == 0).
    { unfold Qdiv. change (inject_Z 0) with 0. ring. }
    rewrite E. split; discriminate.
  - destruct (div_error c t ltac:(lia) ltac:(lia)) as (md & ed & Hd & Hed & Hone & Hmd & Herr).
    destruct (mul100_error md ed Hed Hone Hmd) as (m & e & Hy & Herr').
    unfold nilai_Q, persen. rewrite mul_spec, Hd. unfold SF64mul.
    change (Prim2SF 100) with (S754_finite false 7036874417766400 (-46)).
    rewrite Hy. unfold persen_exact.
    apply Qabs_Qle_condition in Herr, Herr'. apply Qabs_Qle_condition.
    assert (E52 : 2 ^ (-52) == 1 # 4503599627370496) by reflexivity.
    assert (E46 : 2 ^ (-46) == 1 # 70368744177664) by reflexivity.
    assert (E44 : 2 ^ (-44) == 1 # 17592186044416) by reflexivity.
    rewrite E52 in Herr. rewrite E46 in Herr'. rewrite E44.
    set (y := inject_Z (Zpos m) * 2 ^ e) in *.
    set (d := inject_Z (Zpos md) * 2 ^ ed) in *.
    set (x := inject_Z c / inject_Z t) in *.
    split; lra.
Qed.

(** On the scenario's first question (2 positive, 0 neutral, 1 negative) the
    three stored percentages add up to 99.999999999999986, not to 100,
    whether they are added in binary64 or exactly. *)
Lemma jumlah_persen_contoh :
  let r := cat_row_of "Q1" (hitung_kategori [Str "SS"; Str "S"; Str "TS"]) in
  Exists (fun c => in_skala c = true) [Str "SS"; Str "S"; Str "TS"]
  /\ (jumlah_persen r =? 100)%float = false
  /\ jumlah_persen r <> 100%float
  /\ ~ nilai_Q (Pct_Positif r) + nilai_Q (Pct_Netral r) + nilai_Q (Pct_Negatif r) == 100.
Proof.
  cbv zeta. split; [|split; [|split]].
  - constructor. reflexivity.
  - vm_compute. reflexivity.
  - vm_compute. discriminate.
  - vm_compute. discriminate.
Qed.

(** C10, as the code has it: for a question with at least one Scale cell
    (and fewer than 2^53 cells) the three buckets are non-negative and add
    up to Total, which is at least 1; each stored percentage, the binary64
    value of (bucket / Total) * 100, lies between 0 and 100 and is within
    2^-44 of the exact percentage bucket / Total * 100; the exact
    percentages add up to exactly 100, each between 0 and 100; so the three
    stored percentages, added exactly, are within 3 * 2^-44 of 100.  They
    need not add up to 100. *)
Theorem persen_exact_100 (q : string) (row : list cell) :
  Exists (fun c => in_skala c = true) row ->
  (Z.of_nat (length row) < 2 ^ 53)%Z ->
  let r := cat_row_of q (hitung_kategori row) in
  (Total r = Positif r + Netral r + Negatif r)%Z
  /\ (1 <= Total r)%Z
  /\ (0 <= Positif r)%Z /\ (0 <= Netral r)%Z /\ (0 <= Negatif r)%Z
  /\ Pct_Positif r = persen (Positif r) (Total r)
  /\ Pct_Netral r = persen (Netral r) (Total r)
  /\ Pct_Negatif r = persen (Negatif r) (Total r)
  /\ ((0 <=? Pct_Positif r)%float = true /\ (Pct_Positif r <=? 100)%float = true)
  /\ ((0 <=? Pct_Netral r)%float = true /\ (Pct_Netral r <=? 100)%float = true)
  /\ ((0 <=? Pct_Negatif r)%float = true /\ (Pct_Negatif r <=? 100)%float = true)
  /\ persen_exact (Positif r) (Total r) + persen_exact (Netral r) (Total r)
     + persen_exact (Negatif r) (Total r) == 100
  /\ 0 <= persen_exact (Positif r) (Total r) <= 100
  /\ 0 <= persen_exact (Netral r) (Total r) <= 100
  /\ 0 <= persen_exact (Negatif r) (Total r) <= 100
  /\ Qabs (nilai_Q (Pct_Positif r) - persen_exact (Positif r) (Total r)) <= 2 ^ (-44)
  /\ Qabs (nilai_Q (Pct_Netral r) - persen_exact (Netral r) (Total r)) <= 2 ^ (-44)
  /\ Qabs (nilai_Q (Pct_Negatif r) - persen_exact (Negatif r) (Total r)) <= 2 ^ (-44)
  /\ Qabs (nilai_Q (Pct_Positif r) + nilai_Q (Pct_Netral r) + nilai_Q (Pct_Negatif r) - 100)
     <= 3 * 2 ^ (-44).
Proof.
  intros H Hlen. apply banyak_in_skala_pos in H.
  pose proof (banyak_le_length in_skala row) as Hle.
  rewrite <- jumlah3_hitung_kategori in H, Hle.
  assert (Hnn : (0 <= fst (fst (hitung_kategori row)))%Z
                /\ (0 <= snd (fst (hitung_kategori row)))%Z
                /\ (0 <= snd (hitung_kategori row))%Z).
  { unfold hitung_kategori. simpl.
    pose proof (count_eq_nonneg row "SS"). pose proof (count_eq_nonneg row "S").
    pose proof (count_eq_nonneg row "CS"). pose proof (count_eq_nonneg row "CTS").
    pose proof (count_eq_nonneg row "TS"). pose proof (count_eq_nonneg row "STS").
    lia. }
  destruct (hitung_kategori row) as [[pos neu] neg]. simpl in H, Hle, Hnn.
  destruct Hnn as (Hp & Hn & Hg).
  assert (Ht : replace_0_1 (pos + neu + neg) = (pos + neu + neg)%Z).
  { unfold replace_0_1. destruct (Z.eqb_spec (pos + neu + neg) 0); lia. }
  cbv zeta. unfold cat_row_of.
  cbn [Total Positif Netral Negatif Pct_Positif Pct_Netral Pct_Negatif]. rewrite Ht.
  pose proof (persen_error pos (pos + neu + neg) ltac:(lia) ltac:(lia)) as E1.
  pose proof (persen_error neu (pos + neu + neg) ltac:(lia) ltac:(lia)) as E2.
  pose proof (persen_error neg (pos + neu + neg) ltac:(lia) ltac:(lia)) as E3.
  pose proof (persen_exact_sum pos neu neg H) as Hsum.
  repeat match goal with |- _ /\ _ => split end;
    try reflexivity; try lia; try assumption;
    try (apply persen_bounds; lia);
    try (apply persen_exact_bounds; lia).
  apply Qabs_Qle_condition in E1, E2, E3. apply Qabs_Qle_condition.
  assert (E44 : 2 ^ (-44) == 1 # 17592186044416) by reflexivity.
  rewrite E44 in *. split; lra.
Qed.

Lemma persen_exact_100_contoh :
  (Exists (fun c => in_skala c = true) [Str "SS"; Str "S"; Str "TS"]
   /\ (Z.of_nat (length [Str "SS"; Str "S"; Str "TS"]) < 2 ^ 53)%Z)
  /\ (let r := cat_row_of "Q1" (hitung_kategori [Str "SS"; Str "S"; Str "TS"]) in
      (Total r = Positif r + Netral r + Negatif r)%Z
      /\ (1 <= Total r)%Z
      /\ (0 <= Positif r)%Z /\ (0 <= Netral r)%Z /\ (0 <= Negatif r)%Z
      /\ Pct_Positif r = persen (Positif r) (Total r)
      /\ Pct_Netral r = persen (Netral r) (Total r)
      /\ Pct_Negatif r = persen (Negatif r) (Total r)
      /\ ((0 <=? Pct_Positif r)%float = true /\ (Pct_Positif r <=? 100)%float = true)
      /\ ((0 <=? Pct_Netral r)%float = true /\ (Pct_Netral r <=? 100)%float = true)
      /\ ((0 <=? Pct_Negatif r)%float = true /\ (Pct_Negatif r <=? 100)%float = true)
      /\ persen_exact (Positif r) (Total r) + persen_exact (Netral r) (Total r)
         + persen_exact (Negatif r) (Total r) == 100
      /\ 0 <= persen_exact (Positif r) (Total r) <= 100
      /\ 0 <= persen_exact (Netral r) (Total r) <= 100
      /\ 0 <= persen_exact (Negatif r) (Total r) <= 100
      /\ Qabs (nilai_Q (Pct_Positif r) - persen_exact (Positif r) (Total r)) <= 2 ^ (-44)
      /\ Qabs (nilai_Q (Pct_Netral r) - persen_exact (Netral r) (Total r)) <= 2 ^ (-44)
      /\ Qabs (nilai_Q (Pct_Negatif r) - persen_exact (Negatif r) (Total r)) <= 2 ^ (-44)
      /\ Qabs (nilai_Q (Pct_Positif r) + nilai_Q (Pct_Netral r) + nilai_Q (Pct_Negatif r)
               - 100)
         <= 3 * 2 ^ (-44)).
Proof.
  assert (H1 : Exists (fun c => in_skala c = true) [Str "SS"; Str "S"; Str "TS"])
    by (constructor; reflexivity).
  assert (H2 : (Z.of_nat (length [Str "SS"; Str "S"; Str "TS"]) < 2 ^ 53)%Z)
    by reflexivity.
  split; [split; assumption|].
  exact (persen_exact_100 "Q1" [Str "SS"; Str "S"; Str "TS"] H1 H2).
Defined.

Local Close Scope Q_scope.
